(** * SceneManager: texture registry, material registry, transform composer,
      scene preparation and rendering

    A shallow embedding of [Source/SceneManager.cpp].  The C++ object and the
    process-wide OpenGL context it drives are threaded explicitly as a record;
    operations that can leave defined behaviour (an array index outside the
    fixed texture table, a call through a null shader-manager pointer) return
    an [outcome].  The external collaborators (stb_image, libm's cosine and
    sine, the GL driver's choice of texture names) are Section variables.
    [RenderScene], which is straight-line code, is a list of statements run
    over its locals and the scene manager. *)

From Stdlib Require Import ZArith String List Lia Reals Lra.
From Stdlib Require Import Floats.SpecFloat.
From stdpp Require Import gmap strings list fin_maps.

Local Open Scope Z_scope.

(** ** Outcomes of possibly undefined operations *)

Inductive fault : Type :=
  | OutOfBounds        (* subscript outside a fixed-size array *)
  | NullDereference.   (* member call through a NULL pointer *)

Inductive outcome (A : Type) : Type :=
  | Ok (a : A)
  | Fault (f : fault).
Arguments Ok {A} a.
Arguments Fault {A} f.

#[export] Instance outcome_ret : MRet outcome := fun A a => Ok a.

#[export] Instance outcome_bind : MBind outcome := fun A B k m =>
  match m with
  | Ok a => k a
  | Fault f => Fault f
  end.

(** ** Machine integers

    [GLuint] is an unsigned 32-bit integer and [int] a signed 32-bit one; both
    are carried as [Z].  [FindTextureID] returns a [GLuint] member through an
    [int], which is the conversion [int_of_GLuint]. *)

Definition GLuint_wrap (z : Z) : Z := z mod 2 ^ 32.

Definition int_of_GLuint (u : Z) : Z :=
  if u <? 2 ^ 31 then u else u - 2 ^ 32.

Definition GLuint_of_int (i : Z) : Z := i mod 2 ^ 32.

(** [bool] to [int], as in [setIntValue(g_UseTextureName, true)]. *)
Definition int_of_bool (b : bool) : Z := if b then 1 else 0.

(** ** Scalars

    The source computes with [float].  The arithmetic is a parameter of the
    model: [binary32] below is IEEE 754 single precision, [real_scalar] the
    exact arithmetic the rounding approximates. *)

Class Scalar : Type := {
  num : Type;
  num0 : num;
  num1 : num;
  nadd : num -> num -> num;
  nsub : num -> num -> num;
  nmul : num -> num -> num;
  ndiv : num -> num -> num;
  nsqrt : num -> num;
  (* the literal 0.01745329251994329576923690768489 of glm::radians *)
  deg2rad : num
}.

(** libm's [cos] and [sin] at the scalar type. *)
Class Trig (F : Scalar) : Type := {
  ncos : num -> num;
  nsin : num -> num
}.

Module Binary32.
Definition prec : Z := 24.
Definition emax : Z := 128.
Definition zero : spec_float := S754_zero false.
Definition one : spec_float := S754_finite false 8388608 (-23).
(* 0x3C8EFA35, the float nearest to pi/180 *)
Definition deg2rad : spec_float := S754_finite false 9370165 (-29).
End Binary32.

Definition binary32 : Scalar := {|
  num := spec_float;
  num0 := Binary32.zero;
  num1 := Binary32.one;
  nadd := SFadd Binary32.prec Binary32.emax;
  nsub := SFsub Binary32.prec Binary32.emax;
  nmul := SFmul Binary32.prec Binary32.emax;
  ndiv := SFdiv Binary32.prec Binary32.emax;
  nsqrt := SFsqrt Binary32.prec Binary32.emax;
  deg2rad := Binary32.deg2rad
|}.

Definition real_scalar : Scalar := {|
  num := R;
  num0 := 0%R;
  num1 := 1%R;
  nadd := Rplus;
  nsub := Rminus;
  nmul := Rmult;
  ndiv := Rdiv;
  nsqrt := sqrt;
  deg2rad := (PI / 180)%R
|}.

Definition real_trig : Trig real_scalar :=
  @Build_Trig real_scalar cos sin.

(** ** GLM: vectors, matrices and the transform constructors

    [glm::mat4] is column-major: [m[i]] is column [i].  The definitions follow
    GLM's scalar code path: [glm/ext/matrix_transform.inl] for the
    four-by-four constructors, [glm/gtx/transform.inl] for the one-argument
    wrappers the source calls. *)

Section GLM.
Context {F : Scalar} {T : Trig F}.

Record vec2 : Type := Vec2 { v2x : num; v2y : num }.
Record vec3 : Type := Vec3 { v3x : num; v3y : num; v3z : num }.
Record vec4 : Type := Vec4 { v4x : num; v4y : num; v4z : num; v4w : num }.
Record mat4 : Type := Mat4 { col0 : vec4; col1 : vec4; col2 : vec4; col3 : vec4 }.

(* vec4 * scalar and vec4 + vec4, componentwise *)
Definition vec4_scale (v : vec4) (k : num) : vec4 :=
  Vec4 (nmul (v4x v) k) (nmul (v4y v) k) (nmul (v4z v) k) (nmul (v4w v) k).

Definition vec4_add (a b : vec4) : vec4 :=
  Vec4 (nadd (v4x a) (v4x b)) (nadd (v4y a) (v4y b))
       (nadd (v4z a) (v4z b)) (nadd (v4w a) (v4w b)).

(* mat4(d): d on the diagonal, zero elsewhere *)
Definition mat4_diag (d : num) : mat4 :=
  Mat4 (Vec4 d num0 num0 num0) (Vec4 num0 d num0 num0)
       (Vec4 num0 num0 d num0) (Vec4 num0 num0 num0 d).

(* operator*(mat4, mat4) *)
Definition mat4_col_mul (m1 : mat4) (b : vec4) : vec4 :=
  vec4_add
    (vec4_add
       (vec4_add (vec4_scale (col0 m1) (v4x b)) (vec4_scale (col1 m1) (v4y b)))
       (vec4_scale (col2 m1) (v4z b)))
    (vec4_scale (col3 m1) (v4w b)).

Definition mat4_mul (m1 m2 : mat4) : mat4 :=
  Mat4 (mat4_col_mul m1 (col0 m2)) (mat4_col_mul m1 (col1 m2))
       (mat4_col_mul m1 (col2 m2)) (mat4_col_mul m1 (col3 m2)).

(* glm::radians *)
Definition glm_radians (degrees : num) : num := nmul degrees deg2rad.

(* glm::dot, glm::inversesqrt, glm::normalize on vec3 *)
Definition glm_dot (a b : vec3) : num :=
  nadd (nadd (nmul (v3x a) (v3x b)) (nmul (v3y a) (v3y b))) (nmul (v3z a) (v3z b)).

Definition glm_inversesqrt (x : num) : num := ndiv num1 (nsqrt x).

Definition glm_normalize (v : vec3) : vec3 :=
  let k := glm_inversesqrt (glm_dot v v) in
  Vec3 (nmul (v3x v) k) (nmul (v3y v) k) (nmul (v3z v) k).

(* translate(m, v): Result = m; Result[3] = m[0]*v[0] + m[1]*v[1] + m[2]*v[2] + m[3] *)
Definition glm_translate_m (m : mat4) (v : vec3) : mat4 :=
  Mat4 (col0 m) (col1 m) (col2 m)
       (vec4_add
          (vec4_add
             (vec4_add (vec4_scale (col0 m) (v3x v)) (vec4_scale (col1 m) (v3y v)))
             (vec4_scale (col2 m) (v3z v)))
          (col3 m)).

(* scale(m, v): Result[i] = m[i] * v[i] for i < 3, Result[3] = m[3] *)
Definition glm_scale_m (m : mat4) (v : vec3) : mat4 :=
  Mat4 (vec4_scale (col0 m) (v3x v)) (vec4_scale (col1 m) (v3y v))
       (vec4_scale (col2 m) (v3z v)) (col3 m).

(* rotate(m, angle, v): the axis-angle matrix, applied on the right of m *)
Definition glm_rotate_m (m : mat4) (angle : num) (v : vec3) : mat4 :=
  let c := ncos angle in
  let s := nsin angle in
  let axis := glm_normalize v in
  let temp := Vec3 (nmul (nsub num1 c) (v3x axis))
                   (nmul (nsub num1 c) (v3y axis))
                   (nmul (nsub num1 c) (v3z axis)) in
  let r00 := nadd c (nmul (v3x temp) (v3x axis)) in
  let r01 := nadd (nmul (v3x temp) (v3y axis)) (nmul s (v3z axis)) in
  let r02 := nsub (nmul (v3x temp) (v3z axis)) (nmul s (v3y axis)) in
  let r10 := nsub (nmul (v3y temp) (v3x axis)) (nmul s (v3z axis)) in
  let r11 := nadd c (nmul (v3y temp) (v3y axis)) in
  let r12 := nadd (nmul (v3y temp) (v3z axis)) (nmul s (v3x axis)) in
  let r20 := nadd (nmul (v3z temp) (v3x axis)) (nmul s (v3y axis)) in
  let r21 := nsub (nmul (v3z temp) (v3y axis)) (nmul s (v3x axis)) in
  let r22 := nadd c (nmul (v3z temp) (v3z axis)) in
  let lin (a b d : num) : vec4 :=
    vec4_add (vec4_add (vec4_scale (col0 m) a) (vec4_scale (col1 m) b))
             (vec4_scale (col2 m) d) in
  Mat4 (lin r00 r01 r02) (lin r10 r11 r12) (lin r20 r21 r22) (col3 m).

(* the gtx/transform.hpp forms used by SetTransformations *)
Definition glm_translate (v : vec3) : mat4 := glm_translate_m (mat4_diag num1) v.
Definition glm_scale (v : vec3) : mat4 := glm_scale_m (mat4_diag num1) v.
Definition glm_rotate (angle : num) (v : vec3) : mat4 :=
  glm_rotate_m (mat4_diag num1) angle v.

(** ** The shader manager *)

(** Modelled from the spec: the class ShaderManager, whose source is not
    among the files at hand.  The specification describes it as the holder of
    the render state, accepting named uniform writes (scalar, vector, matrix,
    boolean, integer, texture-slot index): each setter stores its value under
    the uniform's name. *)

Inductive uniform : Type :=
  | UBool (b : bool)
  | UInt (i : Z)
  | USampler2D (slot : Z)
  | UFloat (f : num)
  | UVec2 (v : vec2)
  | UVec3 (v : vec3)
  | UVec4 (v : vec4)
  | UMat4 (m : mat4).

Record ShaderManager : Type := { uniforms : gmap string uniform }.

Definition set_uniform (name : string) (u : uniform) (sh : ShaderManager)
  : ShaderManager :=
  {| uniforms := <[name := u]> (uniforms sh) |}.

Definition setBoolValue (name : string) (b : bool) := set_uniform name (UBool b).
Definition setIntValue (name : string) (i : Z) := set_uniform name (UInt i).
Definition setSampler2DValue (name : string) (i : Z) := set_uniform name (USampler2D i).
Definition setFloatValue (name : string) (f : num) := set_uniform name (UFloat f).
Definition setVec2Value (name : string) (v : vec2) := set_uniform name (UVec2 v).
Definition setVec3Value (name : string) (v : vec3) := set_uniform name (UVec3 v).
Definition setVec4Value (name : string) (v : vec4) := set_uniform name (UVec4 v).
Definition setMat4Value (name : string) (m : mat4) := set_uniform name (UMat4 m).

End GLM.

(** ** The OpenGL context

    Only the texture part: the names handed out by [glGenTextures], the
    texture objects, the active unit and each unit's GL_TEXTURE_2D binding. *)

Inductive GLparam : Type :=
  | GL_TEXTURE_WRAP_S | GL_TEXTURE_WRAP_T
  | GL_TEXTURE_MIN_FILTER | GL_TEXTURE_MAG_FILTER.

Inductive GLvalue : Type := GL_REPEAT | GL_LINEAR.

Inductive GLinternalformat : Type := GL_RGB8 | GL_RGBA8.

(** What [stbi_load] returns for a readable file. *)
Record stb_image : Type := {
  width : Z;
  height : Z;
  colorChannels : Z;
  pixels : list Z
}.

Record gl_texture : Type := {
  tex_params : list (GLparam * GLvalue);
  tex_level0 : option (GLinternalformat * stb_image);
  tex_mipmaps : bool
}.

Definition gl_texture_default : gl_texture :=
  {| tex_params := []; tex_level0 := None; tex_mipmaps := false |}.

Record GLContext : Type := {
  gl_names : list Z;               (* generated texture names, oldest first *)
  gl_objects : gmap Z gl_texture;
  gl_active : Z;                   (* index of the active texture unit *)
  gl_units : gmap Z Z              (* unit index -> name bound to GL_TEXTURE_2D *)
}.

Section GL.
(* The driver's choice of the next texture name, given the names in use. *)
Variable gl_fresh : list Z -> Z.

(* glGenTextures(1, &id) *)
Definition glGenTextures (g : GLContext) : Z * GLContext :=
  let id := GLuint_wrap (gl_fresh (gl_names g)) in
  (id, {| gl_names := gl_names g ++ [id]; gl_objects := gl_objects g;
          gl_active := gl_active g; gl_units := gl_units g |}).

(* glActiveTexture(GL_TEXTURE0 + i) *)
Definition glActiveTexture (i : Z) (g : GLContext) : GLContext :=
  {| gl_names := gl_names g; gl_objects := gl_objects g;
     gl_active := i; gl_units := gl_units g |}.

(* glBindTexture(GL_TEXTURE_2D, id) *)
Definition glBindTexture (id : Z) (g : GLContext) : GLContext :=
  {| gl_names := gl_names g; gl_objects := gl_objects g;
     gl_active := gl_active g; gl_units := <[gl_active g := id]> (gl_units g) |}.

Definition gl_bound (g : GLContext) : Z := default 0 (gl_units g !! gl_active g).

Definition gl_update_bound (f : gl_texture -> gl_texture) (g : GLContext)
  : GLContext :=
  let id := gl_bound g in
  {| gl_names := gl_names g;
     gl_objects := <[id := f (default gl_texture_default (gl_objects g !! id))]>
                     (gl_objects g);
     gl_active := gl_active g; gl_units := gl_units g |}.

(* glTexParameteri(GL_TEXTURE_2D, pname, value) *)
Definition glTexParameteri (p : GLparam) (v : GLvalue) : GLContext -> GLContext :=
  gl_update_bound (fun t =>
    {| tex_params := (p, v) :: tex_params t; tex_level0 := tex_level0 t;
       tex_mipmaps := tex_mipmaps t |}).

(* glTexImage2D(GL_TEXTURE_2D, 0, fmt, w, h, 0, ..., GL_UNSIGNED_BYTE, image) *)
Definition glTexImage2D (fmt : GLinternalformat) (image : stb_image)
  : GLContext -> GLContext :=
  gl_update_bound (fun t =>
    {| tex_params := tex_params t; tex_level0 := Some (fmt, image);
       tex_mipmaps := tex_mipmaps t |}).

(* glGenerateMipmap(GL_TEXTURE_2D) *)
Definition glGenerateMipmap : GLContext -> GLContext :=
  gl_update_bound (fun t =>
    {| tex_params := tex_params t; tex_level0 := tex_level0 t;
       tex_mipmaps := true |}).
End GL.

(** ** Fixed-size arrays

    [m_textureIDs] is a C array; a subscript outside it is undefined
    behaviour, reported here as [Fault OutOfBounds]. *)

Definition array_in_range {A : Type} (a : list A) (i : Z) : bool :=
  (0 <=? i) && (i <? Z.of_nat (length a)).

Definition array_read {A : Type} (a : list A) (i : Z) : outcome A :=
  if array_in_range a i then
    match a !! Z.to_nat i with
    | Some x => Ok x
    | None => Fault OutOfBounds
    end
  else Fault OutOfBounds.

Definition array_modify {A : Type} (a : list A) (i : Z) (f : A -> A)
  : outcome (list A) :=
  x ← array_read a i; Ok (<[Z.to_nat i := f x]> a).

(** [for (int i = from; i < from + count; i++) body(i)] *)
Fixpoint for_loop {St : Type} (count : nat) (i : Z)
    (body : Z -> St -> outcome St) (s : St) : outcome St :=
  match count with
  | O => Ok s
  | S count' => s' ← body i s; for_loop count' (i + 1) body s'
  end.

(** ** The scene manager *)

(* the uniform names of the anonymous namespace *)
Definition g_ModelName : string := "model".
Definition g_ColorValueName : string := "objectColor".
Definition g_TextureValueName : string := "objectTexture".
Definition g_UseTextureName : string := "bUseTexture".
Definition g_UseLightingName : string := "bUseLighting".

(** Modelled from the spec: the struct TEXTURE_INFO of SceneManager.h, which
    is not among the files at hand: a texture entry holds a tag and a handle,
    and its slot is its position.  [ID] is a GLuint: CreateGLTexture stores
    one in it and DestroyGLTextures passes its address to glGenTextures. *)
Record TEXTURE_INFO : Type := { ID : Z; tag : string }.

Section Scene.
Context {F : Scalar} {T : Trig F}.

(* stb_image's decoder: [None] is the null pointer of an unreadable file. *)
Variable stbi_load : string -> option stb_image.
Variable gl_fresh : list Z -> Z.

(** Modelled from the spec: the struct OBJECT_MATERIAL of SceneManager.h, with
    the four members the specification lists and the source reads and writes.
    [material_tag] is the member [tag]. *)
Record OBJECT_MATERIAL : Type := {
  diffuseColor : vec3;
  specularColor : vec3;
  shininess : num;
  material_tag : string
}.

(** Modelled from the spec: the data members of class SceneManager declared
    in SceneManager.h, as the member functions use them, together with the GL
    context of the process.  [m_textureIDs] is the fixed array, of whatever
    length the header declares (the specification speaks of 16 texture
    units); entries at and above [m_loadedTextures] are unused. *)
Record SceneManager : Type := {
  m_pShaderManager : option ShaderManager;
  m_loadedTextures : Z;
  m_textureIDs : list TEXTURE_INFO;
  m_objectMaterials : list OBJECT_MATERIAL;
  gl : GLContext
}.

Definition with_gl (g : GLContext) (s : SceneManager) : SceneManager :=
  {| m_pShaderManager := m_pShaderManager s;
     m_loadedTextures := m_loadedTextures s;
     m_textureIDs := m_textureIDs s;
     m_objectMaterials := m_objectMaterials s;
     gl := g |}.

Definition with_textures (n : Z) (a : list TEXTURE_INFO) (s : SceneManager)
  : SceneManager :=
  {| m_pShaderManager := m_pShaderManager s;
     m_loadedTextures := n;
     m_textureIDs := a;
     m_objectMaterials := m_objectMaterials s;
     gl := gl s |}.

Definition with_shader (sh : ShaderManager) (s : SceneManager) : SceneManager :=
  {| m_pShaderManager := Some sh;
     m_loadedTextures := m_loadedTextures s;
     m_textureIDs := m_textureIDs s;
     m_objectMaterials := m_objectMaterials s;
     gl := gl s |}.

Definition with_materials (l : list OBJECT_MATERIAL) (s : SceneManager)
  : SceneManager :=
  {| m_pShaderManager := m_pShaderManager s;
     m_loadedTextures := m_loadedTextures s;
     m_textureIDs := m_textureIDs s;
     m_objectMaterials := l;
     gl := gl s |}.

(** *** CreateGLTexture *)

(* m_textureIDs[m_loadedTextures].ID = textureID;
   m_textureIDs[m_loadedTextures].tag = tag;
   m_loadedTextures++; *)
Definition register_texture (textureID : Z) (tag0 : string) (s : SceneManager)
  : outcome SceneManager :=
  let n := m_loadedTextures s in
  a1 ← array_modify (m_textureIDs s) n (fun e => {| ID := textureID; tag := tag e |});
  a2 ← array_modify a1 n (fun e => {| ID := ID e; tag := tag0 |});
  Ok (with_textures (n + 1) a2 s).

Definition CreateGLTexture (filename : string) (tag0 : string) (s : SceneManager)
  : outcome (bool * SceneManager) :=
  match stbi_load filename with
  | Some image =>
      let '(textureID, g) := glGenTextures gl_fresh (gl s) in
      let g := glBindTexture textureID g in
      let g := glTexParameteri GL_TEXTURE_WRAP_S GL_REPEAT g in
      let g := glTexParameteri GL_TEXTURE_WRAP_T GL_REPEAT g in
      let g := glTexParameteri GL_TEXTURE_MIN_FILTER GL_LINEAR g in
      let g := glTexParameteri GL_TEXTURE_MAG_FILTER GL_LINEAR g in
      let upload (fmt : GLinternalformat) :=
        let g := glTexImage2D fmt image g in
        let g := glGenerateMipmap g in
        let g := glBindTexture 0 g in
        s' ← register_texture textureID tag0 (with_gl g s);
        Ok (true, s') in
      if colorChannels image =? 3 then upload GL_RGB8
      else if colorChannels image =? 4 then upload GL_RGBA8
      else Ok (false, with_gl g s)
  | None => Ok (false, s)
  end.

(** *** BindGLTextures, DestroyGLTextures *)

Definition BindGLTextures (s : SceneManager) : outcome SceneManager :=
  for_loop (Z.to_nat (m_loadedTextures s)) 0
    (fun i s =>
       e ← array_read (m_textureIDs s) i;
       Ok (with_gl (glBindTexture (ID e) (glActiveTexture i (gl s))) s))
    s.

(* the body is glGenTextures(1, &m_textureIDs[i].ID) *)
Definition DestroyGLTextures (s : SceneManager) : outcome SceneManager :=
  for_loop (Z.to_nat (m_loadedTextures s)) 0
    (fun i s =>
       let '(id, g) := glGenTextures gl_fresh (gl s) in
       a ← array_modify (m_textureIDs s) i (fun e => {| ID := id; tag := tag e |});
       Ok (with_gl g (with_textures (m_loadedTextures s) a s)))
    s.

(** *** FindTextureID, FindTextureSlot

    Both loops advance [index] from 0 while [index < m_loadedTextures] and
    nothing was found; [remaining] is [m_loadedTextures - index], so
    [remaining = 0] is the loop condition failing with the initial -1. *)

Fixpoint FindTextureID_from (a : list TEXTURE_INFO) (tag0 : string)
    (remaining : nat) (index : Z) : outcome Z :=
  match remaining with
  | O => Ok (-1)
  | S remaining' =>
      e ← array_read a index;
      if String.eqb (tag e) tag0 then Ok (int_of_GLuint (ID e))
      else FindTextureID_from a tag0 remaining' (index + 1)
  end.

Definition FindTextureID (s : SceneManager) (tag0 : string) : outcome Z :=
  FindTextureID_from (m_textureIDs s) tag0 (Z.to_nat (m_loadedTextures s)) 0.

Fixpoint FindTextureSlot_from (a : list TEXTURE_INFO) (tag0 : string)
    (remaining : nat) (index : Z) : outcome Z :=
  match remaining with
  | O => Ok (-1)
  | S remaining' =>
      e ← array_read a index;
      if String.eqb (tag e) tag0 then Ok index
      else FindTextureSlot_from a tag0 remaining' (index + 1)
  end.

Definition FindTextureSlot (s : SceneManager) (tag0 : string) : outcome Z :=
  FindTextureSlot_from (m_textureIDs s) tag0 (Z.to_nat (m_loadedTextures s)) 0.

(** *** FindMaterial

    [material] is the caller's object, passed by reference: the result
    carries its content after the call.  The vector is scanned from index 0;
    the suffix still to scan stands for [index].  Only three members are
    copied, and the function returns [true] whenever the vector is not
    empty. *)

Fixpoint FindMaterial_scan (l : list OBJECT_MATERIAL) (tag0 : string)
    (material : OBJECT_MATERIAL) : OBJECT_MATERIAL :=
  match l with
  | [] => material
  | m :: rest =>
      if String.eqb (material_tag m) tag0 then
        {| diffuseColor := diffuseColor m;
           specularColor := specularColor m;
           shininess := shininess m;
           material_tag := material_tag material |}
      else FindMaterial_scan rest tag0 material
  end.

Definition FindMaterial (s : SceneManager) (tag0 : string)
    (material : OBJECT_MATERIAL) : bool * OBJECT_MATERIAL :=
  if (length (m_objectMaterials s) =? 0)%nat then (false, material)
  else (true, FindMaterial_scan (m_objectMaterials s) tag0 material).

(* m_objectMaterials.push_back(m), the step DefineObjectMaterials repeats *)
Definition push_back_material (m : OBJECT_MATERIAL) (s : SceneManager)
  : SceneManager :=
  with_materials (m_objectMaterials s ++ [m]) s.

(* a run of definitions, each a push_back *)
Definition define_all (ms : list OBJECT_MATERIAL) (s : SceneManager)
  : SceneManager :=
  foldl (fun s m => push_back_material m s) s ms.

(** *** The shader setters *)

(* the local [modelView] of SetTransformations *)
Definition modelView (scaleXYZ : vec3)
    (XrotationDegrees YrotationDegrees ZrotationDegrees : num)
    (positionXYZ : vec3) : mat4 :=
  let scale := glm_scale scaleXYZ in
  let rotationX := glm_rotate (glm_radians XrotationDegrees) (Vec3 num1 num0 num0) in
  let rotationY := glm_rotate (glm_radians YrotationDegrees) (Vec3 num0 num1 num0) in
  let rotationZ := glm_rotate (glm_radians ZrotationDegrees) (Vec3 num0 num0 num1) in
  let translation := glm_translate positionXYZ in
  mat4_mul (mat4_mul (mat4_mul (mat4_mul translation rotationZ) rotationY)
                     rotationX) scale.

Definition SetTransformations (scaleXYZ : vec3)
    (XrotationDegrees YrotationDegrees ZrotationDegrees : num)
    (positionXYZ : vec3) (s : SceneManager) : SceneManager :=
  let modelView :=
    modelView scaleXYZ XrotationDegrees YrotationDegrees ZrotationDegrees
              positionXYZ in
  match m_pShaderManager s with
  | Some sh => with_shader (setMat4Value g_ModelName modelView sh) s
  | None => s
  end.

Definition SetShaderColor (redColorValue greenColorValue blueColorValue
    alphaValue : num) (s : SceneManager) : SceneManager :=
  let currentColor := Vec4 redColorValue greenColorValue blueColorValue alphaValue in
  match m_pShaderManager s with
  | Some sh =>
      let sh := setIntValue g_UseTextureName (int_of_bool false) sh in
      with_shader (setVec4Value g_ColorValueName currentColor sh) s
  | None => s
  end.

Definition SetShaderTexture (textureTag : string) (s : SceneManager)
  : outcome SceneManager :=
  match m_pShaderManager s with
  | Some sh =>
      let sh := setIntValue g_UseTextureName (int_of_bool true) sh in
      textureID ← FindTextureSlot s textureTag;
      Ok (with_shader (setSampler2DValue g_TextureValueName textureID sh) s)
  | None => Ok s
  end.

Definition SetTextureUVScale (u v : num) (s : SceneManager) : SceneManager :=
  match m_pShaderManager s with
  | Some sh => with_shader (setVec2Value "UVscale" (Vec2 u v) sh) s
  | None => s
  end.

(* [local] is the content of the uninitialised local [material] when
   FindMaterial receives it; m_pShaderManager is used without a NULL test. *)
Definition SetShaderMaterial (materialTag : string) (local : OBJECT_MATERIAL)
    (s : SceneManager) : outcome SceneManager :=
  if (0 <? length (m_objectMaterials s))%nat then
    let '(bReturn, material) := FindMaterial s materialTag local in
    if bReturn then
      match m_pShaderManager s with
      | Some sh =>
          let sh := setVec3Value "material.diffuseColor" (diffuseColor material) sh in
          let sh := setVec3Value "material.specularColor" (specularColor material) sh in
          let sh := setFloatValue "material.shininess" (shininess material) sh in
          Ok (with_shader sh s)
      | None => Fault NullDereference
      end
    else Ok s
  else Ok s.

(** *** Registry views used by the statements *)

(* the entries in use: the first m_loadedTextures elements of the array *)
Definition loaded_entries (s : SceneManager) : list TEXTURE_INFO :=
  take (Z.to_nat (m_loadedTextures s)) (m_textureIDs s).

Definition texture_tags (s : SceneManager) : list string :=
  tag <$> loaded_entries s.

Definition material_tags (s : SceneManager) : list string :=
  material_tag <$> m_objectMaterials s.

(* the three members FindMaterial copies from [m] into the caller's object *)
Definition copied_from (m local : OBJECT_MATERIAL) : OBJECT_MATERIAL :=
  {| diffuseColor := diffuseColor m;
     specularColor := specularColor m;
     shininess := shininess m;
     material_tag := material_tag local |}.

(* the material uniforms as the shader manager currently holds them *)
Definition material_uniforms (s : SceneManager)
  : option (option uniform * option uniform * option uniform) :=
  sh ← m_pShaderManager s;
  Some (uniforms sh !! "material.diffuseColor",
        uniforms sh !! "material.specularColor",
        uniforms sh !! "material.shininess").

(* the count of entries in use fits the array *)
Definition registry_fits (s : SceneManager) : Prop :=
  0 <= m_loadedTextures s <= Z.of_nat (length (m_textureIDs s)).

(* A registration history: CreateGLTexture on each (filename, tag) in turn,
   as LoadTextures does, keeping every return value. *)
Fixpoint register_all (reqs : list (string * string)) (s : SceneManager)
  : outcome (list bool * SceneManager) :=
  match reqs with
  | [] => Ok ([], s)
  | (filename, tag0) :: rest =>
      r ← CreateGLTexture filename tag0 s;
      k ← register_all rest (snd r);
      Ok (fst r :: fst k, snd k)
  end.

Definition LoadTextures (s : SceneManager) : outcome (bool * SceneManager) :=
  r ← register_all
        [("textures/PavingStones138_1K-JPG_Color.jpg", "moss");
         ("textures/PavingStones142_1K-JPG_Color.jpg", "paver");
         ("textures/Asphalt031_1K-JPG_Color.jpg", "stonetop");
         ("textures/Rocks011_1K-JPG_Color.jpg", "rock");
         ("textures/water.jpg", "water");
         ("textures/stone.jpg", "stone")]%string s;
  Ok (default false (last (fst r)), snd r).

End Scene.

Fixpoint successes (results : list bool) : Z :=
  match results with
  | [] => 0
  | true :: rest => 1 + successes rest
  | false :: rest => successes rest
  end.

(* the tags of the requests that succeeded, in order *)
Fixpoint successful_tags (reqs : list (string * string)) (results : list bool)
  : list string :=
  match reqs, results with
  | (_, tag0) :: reqs', true :: results' => tag0 :: successful_tags reqs' results'
  | _ :: reqs', false :: results' => successful_tags reqs' results'
  | _, _ => []
  end.

(** ** The composition in the words of the specification

    Over the reals: the usual homogeneous matrices, written row by row, and
    the row-by-column product. *)

Module Textbook.
Local Open Scope R_scope.

Definition matrix : Type := @mat4 real_scalar.

Definition vector (x y z : R) : @vec3 real_scalar := @Vec3 real_scalar x y z.

Definition rows (a00 a01 a02 a03 a10 a11 a12 a13
                 a20 a21 a22 a23 a30 a31 a32 a33 : R) : matrix :=
  @Mat4 real_scalar
    (@Vec4 real_scalar a00 a10 a20 a30) (@Vec4 real_scalar a01 a11 a21 a31)
    (@Vec4 real_scalar a02 a12 a22 a32) (@Vec4 real_scalar a03 a13 a23 a33).

Definition column (m : matrix) (j : nat) : @vec4 real_scalar :=
  match j with
  | O => col0 m | 1%nat => col1 m | 2%nat => col2 m | _ => col3 m
  end.

Definition coordinate (v : @vec4 real_scalar) (i : nat) : R :=
  match i with
  | O => v4x v | 1%nat => v4y v | 2%nat => v4z v | _ => v4w v
  end.

(* the entry in row i, column j *)
Definition entry (m : matrix) (i j : nat) : R := coordinate (column m j) i.

Definition row_by_column (a b : matrix) (i j : nat) : R :=
  entry a i 0 * entry b 0 j + entry a i 1 * entry b 1 j
  + entry a i 2 * entry b 2 j + entry a i 3 * entry b 3 j.

Definition product (a b : matrix) : matrix :=
  rows (row_by_column a b 0 0) (row_by_column a b 0 1)
       (row_by_column a b 0 2) (row_by_column a b 0 3)
       (row_by_column a b 1 0) (row_by_column a b 1 1)
       (row_by_column a b 1 2) (row_by_column a b 1 3)
       (row_by_column a b 2 0) (row_by_column a b 2 1)
       (row_by_column a b 2 2) (row_by_column a b 2 3)
       (row_by_column a b 3 0) (row_by_column a b 3 1)
       (row_by_column a b 3 2) (row_by_column a b 3 3).

Definition Translate (p : @vec3 real_scalar) : matrix :=
  rows 1 0 0 (v3x p)
       0 1 0 (v3y p)
       0 0 1 (v3z p)
       0 0 0 1.

Definition Scale (k : @vec3 real_scalar) : matrix :=
  rows (v3x k) 0 0 0
       0 (v3y k) 0 0
       0 0 (v3z k) 0
       0 0 0 1.

Definition RotateX (a : R) : matrix :=
  rows 1 0 0 0
       0 (cos a) (- sin a) 0
       0 (sin a) (cos a) 0
       0 0 0 1.

Definition RotateY (a : R) : matrix :=
  rows (cos a) 0 (sin a) 0
       0 1 0 0
       (- sin a) 0 (cos a) 0
       0 0 0 1.

Definition RotateZ (a : R) : matrix :=
  rows (cos a) (- sin a) 0 0
       (sin a) (cos a) 0 0
       0 0 1 0
       0 0 0 1.

Definition degrees_to_radians (d : R) : R := d * PI / 180.

Definition model_matrix (scale : @vec3 real_scalar) (degreesX degreesY degreesZ : R)
    (position : @vec3 real_scalar) : matrix :=
  product
    (product
       (product
          (product (Translate position) (RotateZ (degrees_to_radians degreesZ)))
          (RotateY (degrees_to_radians degreesY)))
       (RotateX (degrees_to_radians degreesX)))
    (Scale scale).

Definition identity : matrix :=
  rows 1 0 0 0
       0 1 0 0
       0 0 1 0
       0 0 0 1.

(* the image of the point (x, y, z), taken with w = 1 *)
Definition transform (m : matrix) (v : @vec3 real_scalar) : @vec3 real_scalar :=
  let at_row (i : nat) :=
    entry m i 0 * v3x v + entry m i 1 * v3y v + entry m i 2 * v3z v + entry m i 3 in
  vector (at_row 0%nat) (at_row 1%nat) (at_row 2%nat).
End Textbook.

(** ** Arithmetic identities on 0 and 1

    The few scalar facts the identity transform needs.  They are closed
    computations on the constants, true of exact arithmetic and of IEEE
    arithmetic alike. *)

Class UnitExact (F : Scalar) (T : Trig F) : Prop := {
  cos_zero : ncos num0 = num1;
  sin_zero : nsin num0 = num0;
  radians_zero : nmul num0 deg2rad = num0;
  sqrt_one : nsqrt num1 = num1;
  div_one_one : ndiv num1 num1 = num1;
  mul_zero_zero : nmul num0 num0 = num0;
  mul_zero_one : nmul num0 num1 = num0;
  mul_one_zero : nmul num1 num0 = num0;
  mul_one_one : nmul num1 num1 = num1;
  add_zero_zero : nadd num0 num0 = num0;
  add_zero_one : nadd num0 num1 = num1;
  add_one_zero : nadd num1 num0 = num1;
  sub_zero_zero : nsub num0 num0 = num0;
  sub_one_one : nsub num1 num1 = num0
}.

(** ** Reference scan and sample data *)

(* The first entry of [l] with tag [tag0], with its position counted from
   [index]: what the two lookup loops compute on the entries in use. *)
Fixpoint first_match (l : list TEXTURE_INFO) (tag0 : string) (index : Z)
  : option (Z * TEXTURE_INFO) :=
  match l with
  | [] => None
  | e :: rest =>
      if String.eqb (tag e) tag0 then Some (index, e)
      else first_match rest tag0 (index + 1)
  end.

(* a texture name is live once generated *)
Definition gl_live (g : GLContext) (id : Z) : Prop := id ∈ gl_names g.

(** The float literals of DefineObjectMaterials, as binary32 values. *)
Module Literal.
Definition vec (x y z : spec_float) : @vec3 binary32 := @Vec3 binary32 x y z.

Definition f0_2 : spec_float := S754_finite false 13421773 (-26).
Definition f0_3 : spec_float := S754_finite false 10066330 (-25).
Definition f0_5 : spec_float := S754_finite false 8388608 (-24).
Definition f0_6 : spec_float := S754_finite false 10066330 (-24).
Definition f0_7 : spec_float := S754_finite false 11744051 (-24).
Definition f0_8 : spec_float := S754_finite false 13421773 (-24).
Definition f0_9 : spec_float := S754_finite false 15099494 (-24).
Definition f10 : spec_float := S754_finite false 10485760 (-20).
Definition f50 : spec_float := S754_finite false 13107200 (-18).
Definition f80 : spec_float := S754_finite false 10485760 (-17).
End Literal.

(** DefineObjectMaterials, in single precision. *)
Definition DefineObjectMaterials (s : @SceneManager binary32)
  : @SceneManager binary32 :=
  let stoneMaterial :=
    {| diffuseColor := Literal.vec Literal.f0_2 Literal.f0_3 Literal.f0_3;
       specularColor := Literal.vec Literal.f0_5 Literal.f0_5 Literal.f0_5;
       shininess := Literal.f10; material_tag := "stone" |} in
  let s := push_back_material stoneMaterial s in
  let waterMaterial :=
    {| diffuseColor := Literal.vec Literal.f0_5 Literal.f0_5 Literal.f0_8;
       specularColor := Literal.vec Literal.f0_5 Literal.f0_5 Literal.f0_6;
       shininess := Literal.f50; material_tag := "water" |} in
  let s := push_back_material waterMaterial s in
  let glassMaterial :=
    {| diffuseColor := Literal.vec Literal.f0_7 Literal.f0_7 Literal.f0_7;
       specularColor := Literal.vec Literal.f0_9 Literal.f0_9 Literal.f0_9;
       shininess := Literal.f80; material_tag := "glass" |} in
  let s := push_back_material glassMaterial s in
  let metalMaterial :=
    {| diffuseColor := Literal.vec Literal.f0_7 Literal.f0_7 Literal.f0_7;
       specularColor := Literal.vec Literal.f0_9 Literal.f0_9 Literal.f0_9;
       shininess := Literal.f80; material_tag := "metal" |} in
  push_back_material metalMaterial s.

Module Sample.
Definition image (channels : Z) : stb_image :=
  {| width := 1; height := 1; colorChannels := channels;
     pixels := repeat 255 (Z.to_nat channels) |}.

(* a decoder that knows four files *)
Definition loader (filename : string) : option stb_image :=
  if String.eqb filename "rgb.jpg" then Some (image 3)
  else if String.eqb filename "rgba.png" then Some (image 4)
  else if String.eqb filename "gray.png" then Some (image 1)
  else if String.eqb filename "graya.png" then Some (image 2)
  else None.

(* a driver that hands out 1, 2, 3, ... *)
Definition fresh (names : list Z) : Z := Z.of_nat (length names) + 1.

Definition gl0 : GLContext :=
  {| gl_names := []; gl_objects := ∅; gl_active := 0; gl_units := ∅ |}.

(* a scene manager with an attached shader manager, a texture table of
   [capacity] unused entries and no material *)
Definition scene {F : Scalar} (capacity : nat) : SceneManager :=
  {| m_pShaderManager := Some {| uniforms := ∅ |};
     m_loadedTextures := 0;
     m_textureIDs := repeat {| ID := 0; tag := "" |} capacity;
     m_objectMaterials := [];
     gl := gl0 |}.

Definition names (n : nat) : list (string * string) :=
  (fun i => ("rgb.jpg", String (Ascii.ascii_of_nat (97 + i)) ""))%string <$> seq 0 n.

(* the scene after the registrations [reqs] *)
Definition after {F : Scalar} (reqs : list (string * string)) (s : @SceneManager F)
  : @SceneManager F :=
  match register_all loader fresh reqs s with
  | Ok r => snd r
  | Fault _ => s
  end.

(* two textures in a table of four; then a third under the tag "sky" *)
Definition two : @SceneManager binary32 := after (names 2) (scene 4).
Definition three : @SceneManager binary32 := after [("rgba.png", "sky")]%string two.

(* a table of sixteen, all in use *)
Definition full : @SceneManager binary32 := after (names 16) (scene 16).

(* one texture in a table of four *)
Definition one : @SceneManager binary32 := after (names 1) (scene 4).

(* a second definition of "glass", with other values *)
Definition glass2 : @OBJECT_MATERIAL binary32 :=
  {| diffuseColor := Literal.vec Literal.f0_2 Literal.f0_2 Literal.f0_2;
     specularColor := Literal.vec Literal.f0_3 Literal.f0_3 Literal.f0_3;
     shininess := Literal.f10; material_tag := "glass" |}.

(* what the uninitialised local of SetShaderMaterial happens to hold *)
Definition stale : @OBJECT_MATERIAL binary32 :=
  {| diffuseColor := Literal.vec Literal.f0_2 Literal.f0_3 Literal.f0_5;
     specularColor := Literal.vec Literal.f0_6 Literal.f0_7 Literal.f0_8;
     shininess := Literal.f50; material_tag := "" |}.

(* the materials defined and "glass" sent to the shader *)
Definition glass_set : @SceneManager binary32 :=
  match SetShaderMaterial "glass" stale (DefineObjectMaterials (scene 4)) with
  | Ok s => s
  | Fault _ => scene 4
  end.
End Sample.

(* closes [t ∉ l] on a concrete list of strings *)
Ltac not_in_list :=
  let H := fresh "H" in
  intros H; vm_compute in H;
  repeat (apply elem_of_cons in H as [H | H]; [discriminate |]);
  now apply elem_of_nil in H.

(* closes [registry_fits s] on a concrete scene *)
Ltac fits := split; apply Z.leb_le; reflexivity.

(* the four materials DefineObjectMaterials appends *)
Definition defined_materials : list (@OBJECT_MATERIAL binary32) :=
  m_objectMaterials (DefineObjectMaterials (Sample.scene 0)).

Section Views.
Context {F : Scalar}.

(* the value the attached shader manager holds for a uniform, if any *)
Definition current_uniform (s : @SceneManager F) (name : string) : option uniform :=
  sh ← m_pShaderManager s; uniforms sh !! name.
End Views.

(** ** Float literals

    A decimal literal with few digits is the correctly rounded quotient of
    two integers that single precision holds exactly: [3.51f] is
    [q 351 100]. *)
Module Decimal.
Definition of_Z (n : Z) : spec_float :=
  binary_normalize Binary32.prec Binary32.emax n 0 false.

Definition q (n : Z) (d : positive) : @num binary32 :=
  SFdiv Binary32.prec Binary32.emax (of_Z n) (of_Z (Zpos d)).

Definition vec3 (x y z : @num binary32) : @vec3 binary32 := @Vec3 binary32 x y z.
End Decimal.

(** ** The mesh library *)

(** Modelled from the spec: the class ShapeMeshes behind [m_basicMeshes],
    whose source is not among the files at hand.  The specification gives it
    one load and one draw entry point per primitive kind, the cylinder draw
    taking face-inclusion flags; a draw is recorded with the shader manager's
    uniforms in force when it is issued. *)
Inductive mesh_kind : Type :=
  | PlaneMesh | CylinderMesh | ConeMesh | BoxMesh | SphereMesh.

Inductive mesh_call : Type :=
  | DrawPlaneMesh
  | DrawBoxMesh
  | DrawSphereMesh
  | DrawConeMesh
  | DrawCylinderMesh (flag1 flag2 flag3 : bool).

Section Meshes.
Context {F : Scalar} {T : Trig F}.

Record draw_record : Type := {
  drawn : mesh_call;
  drawn_with : option ShaderManager
}.

Record ShapeMeshes : Type := {
  loaded_meshes : list mesh_kind;     (* in load order *)
  draw_calls : list draw_record       (* in draw order *)
}.

(* The scene manager with its mesh member. *)
Record Renderer : Type := {
  scene : SceneManager;
  m_basicMeshes : ShapeMeshes
}.

Definition with_scene (s : SceneManager) (e : Renderer) : Renderer :=
  {| scene := s; m_basicMeshes := m_basicMeshes e |}.

(* m_basicMeshes->Load...Mesh() *)
Definition LoadMesh (k : mesh_kind) (e : Renderer) : Renderer :=
  {| scene := scene e;
     m_basicMeshes :=
       {| loaded_meshes := loaded_meshes (m_basicMeshes e) ++ [k];
          draw_calls := draw_calls (m_basicMeshes e) |} |}.

(* m_basicMeshes->Draw...Mesh(...) *)
Definition DrawMesh (c : mesh_call) (e : Renderer) : Renderer :=
  {| scene := scene e;
     m_basicMeshes :=
       {| loaded_meshes := loaded_meshes (m_basicMeshes e);
          draw_calls :=
            draw_calls (m_basicMeshes e)
              ++ [{| drawn := c; drawn_with := m_pShaderManager (scene e) |}] |} |}.

(** *** The statements of RenderScene

    RenderScene is straight-line code over five locals.  Its statements are
    assignments to the locals, calls of the setters, direct writes of the
    lighting flag through m_pShaderManager, and draw calls. *)

Record Frame : Type := {
  engine : Renderer;
  scaleXYZ : vec3;
  XrotationDegrees : num;
  YrotationDegrees : num;
  ZrotationDegrees : num;
  positionXYZ : vec3
}.

Definition with_engine (e : Renderer) (f : Frame) : Frame :=
  {| engine := e; scaleXYZ := scaleXYZ f;
     XrotationDegrees := XrotationDegrees f;
     YrotationDegrees := YrotationDegrees f;
     ZrotationDegrees := ZrotationDegrees f;
     positionXYZ := positionXYZ f |}.

Definition on_scene (g : SceneManager -> SceneManager) (f : Frame) : Frame :=
  with_engine (with_scene (g (scene (engine f))) (engine f)) f.

Inductive statement : Type :=
  | AssignScale (v : vec3)                  (* scaleXYZ = glm::vec3(...) *)
  | AssignX (d : num)                       (* XrotationDegrees = ... *)
  | AssignY (d : num)
  | AssignZ (d : num)
  | AssignPosition (v : vec3)               (* positionXYZ = glm::vec3(...) *)
  | CallSetTransformations                  (* with the five locals *)
  | CallSetTransformationsAt (dx dy dz : num)  (* scaleXYZ, three literals, positionXYZ *)
  | CallSetShaderColor (r g b a : num)
  | CallSetShaderTexture (textureTag : string)
  | CallSetTextureUVScale (u v : num)
  (* [local]: what the callee's uninitialised [material] holds *)
  | CallSetShaderMaterial (materialTag : string) (local : OBJECT_MATERIAL)
  | CallDraw (c : mesh_call)
  (* m_pShaderManager->setBoolValue(g_UseLightingName, b), no NULL test *)
  | WriteLighting (b : bool).

Definition execute (st : statement) (f : Frame) : outcome Frame :=
  match st with
  | AssignScale v =>
      Ok {| engine := engine f; scaleXYZ := v;
            XrotationDegrees := XrotationDegrees f;
            YrotationDegrees := YrotationDegrees f;
            ZrotationDegrees := ZrotationDegrees f;
            positionXYZ := positionXYZ f |}
  | AssignX d =>
      Ok {| engine := engine f; scaleXYZ := scaleXYZ f;
            XrotationDegrees := d;
            YrotationDegrees := YrotationDegrees f;
            ZrotationDegrees := ZrotationDegrees f;
            positionXYZ := positionXYZ f |}
  | AssignY d =>
      Ok {| engine := engine f; scaleXYZ := scaleXYZ f;
            XrotationDegrees := XrotationDegrees f;
            YrotationDegrees := d;
            ZrotationDegrees := ZrotationDegrees f;
            positionXYZ := positionXYZ f |}
  | AssignZ d =>
      Ok {| engine := engine f; scaleXYZ := scaleXYZ f;
            XrotationDegrees := XrotationDegrees f;
            YrotationDegrees := YrotationDegrees f;
            ZrotationDegrees := d;
            positionXYZ := positionXYZ f |}
  | AssignPosition v =>
      Ok {| engine := engine f; scaleXYZ := scaleXYZ f;
            XrotationDegrees := XrotationDegrees f;
            YrotationDegrees := YrotationDegrees f;
            ZrotationDegrees := ZrotationDegrees f;
            positionXYZ := v |}
  | CallSetTransformations =>
      Ok (on_scene (SetTransformations (scaleXYZ f) (XrotationDegrees f)
                      (YrotationDegrees f) (ZrotationDegrees f) (positionXYZ f)) f)
  | CallSetTransformationsAt dx dy dz =>
      Ok (on_scene (SetTransformations (scaleXYZ f) dx dy dz (positionXYZ f)) f)
  | CallSetShaderColor r g b a => Ok (on_scene (SetShaderColor r g b a) f)
  | CallSetShaderTexture textureTag =>
      s ← SetShaderTexture textureTag (scene (engine f));
      Ok (on_scene (fun _ => s) f)
  | CallSetTextureUVScale u v => Ok (on_scene (SetTextureUVScale u v) f)
  | CallSetShaderMaterial materialTag local =>
      s ← SetShaderMaterial materialTag local (scene (engine f));
      Ok (on_scene (fun _ => s) f)
  | CallDraw c => Ok (with_engine (DrawMesh c (engine f)) f)
  | WriteLighting b =>
      match m_pShaderManager (scene (engine f)) with
      | Some sh => Ok (on_scene (with_shader (setBoolValue g_UseLightingName b sh)) f)
      | None => Fault NullDereference
      end
  end.

(* the statements in sequence *)
Fixpoint run (body : list statement) (f : Frame) : outcome Frame :=
  match body with
  | [] => Ok f
  | st :: rest => f' ← execute st f; run rest f'
  end.

(* the draw calls a body issues, and the last lighting write in it *)
Definition calls_of (body : list statement) : list mesh_call :=
  omap (fun st => match st with CallDraw c => Some c | _ => None end) body.

Definition lighting_of (st : statement) : option bool :=
  match st with WriteLighting b => Some b | _ => None end.

(* the mesh calls recorded so far *)
Definition calls_drawn (e : Renderer) : list mesh_call :=
  drawn <$> draw_calls (m_basicMeshes e).

(* the lighting flag each recorded draw was issued under *)
Definition lighting_drawn (e : Renderer) : list (option uniform) :=
  (fun r => sh ← drawn_with r; uniforms sh !! g_UseLightingName)
    <$> draw_calls (m_basicMeshes e).
End Meshes.

(** ** SetupSceneLights, PrepareScene and RenderScene, in single precision *)

Section SceneSetup.
Variable T : Trig binary32.
Variable stbi_load : string -> option stb_image.
Variable gl_fresh : list Z -> Z.

Local Abbreviation lit := Decimal.q.

(* m_pShaderManager is used without a NULL test *)
Definition SetupSceneLights (s : @SceneManager binary32)
  : outcome (@SceneManager binary32) :=
  match m_pShaderManager s with
  | None => Fault NullDereference
  | Some sh =>
      let sh := setBoolValue g_UseLightingName true sh in
      let sh := setVec3Value "pointLights[0].position"
                  (Decimal.vec3 (lit 5 1) (lit 5 1) (lit 0 1)) sh in
      let sh := setVec3Value "pointLights[0].ambient"
                  (Decimal.vec3 (lit 3 10) (lit 3 10) (lit 3 10)) sh in
      let sh := setVec3Value "pointLights[0].diffuse"
                  (Decimal.vec3 (lit 6 10) (lit 6 10) (lit 5 10)) sh in
      let sh := setVec3Value "pointLights[0].specular"
                  (Decimal.vec3 (lit 5 10) (lit 3 10) (lit 0 1)) sh in
      let sh := setBoolValue "pointLights[0].bActive" true sh in
      let sh := setVec3Value "pointLights[1].position"
                  (Decimal.vec3 (lit 4 1) (lit 4 1) (lit (-6) 1)) sh in
      let sh := setVec3Value "pointLights[1].ambient"
                  (Decimal.vec3 (lit 1 10) (lit 1 10) (lit 1 10)) sh in
      let sh := setVec3Value "pointLights[1].diffuse"
                  (Decimal.vec3 (lit 8 10) (lit 8 10) (lit 6 10)) sh in
      let sh := setVec3Value "pointLights[1].specular"
                  (Decimal.vec3 (lit 5 10) (lit 5 10) (lit 4 10)) sh in
      let sh := setBoolValue "pointLights[1].bActive" true sh in
      let sh := setVec3Value "directionalLight.direction"
                  (Decimal.vec3 (lit (-1) 1) (lit (-2) 1) (lit 2 1)) sh in
      let sh := setVec3Value "directionalLight.ambient"
                  (Decimal.vec3 (lit 5 10) (lit 5 10) (lit 5 10)) sh in
      let sh := setVec3Value "directionalLight.diffuse"
                  (Decimal.vec3 (lit 7 10) (lit 7 10) (lit 7 10)) sh in
      let sh := setVec3Value "directionalLight.specular"
                  (Decimal.vec3 (lit 3 10) (lit 3 10) (lit 3 10)) sh in
      let sh := setBoolValue "directionalLight.bActive" true sh in
      Ok (with_shader sh s)
  end.

(* the local bReturn receives the result of LoadTextures and is dropped *)
Definition PrepareScene (e : @Renderer binary32) : outcome (@Renderer binary32) :=
  let s := DefineObjectMaterials (scene e) in
  s ← SetupSceneLights s;
  let e := with_scene s e in
  let e := LoadMesh PlaneMesh e in
  let e := LoadMesh CylinderMesh e in
  let e := LoadMesh ConeMesh e in
  let e := LoadMesh BoxMesh e in
  let e := LoadMesh SphereMesh e in
  r ← LoadTextures stbi_load gl_fresh (scene e);
  s ← BindGLTextures (snd r);
  Ok (with_scene s e).

(* [stack k] is what the uninitialised local of the k-th SetShaderMaterial
   call holds *)
Definition RenderScene_body (stack : nat -> @OBJECT_MATERIAL binary32)
  : list (@statement binary32) :=
  [
    AssignScale (Decimal.vec3 (lit 20 1) (lit 1 1) (lit 10 1));
    AssignX (lit 0 1);
    AssignY (lit 0 1);
    AssignZ (lit 0 1);
    AssignPosition (Decimal.vec3 (lit 0 1) (lit 0 1) (lit 0 1));
    CallSetTransformations;
    CallSetShaderTexture "paver";
    CallSetTextureUVScale (lit 5 1) (lit 5 1);
    CallSetShaderMaterial "stone" (stack 0%nat);
    CallDraw DrawPlaneMesh;

    AssignScale (Decimal.vec3 (lit 16 1) (lit 5 10) (lit 8 1));
    AssignX (lit 0 1);
    AssignY (lit 0 1);
    AssignZ (lit 0 1);
    AssignPosition (Decimal.vec3 (lit (-5) 1) (lit 1 10) (lit 0 1));
    CallSetTransformations;
    CallSetShaderTexture "water";
    CallSetTextureUVScale (lit 1 1) (lit 1 1);
    CallSetShaderMaterial "water" (stack 1%nat);
    CallDraw DrawBoxMesh;

    AssignScale (Decimal.vec3 (lit 20 1) (lit 4 10) (lit 10 1));
    AssignX (lit 0 1);
    AssignY (lit 0 1);
    AssignZ (lit 0 1);
    AssignPosition (Decimal.vec3 (lit (-55) 10) (lit 1 10) (lit 0 1));
    CallSetTransformations;
    CallSetShaderTexture "stone";
    CallSetTextureUVScale (lit 2 1) (lit 4 1);
    CallSetShaderMaterial "stone" (stack 2%nat);
    CallDraw DrawBoxMesh;

    AssignScale (Decimal.vec3 (lit 35 10) (lit 18 10) (lit 35 10));
    AssignX (lit 0 1);
    AssignY (lit 0 1);
    AssignZ (lit 0 1);
    AssignPosition (Decimal.vec3 (lit 5 1) (lit 0 1) (lit 0 1));
    CallSetTransformations;
    CallSetShaderTexture "water";
    CallSetTextureUVScale (lit 1 10) (lit 1 10);
    CallSetShaderMaterial "water" (stack 3%nat);
    CallDraw (DrawCylinderMesh true true false);

    AssignScale (Decimal.vec3 (lit 35 10) (lit 18 10) (lit 35 10));
    AssignX (lit 0 1);
    AssignY (lit 30 1);
    AssignZ (lit 0 1);
    AssignPosition (Decimal.vec3 (lit 5 1) (lit 0 1) (lit 0 1));
    CallSetTransformations;
    CallSetShaderTexture "stone";
    CallSetTextureUVScale (lit 2 1) (lit 4 1);
    CallSetShaderMaterial "stone" (stack 4%nat);
    CallDraw (DrawCylinderMesh false true true);

    AssignScale (Decimal.vec3 (lit 35 10) (lit 3 10) (lit 35 10));
    AssignX (lit 0 1);
    AssignY (lit 0 1);
    AssignZ (lit 180 1);
    AssignPosition (Decimal.vec3 (lit 5 1) (lit 21 10) (lit 0 1));
    CallSetTransformations;
    CallSetShaderTexture "stonetop";
    CallSetShaderMaterial "stone" (stack 5%nat);
    CallDraw (DrawCylinderMesh false false true);

    AssignScale (Decimal.vec3 (lit 351 100) (lit 3 10) (lit 351 100));
    CallDraw (DrawCylinderMesh false false true);

    AssignScale (Decimal.vec3 (lit 1 10) (lit 5 10) (lit 2 1));
    AssignX (lit 0 1);
    AssignY (lit 25 1);
    AssignZ (lit 0 1);
    AssignPosition (Decimal.vec3 (lit 2 1) (lit 15 10) (lit 17 10));
    CallSetTransformations;
    CallSetShaderTexture "water";
    CallSetTextureUVScale (lit 1 10) (lit 1 10);
    CallSetShaderMaterial "water" (stack 6%nat);
    CallDraw DrawBoxMesh;

    AssignScale (Decimal.vec3 (lit 1 10) (lit 15 10) (lit 18 10));
    AssignX (lit 0 1);
    AssignY (lit 25 1);
    AssignZ (lit 0 1);
    AssignPosition (Decimal.vec3 (lit 2 1) (lit 5 10) (lit 17 10));
    CallSetTransformations;
    CallSetShaderTexture "water";
    CallSetTextureUVScale (lit 1 10) (lit 1 100);
    CallSetShaderMaterial "water" (stack 7%nat);
    CallDraw DrawBoxMesh;

    AssignScale (Decimal.vec3 (lit 17 1) (lit 15 10) (lit 1 1));
    AssignX (lit 0 1);
    AssignY (lit 0 1);
    AssignZ (lit 0 1);
    AssignPosition (Decimal.vec3 (lit (-5) 1) (lit 11 10) (lit (-6) 1));
    CallSetTransformations;
    CallSetShaderTexture "paver";
    CallSetShaderMaterial "stone" (stack 8%nat);
    CallSetTextureUVScale (lit 4 1) (lit 2 1);
    CallDraw DrawBoxMesh;

    AssignScale (Decimal.vec3 (lit 8 1) (lit 4 1) (lit 1 1));
    AssignX (lit 0 1);
    AssignY (lit 0 1);
    AssignZ (lit 0 1);
    AssignPosition (Decimal.vec3 (lit 7 1) (lit 11 10) (lit (-6) 1));
    CallSetTransformations;
    CallSetShaderTexture "paver";
    CallSetShaderMaterial "stone" (stack 9%nat);
    CallSetTextureUVScale (lit 4 1) (lit 2 1);
    CallDraw DrawBoxMesh;

    AssignScale (Decimal.vec3 (lit 12 1) (lit 4 1) (lit 1 1));
    AssignX (lit 0 1);
    AssignY (lit 90 1);
    AssignZ (lit 0 1);
    AssignPosition (Decimal.vec3 (lit 11 1) (lit 11 10) (lit (-5) 10));
    CallSetTransformations;
    CallSetShaderTexture "paver";
    CallSetShaderMaterial "stone" (stack 10%nat);
    CallSetTextureUVScale (lit 4 1) (lit 2 1);
    CallDraw DrawBoxMesh;

    AssignScale (Decimal.vec3 (lit 10 1) (lit 1 1) (lit 6 1));
    AssignX (lit 0 1);
    AssignY (lit 90 1);
    AssignZ (lit 0 1);
    AssignPosition (Decimal.vec3 (lit 75 10) (lit 1 10) (lit 0 1));
    CallSetTransformations;
    CallSetShaderTexture "paver";
    CallSetShaderMaterial "stone" (stack 11%nat);
    CallSetTextureUVScale (lit 2 1) (lit 1 1);
    CallDraw DrawBoxMesh;

    WriteLighting false;
    AssignScale (Decimal.vec3 (lit 4 10) (lit 4 10) (lit 4 10));
    AssignPosition (Decimal.vec3 (lit 4 1) (lit 4 1) (lit (-6) 1));
    CallSetTransformations;
    CallSetShaderColor (lit 8 10) (lit 8 10) (lit 7 10) (lit 7 10);
    CallSetShaderMaterial "glass" (stack 12%nat);
    CallDraw DrawSphereMesh;

    WriteLighting false;
    AssignScale (Decimal.vec3 (lit 2 10) (lit 17 10) (lit 2 10));
    AssignPosition (Decimal.vec3 (lit 4 1) (lit 2 1) (lit (-6) 1));
    CallSetTransformationsAt (lit 0 1) (lit 0 1) (lit 0 1);
    CallSetShaderColor (lit 3 10) (lit 3 10) (lit 3 10) (lit 1 1);
    CallDraw (DrawCylinderMesh false false true);

    AssignScale (Decimal.vec3 (lit 1 1) (lit 15 10) (lit 1 1));
    AssignX (lit 0 1);
    AssignY (lit 0 1);
    AssignZ (lit 0 1);
    AssignPosition (Decimal.vec3 (lit 4 1) (lit 4 1) (lit (-6) 1));
    CallSetTransformations;
    CallSetShaderColor (lit 75 100) (lit 75 100) (lit 6 10) (lit 5 10);
    CallSetShaderMaterial "glass" (stack 13%nat);
    CallSetTextureUVScale (lit 4 1) (lit 2 1);
    CallDraw DrawBoxMesh;

    AssignScale (Decimal.vec3 (lit 13 100) (lit 6 1) (lit 13 100));
    AssignPosition (Decimal.vec3 (lit 10 1) (lit 1 10) (lit (-5) 1));
    CallSetTransformationsAt (lit 0 1) (lit 0 1) (lit 0 1);
    CallSetShaderColor (lit 1 10) (lit 1 10) (lit 1 10) (lit 1 1);
    CallSetShaderMaterial "metal" (stack 14%nat);
    CallDraw (DrawCylinderMesh false false true);

    AssignScale (Decimal.vec3 (lit 6 10) (lit 6 10) (lit 6 10));
    AssignPosition (Decimal.vec3 (lit 10 1) (lit 62 10) (lit (-5) 1));
    CallSetTransformationsAt (lit 180 1) (lit 0 1) (lit 0 1);
    CallSetShaderColor (lit 3 10) (lit 3 10) (lit 3 10) (lit 1 1);
    CallSetShaderMaterial "metal" (stack 15%nat);
    CallDraw DrawConeMesh
  ].

(* scaleXYZ and positionXYZ are declared without a value: [scale0] and
   [position0] are what they hold until first assigned *)
Definition RenderScene (stack : nat -> @OBJECT_MATERIAL binary32)
    (scale0 position0 : @vec3 binary32) (e : @Renderer binary32)
  : outcome (@Renderer binary32) :=
  f ← run (T := T) (RenderScene_body stack)
        {| engine := e; scaleXYZ := scale0;
           XrotationDegrees := lit 0 1;
           YrotationDegrees := lit 0 1;
           ZrotationDegrees := lit 0 1;
           positionXYZ := position0 |};
  Ok (engine f).
End SceneSetup.

Section FrameViews.
Context {F : Scalar}.

(* nothing but the shader manager's uniforms differs between [s] and [s'] *)
Definition only_uniforms_differ (s s' : @SceneManager F) : Prop :=
  m_textureIDs s' = m_textureIDs s
  /\ m_loadedTextures s' = m_loadedTextures s
  /\ m_objectMaterials s' = m_objectMaterials s
  /\ gl s' = gl s
  /\ (is_Some (m_pShaderManager s') <-> is_Some (m_pShaderManager s)).

(* the lighting flag in force *)
Definition lighting (s : @SceneManager F) : option uniform :=
  current_uniform s g_UseLightingName.

(* the lighting flag under which each draw of a body is issued, and the flag
   the body leaves, when it starts under [l] *)
Fixpoint lighting_trace (body : list (@statement F)) (l : option uniform)
  : list (option uniform) :=
  match body with
  | [] => []
  | CallDraw _ :: rest => l :: lighting_trace rest l
  | WriteLighting b :: rest => lighting_trace rest (Some (UBool b))
  | _ :: rest => lighting_trace rest l
  end.

Fixpoint lighting_after (body : list (@statement F)) (l : option uniform)
  : option uniform :=
  match body with
  | [] => l
  | WriteLighting b :: rest => lighting_after rest (Some (UBool b))
  | _ :: rest => lighting_after rest l
  end.

(* does a body reach a call through m_pShaderManager that no NULL test
   guards: a lighting write, or the setter calls inside SetShaderMaterial,
   which run only when materials are defined *)
Definition unguarded (materials_defined : bool) (st : @statement F) : bool :=
  match st with
  | WriteLighting _ => true
  | CallSetShaderMaterial _ _ => materials_defined
  | _ => false
  end.

(* the texture flag and the sampler slot in force *)
Definition texturing (s : @SceneManager F) : option uniform * option uniform :=
  (current_uniform s g_UseTextureName, current_uniform s g_TextureValueName).

(* what a statement makes of them, when tags resolve to slots by [slot] *)
Definition texturing_step (slot : string -> Z) (st : @statement F)
    (u : option uniform * option uniform) : option uniform * option uniform :=
  match st with
  | CallSetShaderColor _ _ _ _ => (Some (UInt 0), u.2)
  | CallSetShaderTexture t => (Some (UInt 1), Some (USampler2D (slot t)))
  | _ => u
  end.

(* the flag and slot under which each draw of a body is issued, when the
   body starts under [u] *)
Fixpoint texturing_trace (slot : string -> Z) (body : list (@statement F))
    (u : option uniform * option uniform) : list (option uniform * option uniform) :=
  match body with
  | [] => []
  | CallDraw _ :: rest => u :: texturing_trace slot rest u
  | st :: rest => texturing_trace slot rest (texturing_step slot st u)
  end.

(* the flag and slot each recorded draw was issued under *)
Definition texturing_drawn (e : @Renderer F) : list (option uniform * option uniform) :=
  (fun r => (sh ← drawn_with r; uniforms sh !! g_UseTextureName,
             sh ← drawn_with r; uniforms sh !! g_TextureValueName))
    <$> draw_calls (m_basicMeshes e).

(* a draw is flat-coloured, or it samples the unit of an entry in use, and
   that unit is bound to the handle the entry stores *)
Definition samples_bound_unit (s : @SceneManager F)
    (u : option uniform * option uniform) : Prop :=
  u.1 = Some (UInt 0)
  \/ exists k e, u = (Some (UInt 1), Some (USampler2D k))
                 /\ 0 <= k < m_loadedTextures s
                 /\ m_textureIDs s !! Z.to_nat k = Some e
                 /\ gl_units (gl s) !! k = Some (ID e).

(* the slot a tag resolves to *)
Definition slot_of (s : @SceneManager F) (t : string) : Z :=
  match FindTextureSlot s t with
  | Ok k => k
  | Fault _ => -1
  end.

(* the texture flag and the tag of the sampler for each of the eighteen draws
   of RenderScene: thirteen textured objects, then five flat-coloured ones
   that leave the sampler of the last textured object in place *)
Definition scene_sampling (slot : string -> Z)
  : list (option uniform * option uniform) :=
  ((fun t => (Some (UInt 1), Some (USampler2D (slot t))))
     <$> ["paver"; "water"; "stone"; "water"; "stone"; "stonetop"; "stonetop";
          "water"; "water"; "paver"; "paver"; "paver"; "paver"]%string)
  ++ repeat (Some (UInt 0), Some (USampler2D (slot "paver"))) 5.
End FrameViews.

(* the texture files and tags of LoadTextures, in order *)
Definition texture_files : list (string * string) :=
  [("textures/PavingStones138_1K-JPG_Color.jpg", "moss");
   ("textures/PavingStones142_1K-JPG_Color.jpg", "paver");
   ("textures/Asphalt031_1K-JPG_Color.jpg", "stonetop");
   ("textures/Rocks011_1K-JPG_Color.jpg", "rock");
   ("textures/water.jpg", "water");
   ("textures/stone.jpg", "stone")]%string.

(* the eighteen draw calls of RenderScene, in order *)
Definition scene_draws : list mesh_call :=
  [DrawPlaneMesh; DrawBoxMesh; DrawBoxMesh;
   DrawCylinderMesh true true false; DrawCylinderMesh false true true;
   DrawCylinderMesh false false true; DrawCylinderMesh false false true;
   DrawBoxMesh; DrawBoxMesh; DrawBoxMesh; DrawBoxMesh; DrawBoxMesh; DrawBoxMesh;
   DrawSphereMesh; DrawCylinderMesh false false true; DrawBoxMesh;
   DrawCylinderMesh false false true; DrawConeMesh].

Section Decodable.
Variable stbi_load : string -> option stb_image.

(* every file of a batch decodes to an RGB or RGBA image *)
Definition all_decodable (reqs : list (string * string)) : Prop :=
  forall filename tag0, (filename, tag0) ∈ reqs ->
    exists image, stbi_load filename = Some image
                  /\ (colorChannels image = 3 \/ colorChannels image = 4).
End Decodable.

Section Locals.
Context {F : Scalar}.

(* two statements that differ at most in the content of the uninitialised
   local of a SetShaderMaterial call whose tag is among [defined] *)
Definition same_but_local (defined : list string) (st st' : @statement F) : Prop :=
  match st, st' with
  | CallSetShaderMaterial t _, CallSetShaderMaterial t' _ => t = t' /\ t ∈ defined
  | _, _ => st = st'
  end.
End Locals.

(* the material tags RenderScene asks for *)
Definition scene_materials : list string := ["stone"; "water"; "glass"; "metal"]%string.

(** Further sample states, for the instances of the properties below. *)
Module Fixture.
(* the two sample textures bound to their units *)
Definition two_bound : @SceneManager binary32 :=
  match BindGLTextures Sample.two with
  | Ok s => s
  | Fault _ => Sample.two
  end.

(* the one sample texture after DestroyGLTextures *)
Definition one_destroyed : @SceneManager binary32 :=
  match DestroyGLTextures Sample.fresh Sample.one with
  | Ok s => s
  | Fault _ => Sample.one
  end.

(* the four materials defined, a table of four, and no shader manager *)
Definition headless : @SceneManager binary32 :=
  {| m_pShaderManager := None;
     m_loadedTextures := 0;
     m_textureIDs := repeat {| ID := 0; tag := "" |} 4;
     m_objectMaterials := defined_materials;
     gl := Sample.gl0 |}.

(* the four materials defined on the two sample textures *)
Definition furnished : @SceneManager binary32 := DefineObjectMaterials Sample.two.

(* cosine and sine as at the angle 0 *)
Definition flat : Trig binary32 :=
  @Build_Trig binary32 (fun _ => @num1 binary32) (fun _ => @num0 binary32).

(* a decoder for which every file is a 1x1 RGB image, and one that knows
   textures/stone.jpg only *)
Definition any_rgb (filename : string) : option stb_image := Some (Sample.image 3).

Definition stone_only (filename : string) : option stb_image :=
  if String.eqb filename "textures/stone.jpg" then Some (Sample.image 3) else None.

(* a scene manager with an empty mesh library *)
Definition stage (s : @SceneManager binary32) : @Renderer binary32 :=
  {| scene := s; m_basicMeshes := {| loaded_meshes := []; draw_calls := [] |} |}.

(* two contents of the uninitialised locals of a frame *)
Definition locals (i : nat) : @OBJECT_MATERIAL binary32 := Sample.stale.
Definition other_locals (i : nat) : @OBJECT_MATERIAL binary32 := Sample.glass2.

Definition origin : @vec3 binary32 :=
  Decimal.vec3 (Decimal.q 0 1) (Decimal.q 0 1) (Decimal.q 0 1).

Definition ones : @vec3 binary32 :=
  Decimal.vec3 (Decimal.q 1 1) (Decimal.q 1 1) (Decimal.q 1 1).

(* the setters of one object, applied to the two sample textures: UV scale,
   transform and texture, then colour and material *)
Definition textured : @SceneManager binary32 :=
  match SetShaderTexture "b"
          (SetTransformations (T := flat) ones (Decimal.q 0 1) (Decimal.q 0 1)
             (Decimal.q 0 1) origin
             (SetTextureUVScale (Decimal.q 2 1) (Decimal.q 4 1) furnished)) with
  | Ok s => s
  | Fault _ => furnished
  end.

Definition shaded : @SceneManager binary32 :=
  match SetShaderMaterial "glass" Sample.stale
          (SetShaderColor (Decimal.q 1 1) (Decimal.q 1 1) (Decimal.q 0 1)
             (Decimal.q 1 1) textured) with
  | Ok s => s
  | Fault _ => textured
  end.

(* a third texture registered after the two sample textures were bound *)
Definition late : @SceneManager binary32 :=
  Sample.after [("rgba.png", "sky")]%string two_bound.

(* one texture in a table of four, registered with a driver whose first name
   is 0xFFFFFFFF *)
Definition top_handle : @SceneManager binary32 :=
  match CreateGLTexture Sample.loader (fun _ => 4294967295) "rgb.jpg" "a"
          (Sample.scene 4) with
  | Ok r => snd r
  | Fault _ => Sample.scene 4
  end.
End Fixture.

(** ** The composition in the words of the specification, in any arithmetic

    The homogeneous matrices of the formula
    M = Translate RotateZ RotateY RotateX Scale, written row by row, and the
    row-by-column product, with the entries computed in the arithmetic at
    hand. *)

Module Formula.
Section Matrices.
Context {F : Scalar} {T : Trig F}.

Definition rows (a00 a01 a02 a03 a10 a11 a12 a13
                 a20 a21 a22 a23 a30 a31 a32 a33 : num) : mat4 :=
  Mat4 (Vec4 a00 a10 a20 a30) (Vec4 a01 a11 a21 a31)
       (Vec4 a02 a12 a22 a32) (Vec4 a03 a13 a23 a33).

Definition column (m : mat4) (j : nat) : vec4 :=
  match j with
  | O => col0 m | 1%nat => col1 m | 2%nat => col2 m | _ => col3 m
  end.

Definition coordinate (v : vec4) (i : nat) : num :=
  match i with
  | O => v4x v | 1%nat => v4y v | 2%nat => v4z v | _ => v4w v
  end.

(* the entry in row i, column j *)
Definition entry (m : mat4) (i j : nat) : num := coordinate (column m j) i.

Definition row_by_column (a b : mat4) (i j : nat) : num :=
  nadd (nadd (nadd (nmul (entry a i 0) (entry b 0 j))
                   (nmul (entry a i 1) (entry b 1 j)))
             (nmul (entry a i 2) (entry b 2 j)))
       (nmul (entry a i 3) (entry b 3 j)).

Definition product (a b : mat4) : mat4 :=
  rows (row_by_column a b 0 0) (row_by_column a b 0 1)
       (row_by_column a b 0 2) (row_by_column a b 0 3)
       (row_by_column a b 1 0) (row_by_column a b 1 1)
       (row_by_column a b 1 2) (row_by_column a b 1 3)
       (row_by_column a b 2 0) (row_by_column a b 2 1)
       (row_by_column a b 2 2) (row_by_column a b 2 3)
       (row_by_column a b 3 0) (row_by_column a b 3 1)
       (row_by_column a b 3 2) (row_by_column a b 3 3).

Definition minus (x : num) : num := nsub num0 x.

Definition Translate (p : vec3) : mat4 :=
  rows num1 num0 num0 (v3x p)
       num0 num1 num0 (v3y p)
       num0 num0 num1 (v3z p)
       num0 num0 num0 num1.

Definition Scale (k : vec3) : mat4 :=
  rows (v3x k) num0 num0 num0
       num0 (v3y k) num0 num0
       num0 num0 (v3z k) num0
       num0 num0 num0 num1.

Definition RotateX (a : num) : mat4 :=
  rows num1 num0 num0 num0
       num0 (ncos a) (minus (nsin a)) num0
       num0 (nsin a) (ncos a) num0
       num0 num0 num0 num1.

Definition RotateY (a : num) : mat4 :=
  rows (ncos a) num0 (nsin a) num0
       num0 num1 num0 num0
       (minus (nsin a)) num0 (ncos a) num0
       num0 num0 num0 num1.

Definition RotateZ (a : num) : mat4 :=
  rows (ncos a) (minus (nsin a)) num0 num0
       (nsin a) (ncos a) num0 num0
       num0 num0 num1 num0
       num0 num0 num0 num1.

(* degrees times the constant for pi over 180 *)
Definition degrees_to_radians (d : num) : num := nmul d deg2rad.

Definition model_matrix (scale : vec3) (degreesX degreesY degreesZ : num)
    (position : vec3) : mat4 :=
  product
    (product
       (product
          (product (Translate position) (RotateZ (degrees_to_radians degreesZ)))
          (RotateY (degrees_to_radians degreesY)))
       (RotateX (degrees_to_radians degreesX)))
    (Scale scale).
End Matrices.
End Formula.

(** An arithmetic is exact when it is a commutative ring in which the square
    root of 1 and the quotient of 1 by 1 are 1.  The reals are; single
    precision is not, its results being rounded. *)
Class Exact (F : Scalar) : Prop := {
  exact_add_0_l : forall x : num, nadd num0 x = x;
  exact_add_comm : forall x y : num, nadd x y = nadd y x;
  exact_add_assoc : forall x y z : num, nadd x (nadd y z) = nadd (nadd x y) z;
  exact_mul_1_l : forall x : num, nmul num1 x = x;
  exact_mul_comm : forall x y : num, nmul x y = nmul y x;
  exact_mul_assoc : forall x y z : num, nmul x (nmul y z) = nmul (nmul x y) z;
  exact_distr_l : forall x y z : num,
    nmul (nadd x y) z = nadd (nmul x z) (nmul y z);
  exact_sub_def : forall x y : num, nsub x y = nadd x (nsub num0 y);
  exact_opp_def : forall x : num, nadd x (nsub num0 x) = num0;
  exact_sqrt_one : nsqrt num1 = num1;
  exact_div_one : ndiv num1 num1 = num1
}.

(* the driver keeps the promise of glGenTextures for the next [n] calls after
   [names]: each name it hands out is not in use when it is handed out *)
Definition fresh_for (gl_fresh : list Z -> Z) (names : list Z) (n : nat) : Prop :=
  forall more, (length more < n)%nat ->
    GLuint_wrap (gl_fresh (names ++ more)) ∉ names ++ more.

(** * Properties *)

(** ** Machine integers *)

Lemma GLuint_wrap_range (z : Z) : 0 <= GLuint_wrap z < 2 ^ 32.
Proof. unfold GLuint_wrap. apply Z.mod_pos_bound. lia. Qed.

Lemma GLuint_int_roundtrip (u : Z) :
  0 <= u < 2 ^ 32 -> GLuint_of_int (int_of_GLuint u) = u.
Proof.
  intros Hu. unfold GLuint_of_int, int_of_GLuint.
  destruct (u <? 2 ^ 31) eqn:E.
  - apply Z.mod_small. lia.
  - apply Z.ltb_ge in E.
    replace (u - 2 ^ 32) with (u + (-1) * 2 ^ 32) by lia.
    rewrite Z.mod_add by lia. apply Z.mod_small. lia.
Qed.

Lemma int_of_GLuint_small (u : Z) : u < 2 ^ 31 -> int_of_GLuint u = u.
Proof.
  intros Hu. unfold int_of_GLuint.
  destruct (u <? 2 ^ 31) eqn:E; [reflexivity | apply Z.ltb_ge in E; lia].
Qed.

(** ** Arrays *)

Section ArrayFacts.
Context {A : Type}.
Implicit Types (a : list A) (i : Z).

Lemma array_read_Some a i x :
  0 <= i -> a !! Z.to_nat i = Some x -> array_read a i = Ok x.
Proof.
  intros Hi Hx. unfold array_read, array_in_range.
  apply lookup_lt_Some in Hx as Hlt.
  replace (0 <=? i) with true by (symmetry; apply Z.leb_le; lia).
  replace (i <? Z.of_nat (length a)) with true
    by (symmetry; apply Z.ltb_lt; lia).
  simpl. now rewrite Hx.
Qed.

Lemma array_read_Ok a i x :
  array_read a i = Ok x ->
  0 <= i < Z.of_nat (length a) /\ a !! Z.to_nat i = Some x.
Proof.
  unfold array_read, array_in_range. intros H.
  destruct (0 <=? i) eqn:E1; simpl in H; [| discriminate].
  destruct (i <? Z.of_nat (length a)) eqn:E2; simpl in H; [| discriminate].
  apply Z.leb_le in E1. apply Z.ltb_lt in E2.
  destruct (a !! Z.to_nat i) eqn:E3; [| discriminate].
  injection H as ->. auto.
Qed.

Lemma array_read_outside a i :
  Z.of_nat (length a) <= i -> array_read a i = Fault OutOfBounds.
Proof.
  intros Hi. unfold array_read, array_in_range.
  replace (i <? Z.of_nat (length a)) with false
    by (symmetry; apply Z.ltb_ge; lia).
  now rewrite andb_false_r.
Qed.

Lemma array_modify_Ok a i f a' :
  array_modify a i f = Ok a' ->
  exists x, 0 <= i < Z.of_nat (length a) /\ a !! Z.to_nat i = Some x
            /\ a' = <[Z.to_nat i := f x]> a.
Proof.
  unfold array_modify. intros H.
  destruct (array_read a i) as [x|] eqn:E; simpl in H; [| discriminate].
  injection H as <-. apply array_read_Ok in E as [? ?]. eauto.
Qed.

Lemma array_modify_outside a i f :
  Z.of_nat (length a) <= i -> array_modify a i f = Fault OutOfBounds.
Proof.
  intros Hi. unfold array_modify. now rewrite array_read_outside.
Qed.
End ArrayFacts.

(** ** The lookup loops against the reference scan *)

Lemma first_match_None l tag0 i :
  first_match l tag0 i = None <-> tag0 ∉ tag <$> l.
Proof.
  revert i. induction l as [| e l IH]; intros i; simpl.
  - split; [intros _; apply not_elem_of_nil | reflexivity].
  - destruct (String.eqb (tag e) tag0) eqn:E.
    + apply String.eqb_eq in E. split; [discriminate |].
      intros H. exfalso. apply H. rewrite E. apply list_elem_of_here.
    + apply String.eqb_neq in E. rewrite IH, not_elem_of_cons.
      split; [intros H; split; [congruence | exact H] | intros [_ H]; exact H].
Qed.

Lemma first_match_app_hit l1 e l2 tag0 i :
  tag0 ∉ tag <$> l1 -> tag e = tag0 ->
  first_match (l1 ++ e :: l2) tag0 i = Some (i + Z.of_nat (length l1), e).
Proof.
  revert i. induction l1 as [| x l1 IH]; intros i Hnot He; simpl.
  - rewrite He, String.eqb_refl. do 2 f_equal. lia.
  - simpl in Hnot. apply not_elem_of_cons in Hnot as [Hx Hl1].
    destruct (String.eqb (tag x) tag0) eqn:E.
    { apply String.eqb_eq in E. congruence. }
    rewrite IH by assumption. do 2 f_equal. lia.
Qed.

Lemma take_drop_step {A : Type} (a : list A) (n r : nat) (x : A) :
  a !! n = Some x -> take (S r) (drop n a) = x :: take r (drop (S n) a).
Proof. intros H. now rewrite (drop_S _ _ _ H). Qed.

Lemma FindTextureSlot_from_scan a tag0 r i :
  0 <= i -> (Z.to_nat i + r <= length a)%nat ->
  FindTextureSlot_from a tag0 r i =
    Ok (match first_match (take r (drop (Z.to_nat i) a)) tag0 i with
        | Some (j, _) => j
        | None => -1
        end).
Proof.
  revert i. induction r as [| r IH]; intros i Hi Hlen; simpl.
  - reflexivity.
  - destruct (lookup_lt_is_Some_2 a (Z.to_nat i)) as [e He]; [lia |].
    rewrite (array_read_Some _ _ _ Hi He). simpl.
    rewrite (take_drop_step _ _ _ _ He). simpl.
    destruct (String.eqb (tag e) tag0); [reflexivity |].
    rewrite IH by lia. now replace (Z.to_nat (i + 1)) with (S (Z.to_nat i)) by lia.
Qed.

Lemma FindTextureID_from_scan a tag0 r i :
  0 <= i -> (Z.to_nat i + r <= length a)%nat ->
  FindTextureID_from a tag0 r i =
    Ok (match first_match (take r (drop (Z.to_nat i) a)) tag0 i with
        | Some (_, e) => int_of_GLuint (ID e)
        | None => -1
        end).
Proof.
  revert i. induction r as [| r IH]; intros i Hi Hlen; simpl.
  - reflexivity.
  - destruct (lookup_lt_is_Some_2 a (Z.to_nat i)) as [e He]; [lia |].
    rewrite (array_read_Some _ _ _ Hi He). simpl.
    rewrite (take_drop_step _ _ _ _ He). simpl.
    destruct (String.eqb (tag e) tag0); [reflexivity |].
    rewrite IH by lia. now replace (Z.to_nat (i + 1)) with (S (Z.to_nat i)) by lia.
Qed.

(** ** The texture registry *)

Section TextureFacts.
Context {F : Scalar}.
Variable stbi_load : string -> option stb_image.
Variable gl_fresh : list Z -> Z.
Implicit Types s : @SceneManager F.

Lemma FindTextureSlot_scan s tag0 :
  registry_fits s ->
  FindTextureSlot s tag0 =
    Ok (match first_match (loaded_entries s) tag0 0 with
        | Some (j, _) => j
        | None => -1
        end).
Proof.
  intros [H0 Hn]. unfold FindTextureSlot, loaded_entries.
  rewrite FindTextureSlot_from_scan by (simpl; lia). reflexivity.
Qed.

Lemma FindTextureID_scan s tag0 :
  registry_fits s ->
  FindTextureID s tag0 =
    Ok (match first_match (loaded_entries s) tag0 0 with
        | Some (_, e) => int_of_GLuint (ID e)
        | None => -1
        end).
Proof.
  intros [H0 Hn]. unfold FindTextureID, loaded_entries.
  rewrite FindTextureID_from_scan by (simpl; lia). reflexivity.
Qed.

Lemma find_miss s tag0 :
  registry_fits s -> tag0 ∉ texture_tags s ->
  FindTextureID s tag0 = Ok (-1) /\ FindTextureSlot s tag0 = Ok (-1).
Proof.
  intros Hfit Hnot. apply first_match_None with (i := 0) in Hnot.
  rewrite FindTextureID_scan, FindTextureSlot_scan by assumption.
  now rewrite Hnot.
Qed.

(* what a completed registration did to the object *)
Lemma register_texture_Ok textureID tag0 s s' :
  register_texture textureID tag0 s = Ok s' ->
  0 <= m_loadedTextures s < Z.of_nat (length (m_textureIDs s))
  /\ s' = with_textures (m_loadedTextures s + 1)
            (<[Z.to_nat (m_loadedTextures s) := {| ID := textureID; tag := tag0 |}]>
               (m_textureIDs s)) s.
Proof.
  unfold register_texture. intros H.
  destruct (array_modify (m_textureIDs s) _ _) as [a1|] eqn:E1;
    simpl in H; [| discriminate].
  destruct (array_modify a1 _ _) as [a2|] eqn:E2; simpl in H; [| discriminate].
  injection H as <-.
  apply array_modify_Ok in E1 as (x1 & Hr1 & Hx1 & ->).
  apply array_modify_Ok in E2 as (x2 & Hr2 & Hx2 & ->).
  split; [exact Hr1 |].
  rewrite list_lookup_insert_eq in Hx2 by lia.
  injection Hx2 as <-. simpl.
  now rewrite list_insert_insert_eq.
Qed.

Lemma register_texture_full textureID tag0 s :
  Z.of_nat (length (m_textureIDs s)) <= m_loadedTextures s ->
  register_texture textureID tag0 s = Fault OutOfBounds.
Proof.
  intros H. unfold register_texture. now rewrite array_modify_outside.
Qed.

(* the three ways CreateGLTexture returns *)
Lemma CreateGLTexture_cases filename tag0 s b s' :
  CreateGLTexture stbi_load gl_fresh filename tag0 s = Ok (b, s') ->
  (b = true
   /\ (exists image, stbi_load filename = Some image
         /\ (colorChannels image = 3 \/ colorChannels image = 4))
   /\ 0 <= m_loadedTextures s < Z.of_nat (length (m_textureIDs s))
   /\ m_loadedTextures s' = m_loadedTextures s + 1
   /\ m_textureIDs s' =
        <[Z.to_nat (m_loadedTextures s) :=
            {| ID := fst (glGenTextures gl_fresh (gl s)); tag := tag0 |}]>
          (m_textureIDs s))
  \/ (b = false
      /\ m_loadedTextures s' = m_loadedTextures s
      /\ m_textureIDs s' = m_textureIDs s).
Proof.
  unfold CreateGLTexture. intros H.
  destruct (stbi_load filename) as [image|] eqn:Hload.
  - simpl in H.
    set (g := glTexParameteri _ _ _) in H.
    destruct (colorChannels image =? 3) eqn:E3;
      [| destruct (colorChannels image =? 4) eqn:E4].
    + left. match type of H with (?m ≫= _) = _ => destruct m as [r|] eqn:Er end;
        simpl in H; [| discriminate].
      injection H as <- <-. apply register_texture_Ok in Er as [Hr ->].
      apply Z.eqb_eq in E3. simpl. eauto 10.
    + left. match type of H with (?m ≫= _) = _ => destruct m as [r|] eqn:Er end;
        simpl in H; [| discriminate].
      injection H as <- <-. apply register_texture_Ok in Er as [Hr ->].
      apply Z.eqb_eq in E4. simpl. eauto 10.
    + right. injection H as <- <-. auto.
  - right. injection H as <- <-. auto.
Qed.
End TextureFacts.

Section RegistrationFacts.
Context {F : Scalar}.
Variable stbi_load : string -> option stb_image.
Variable gl_fresh : list Z -> Z.
Implicit Types s : @SceneManager F.

Lemma CreateGLTexture_count filename tag0 s b s' :
  CreateGLTexture stbi_load gl_fresh filename tag0 s = Ok (b, s') ->
  m_loadedTextures s' = m_loadedTextures s + successes [b].
Proof.
  intros H. apply CreateGLTexture_cases in H
    as [(-> & _ & _ & Hn & _) | (-> & Hn & _)]; simpl; lia.
Qed.

(* the count of entries in use is the count of successful registrations *)
Lemma register_all_count history s0 results s :
  register_all stbi_load gl_fresh history s0 = Ok (results, s) ->
  m_loadedTextures s = m_loadedTextures s0 + successes results.
Proof.
  revert s0 results s. induction history as [| [filename tag0] rest IH];
    intros s0 results s H; simpl in H.
  - injection H as <- <-. simpl. lia.
  - destruct (CreateGLTexture _ _ _ _ _) as [[b s1]|] eqn:E1; simpl in H;
      [| discriminate].
    destruct (register_all _ _ _ _) as [[bs s2]|] eqn:E2; simpl in H;
      [| discriminate].
    injection H as <- <-.
    apply CreateGLTexture_count in E1. apply IH in E2.
    simpl in E1. destruct b; simpl; lia.
Qed.

(* a successful registration appends its entry to the entries in use *)
Lemma loaded_entries_register s (e : TEXTURE_INFO) s' :
  0 <= m_loadedTextures s < Z.of_nat (length (m_textureIDs s)) ->
  m_loadedTextures s' = m_loadedTextures s + 1 ->
  m_textureIDs s' = <[Z.to_nat (m_loadedTextures s) := e]> (m_textureIDs s) ->
  loaded_entries s' = loaded_entries s ++ [e].
Proof.
  intros Hr Hn Ha. unfold loaded_entries. rewrite Hn, Ha.
  replace (Z.to_nat (m_loadedTextures s + 1))
    with (S (Z.to_nat (m_loadedTextures s))) by lia.
  rewrite (take_S_r _ _ e) by (apply list_lookup_insert_eq; lia).
  now rewrite take_insert_ge by lia.
Qed.

(** C1. A successful registration of a fresh tag, made after any history of
    registrations on an initially empty registry, is found again:
    FindTextureID returns the handle glGenTextures produced during the call
    (through the GLuint-to-int conversion of its return type, which loses
    nothing and is the identity below 2^31), and FindTextureSlot returns the
    number of successful registrations that came before. *)
Theorem register_then_find history s0 results s filename tag0 s' :
  m_loadedTextures s0 = 0 ->
  register_all stbi_load gl_fresh history s0 = Ok (results, s) ->
  tag0 ∉ texture_tags s ->
  CreateGLTexture stbi_load gl_fresh filename tag0 s = Ok (true, s') ->
  let handle := fst (glGenTextures gl_fresh (gl s)) in
  FindTextureID s' tag0 = Ok (int_of_GLuint handle)
  /\ GLuint_of_int (int_of_GLuint handle) = handle
  /\ (handle < 2 ^ 31 -> FindTextureID s' tag0 = Ok handle)
  /\ FindTextureSlot s' tag0 = Ok (successes results).
Proof.
  intros H0 Hhist Hfresh Hreg handle.
  apply register_all_count in Hhist. rewrite H0 in Hhist. simpl in Hhist.
  apply CreateGLTexture_cases in Hreg
    as [(_ & _ & Hr & Hn & Ha) | (Hb & _)]; [| discriminate].
  assert (Hfit : registry_fits s') by (unfold registry_fits;
    rewrite Hn, Ha, length_insert; lia).
  pose proof (loaded_entries_register s _ s' Hr Hn Ha) as Hent.
  assert (Hlen : Z.of_nat (length (loaded_entries s)) = m_loadedTextures s).
  { unfold loaded_entries. rewrite length_take. lia. }
  assert (Hid : FindTextureID s' tag0 = Ok (int_of_GLuint handle)).
  { rewrite FindTextureID_scan, Hent by assumption.
    now rewrite first_match_app_hit. }
  repeat split.
  - exact Hid.
  - apply GLuint_int_roundtrip. apply GLuint_wrap_range.
  - intros Hsmall. rewrite Hid. now rewrite int_of_GLuint_small.
  - rewrite FindTextureSlot_scan, Hent by assumption.
    rewrite first_match_app_hit by easy. f_equal. lia.
Qed.

(** C4. When the decoded image has a channel count other than 3 and 4,
    CreateGLTexture returns false and leaves the registry as it was: every
    lookup answers as before, so a tag that was not registered is still
    answered with -1 by FindTextureID and FindTextureSlot. *)
Theorem unsupported_channels_not_registered filename tag0 image s :
  stbi_load filename = Some image ->
  colorChannels image <> 3 -> colorChannels image <> 4 ->
  registry_fits s -> tag0 ∉ texture_tags s ->
  exists s',
    CreateGLTexture stbi_load gl_fresh filename tag0 s = Ok (false, s')
    /\ texture_tags s' = texture_tags s
    /\ (forall t, FindTextureID s' t = FindTextureID s t
                  /\ FindTextureSlot s' t = FindTextureSlot s t)
    /\ FindTextureID s' tag0 = Ok (-1)
    /\ FindTextureSlot s' tag0 = Ok (-1).
Proof.
  intros Hload H3 H4 Hfit Hnot.
  destruct (find_miss s tag0 Hfit Hnot) as [Hid Hslot].
  unfold CreateGLTexture. rewrite Hload. simpl.
  apply Z.eqb_neq in H3, H4. rewrite H3, H4.
  eexists. split; [reflexivity |].
  split; [reflexivity |].
  split; [intros t; split; reflexivity |].
  split; [exact Hid | exact Hslot].
Qed.

(* no registration can complete on a full table *)
Lemma CreateGLTexture_full_table filename tag0 image s :
  stbi_load filename = Some image ->
  colorChannels image = 3 \/ colorChannels image = 4 ->
  Z.of_nat (length (m_textureIDs s)) <= m_loadedTextures s ->
  CreateGLTexture stbi_load gl_fresh filename tag0 s = Fault OutOfBounds.
Proof.
  intros Hload Hch Hfull. unfold CreateGLTexture. rewrite Hload. simpl.
  destruct Hch as [-> | ->]; simpl; now rewrite register_texture_full.
Qed.

(** C10. With a shader manager attached and a tag that is not registered,
    SetShaderTexture completes without a fault; afterwards the attached
    shader manager holds 1 (true) in bUseTexture and the lookup's -1 in the
    sampler uniform objectTexture, every other uniform is as before, and so
    is the rest of the scene manager. *)
Theorem SetShaderTexture_unregistered s sh tag0 :
  m_pShaderManager s = Some sh ->
  registry_fits s -> tag0 ∉ texture_tags s ->
  exists s' sh',
    SetShaderTexture tag0 s = Ok s'
    /\ m_pShaderManager s' = Some sh'
    /\ uniforms sh' !! g_UseTextureName = Some (UInt 1)
    /\ uniforms sh' !! g_TextureValueName = Some (USampler2D (-1))
    /\ (forall name, name <> g_UseTextureName -> name <> g_TextureValueName ->
          uniforms sh' !! name = uniforms sh !! name)
    /\ m_loadedTextures s' = m_loadedTextures s
    /\ m_textureIDs s' = m_textureIDs s
    /\ m_objectMaterials s' = m_objectMaterials s
    /\ gl s' = gl s.
Proof.
  intros Hsh Hfit Hnot. unfold SetShaderTexture. rewrite Hsh.
  destruct (find_miss s tag0 Hfit Hnot) as [_ ->].
  cbn [mbind outcome_bind]. eexists _, _. split; [reflexivity |].
  cbn [m_pShaderManager with_shader m_loadedTextures m_textureIDs
       m_objectMaterials gl].
  split; [reflexivity |].
  unfold setSampler2DValue, setIntValue, set_uniform. cbn [uniforms int_of_bool].
  split; [now rewrite lookup_insert_ne, lookup_insert_eq by discriminate |].
  split; [apply lookup_insert_eq |].
  split; [| repeat split].
  intros name Hf Ht. now rewrite !lookup_insert_ne by congruence.
Qed.
End RegistrationFacts.

Section HistoryFacts.
Context {F : Scalar}.
Variable stbi_load : string -> option stb_image.
Variable gl_fresh : list Z -> Z.
Implicit Types s : @SceneManager F.

(* a decodable RGB or RGBA image and room in the table: the call returns true *)
Lemma CreateGLTexture_succeeds filename tag0 image s :
  stbi_load filename = Some image ->
  colorChannels image = 3 \/ colorChannels image = 4 ->
  0 <= m_loadedTextures s < Z.of_nat (length (m_textureIDs s)) ->
  exists s', CreateGLTexture stbi_load gl_fresh filename tag0 s = Ok (true, s').
Proof.
  intros Hload Hch Hroom. unfold CreateGLTexture. rewrite Hload. simpl.
  destruct (lookup_lt_is_Some_2 (m_textureIDs s) (Z.to_nat (m_loadedTextures s)))
    as [e He]; [lia |].
  assert (Hreg : forall id g, exists s',
            register_texture id tag0 (with_gl g s) = Ok s').
  { intros id g. unfold register_texture, array_modify. simpl.
    rewrite (array_read_Some _ _ e) by (assumption || lia). simpl.
    rewrite (array_read_Some _ _ {| ID := id; tag := tag e |})
      by (try lia; apply list_lookup_insert_eq; lia).
    simpl. eauto. }
  destruct Hch as [-> | ->]; simpl;
    match goal with
    | |- context [register_texture ?id tag0 (with_gl ?g s)] =>
        destruct (Hreg id g) as [s' ->]
    end; simpl; eauto.
Qed.

(* an unreadable file: false, and nothing at all changes *)
Lemma CreateGLTexture_unreadable filename tag0 s :
  stbi_load filename = None ->
  CreateGLTexture stbi_load gl_fresh filename tag0 s = Ok (false, s).
Proof. intros Hload. unfold CreateGLTexture. now rewrite Hload. Qed.

(* the unsupported-format return leaves the generated name allocated and
   outside the registry *)
Lemma unsupported_channels_leaks_handle filename tag0 image s s' :
  stbi_load filename = Some image ->
  colorChannels image <> 3 -> colorChannels image <> 4 ->
  CreateGLTexture stbi_load gl_fresh filename tag0 s = Ok (false, s') ->
  gl_live (gl s') (fst (glGenTextures gl_fresh (gl s)))
  /\ loaded_entries s' = loaded_entries s.
Proof.
  intros Hload H3 H4. unfold CreateGLTexture. rewrite Hload. simpl.
  apply Z.eqb_neq in H3, H4. rewrite H3, H4. intros H. injection H as <-.
  split; [| reflexivity].
  unfold gl_live. simpl. apply elem_of_app. right. apply list_elem_of_here.
Qed.

(* the registry after a history: the tags of the successful requests, in
   order, after those it started with *)
Lemma register_all_tags history s0 results s :
  registry_fits s0 ->
  register_all stbi_load gl_fresh history s0 = Ok (results, s) ->
  registry_fits s
  /\ texture_tags s = texture_tags s0 ++ successful_tags history results.
Proof.
  revert s0 results s. induction history as [| [filename tag0] rest IH];
    intros s0 results s Hfit H; simpl in H.
  - injection H as <- <-. simpl. now rewrite app_nil_r.
  - destruct (CreateGLTexture _ _ _ _ _) as [[b s1]|] eqn:E1; simpl in H;
      [| discriminate].
    destruct (register_all _ _ _ _) as [[bs s2]|] eqn:E2; simpl in H;
      [| discriminate].
    injection H as <- <-.
    apply CreateGLTexture_cases in E1
      as [(-> & _ & Hr & Hn & Ha) | (-> & Hn & Ha)].
    + assert (Hfit1 : registry_fits s1)
        by (unfold registry_fits; rewrite Hn, Ha, length_insert; lia).
      destruct (IH _ _ _ Hfit1 E2) as [Hfit2 Htags]. split; [exact Hfit2 |].
      rewrite Htags. unfold texture_tags.
      rewrite (loaded_entries_register s0 _ s1 Hr Hn Ha), fmap_app. simpl.
      now rewrite <- app_assoc.
    + assert (Hfit1 : registry_fits s1)
        by (unfold registry_fits; rewrite Hn, Ha; exact Hfit).
      destruct (IH _ _ _ Hfit1 E2) as [Hfit2 Htags]. split; [exact Hfit2 |].
      rewrite Htags. unfold texture_tags, loaded_entries. now rewrite Hn, Ha.
Qed.

(* a tag that no successful request carried is answered with -1 *)
Lemma never_registered_not_found history s0 results s tag0 :
  m_loadedTextures s0 = 0 ->
  register_all stbi_load gl_fresh history s0 = Ok (results, s) ->
  tag0 ∉ successful_tags history results ->
  FindTextureID s tag0 = Ok (-1) /\ FindTextureSlot s tag0 = Ok (-1).
Proof.
  intros H0 Hhist Hnot.
  assert (Hfit0 : registry_fits s0) by (unfold registry_fits; lia).
  destruct (register_all_tags _ _ _ _ Hfit0 Hhist) as [Hfit Htags].
  apply find_miss; [exact Hfit |].
  rewrite Htags. unfold texture_tags at 1, loaded_entries. rewrite H0. simpl.
  exact Hnot.
Qed.
End HistoryFacts.

(** C1, at a sample: two RGB files registered in a table of four, then an
    RGBA file under the fresh tag "sky"; the driver hands it the name 3 and it
    lands in slot 2. *)
Lemma register_then_find_witness :
  FindTextureID Sample.three "sky" = Ok 3
  /\ FindTextureSlot Sample.three "sky" = Ok 2.
Proof.
  destruct (register_then_find Sample.loader Sample.fresh (Sample.names 2)
              (Sample.scene 4) [true; true] Sample.two "rgba.png" "sky" Sample.three)
    as (Hid & _ & _ & Hslot).
  - reflexivity.
  - reflexivity.
  - not_in_list.
  - reflexivity.
  - split; [exact Hid | exact Hslot].
Defined.

(** C4, at a sample: a one-channel file offered under the tag "fog". *)
Lemma unsupported_channels_not_registered_witness :
  exists s',
    CreateGLTexture Sample.loader Sample.fresh "gray.png" "fog" Sample.two
      = Ok (false, s')
    /\ texture_tags s' = texture_tags Sample.two
    /\ (forall t, FindTextureID s' t = FindTextureID Sample.two t
                  /\ FindTextureSlot s' t = FindTextureSlot Sample.two t)
    /\ FindTextureID s' "fog" = Ok (-1)
    /\ FindTextureSlot s' "fog" = Ok (-1).
Proof.
  apply (unsupported_channels_not_registered Sample.loader Sample.fresh
           "gray.png" "fog" (Sample.image 1) Sample.two).
  - reflexivity.
  - discriminate.
  - discriminate.
  - fits.
  - not_in_list.
Defined.

(** C8. A table of sixteen entries, all in use, and one more readable RGB
    file: CreateGLTexture does not return false; it runs into the write
    m_textureIDs[16], outside the table. *)
Theorem register_beyond_capacity_overruns :
  m_loadedTextures Sample.full = 16
  /\ length (m_textureIDs Sample.full) = 16%nat
  /\ Sample.loader "rgb.jpg" = Some (Sample.image 3)
  /\ CreateGLTexture Sample.loader Sample.fresh "rgb.jpg" "q" Sample.full
     = Fault OutOfBounds.
Proof. repeat split; reflexivity. Qed.

(** C10, at a sample: "fog" on the two registered textures. *)
Lemma SetShaderTexture_unregistered_witness :
  exists s' sh',
    SetShaderTexture "fog" Sample.two = Ok s'
    /\ m_pShaderManager s' = Some sh'
    /\ uniforms sh' !! g_UseTextureName = Some (UInt 1)
    /\ uniforms sh' !! g_TextureValueName = Some (USampler2D (-1))
    /\ (forall name, name <> g_UseTextureName -> name <> g_TextureValueName ->
          uniforms sh' !! name = (∅ : gmap string uniform) !! name)
    /\ m_loadedTextures s' = m_loadedTextures Sample.two
    /\ m_textureIDs s' = m_textureIDs Sample.two
    /\ m_objectMaterials s' = m_objectMaterials Sample.two
    /\ gl s' = gl Sample.two.
Proof.
  apply (SetShaderTexture_unregistered Sample.two {| uniforms := ∅ |} "fog").
  - reflexivity.
  - fits.
  - not_in_list.
Defined.

(** ** The material registry *)

Section MaterialFacts.
Context {F : Scalar}.
Implicit Types (s : @SceneManager F) (m local : @OBJECT_MATERIAL F).


Lemma FindMaterial_scan_miss (l : list OBJECT_MATERIAL) tag0 local :
  tag0 ∉ material_tag <$> l -> FindMaterial_scan l tag0 local = local.
Proof.
  induction l as [| m l IH]; simpl; intros Hnot; [reflexivity |].
  apply not_elem_of_cons in Hnot as [Hm Hl].
  destruct (String.eqb (material_tag m) tag0) eqn:E.
  { apply String.eqb_eq in E. congruence. }
  now apply IH.
Qed.

Lemma FindMaterial_scan_first (pre : list OBJECT_MATERIAL) m rest tag0 local :
  tag0 ∉ material_tag <$> pre -> material_tag m = tag0 ->
  FindMaterial_scan (pre ++ m :: rest) tag0 local = copied_from m local.
Proof.
  induction pre as [| x pre IH]; simpl; intros Hnot Hm.
  - now rewrite Hm, String.eqb_refl.
  - apply not_elem_of_cons in Hnot as [Hx Hpre].
    destruct (String.eqb (material_tag x) tag0) eqn:E.
    { apply String.eqb_eq in E. congruence. }
    now apply IH.
Qed.

Lemma define_all_materials (ms : list OBJECT_MATERIAL) s :
  m_objectMaterials (define_all ms s) = m_objectMaterials s ++ ms.
Proof.
  revert s. induction ms as [| m ms IH]; intros s; simpl.
  - now rewrite app_nil_r.
  - rewrite IH. simpl. now rewrite <- app_assoc.
Qed.

(* FindMaterial's return value says only whether the vector is empty *)
Lemma FindMaterial_returns s tag0 local :
  fst (FindMaterial s tag0 local) = negb (length (m_objectMaterials s) =? 0)%nat.
Proof. unfold FindMaterial. now destruct (_ =? _)%nat. Qed.

(** C6. Define, on a registry that has no entry tagged [tag0], a material
    [first] with that tag, then any others, then [second] with the same tag,
    then any others: FindMaterial copies the diffuse colour, the specular
    colour and the shininess of [first], so wherever [second] differs from
    [first] the result differs from [second]. *)
Theorem FindMaterial_first_definition_wins s tag0 first mid second post local :
  tag0 ∉ material_tags s ->
  material_tag first = tag0 -> material_tag second = tag0 ->
  let s' := define_all (first :: mid ++ second :: post) s in
  let r := FindMaterial s' tag0 local in
  fst r = true
  /\ diffuseColor (snd r) = diffuseColor first
  /\ specularColor (snd r) = specularColor first
  /\ shininess (snd r) = shininess first
  /\ (diffuseColor second <> diffuseColor first ->
      diffuseColor (snd r) <> diffuseColor second)
  /\ (specularColor second <> specularColor first ->
      specularColor (snd r) <> specularColor second)
  /\ (shininess second <> shininess first ->
      shininess (snd r) <> shininess second).
Proof.
  intros Hnot Hfirst Hsecond s' r.
  assert (Hr : r = (true, copied_from first local)).
  { unfold r, FindMaterial, s'. rewrite define_all_materials.
    destruct (length _ =? 0)%nat eqn:E.
    - apply Nat.eqb_eq in E. rewrite length_app in E. simpl in E. lia.
    - now rewrite FindMaterial_scan_first. }
  rewrite Hr. simpl. repeat split; congruence.
Qed.

(* with materials defined and a tag that is none of theirs, the uniforms
   receive whatever the local object held *)
Lemma SetShaderMaterial_miss_writes_local s sh tag0 local :
  m_objectMaterials s <> [] -> tag0 ∉ material_tags s ->
  m_pShaderManager s = Some sh ->
  SetShaderMaterial tag0 local s =
    Ok (with_shader
          (setFloatValue "material.shininess" (shininess local)
             (setVec3Value "material.specularColor" (specularColor local)
                (setVec3Value "material.diffuseColor" (diffuseColor local) sh))) s).
Proof.
  intros Hne Hnot Hsh. unfold SetShaderMaterial, FindMaterial.
  destruct (m_objectMaterials s) as [| m l] eqn:E; [congruence |].
  simpl length. simpl Nat.ltb. simpl Nat.eqb. cbv iota.
  rewrite <- E, FindMaterial_scan_miss by assumption.
  now rewrite Hsh.
Qed.

(* with no material defined, nothing is touched *)
Lemma SetShaderMaterial_empty s tag0 local :
  m_objectMaterials s = [] -> SetShaderMaterial tag0 local s = Ok s.
Proof. intros E. unfold SetShaderMaterial. now rewrite E. Qed.

(* a tag that is found sends the first match's members *)
Lemma SetShaderMaterial_hit s sh pre m rest tag0 local :
  m_objectMaterials s = pre ++ m :: rest ->
  tag0 ∉ material_tag <$> pre -> material_tag m = tag0 ->
  m_pShaderManager s = Some sh ->
  SetShaderMaterial tag0 local s =
    Ok (with_shader
          (setFloatValue "material.shininess" (shininess m)
             (setVec3Value "material.specularColor" (specularColor m)
                (setVec3Value "material.diffuseColor" (diffuseColor m) sh))) s).
Proof.
  intros E Hnot Hm Hsh. unfold SetShaderMaterial, FindMaterial. rewrite E.
  assert (Hlen : length (pre ++ m :: rest) <> 0%nat)
    by (rewrite length_app; simpl; lia).
  destruct (length (pre ++ m :: rest)) as [| n] eqn:El; [congruence |].
  simpl Nat.ltb. simpl Nat.eqb. cbv iota.
  rewrite FindMaterial_scan_first by assumption.
  now rewrite Hsh.
Qed.
End MaterialFacts.

Section MaterialFaults.
Context {F : Scalar}.
Implicit Types (s : @SceneManager F) (local : @OBJECT_MATERIAL F).

(** X28. SetShaderMaterial has no NULL test: with materials defined and no
    shader manager it calls through the null pointer, whatever the tag. *)
Lemma SetShaderMaterial_null_shader s tag0 local :
  m_objectMaterials s <> [] -> m_pShaderManager s = None ->
  SetShaderMaterial tag0 local s = Fault NullDereference.
Proof.
  intros Hne Hsh. unfold SetShaderMaterial, FindMaterial.
  destruct (m_objectMaterials s) as [| m l]; [congruence |].
  simpl. now rewrite Hsh.
Qed.
End MaterialFaults.

(** C6, at a sample: "glass" defined a second time after the four materials
    of DefineObjectMaterials, with other values. *)
Lemma FindMaterial_first_definition_wins_witness :
  let glass1 :=
    {| diffuseColor := Literal.vec Literal.f0_7 Literal.f0_7 Literal.f0_7;
       specularColor := Literal.vec Literal.f0_9 Literal.f0_9 Literal.f0_9;
       shininess := Literal.f80; material_tag := "glass" |} in
  let local :=
    {| diffuseColor := Literal.vec Binary32.zero Binary32.zero Binary32.zero;
       specularColor := Literal.vec Binary32.zero Binary32.zero Binary32.zero;
       shininess := Binary32.zero; material_tag := "" |} in
  let r := FindMaterial (define_all [Sample.glass2] (DefineObjectMaterials (Sample.scene 4)))
             "glass" local in
  fst r = true
  /\ diffuseColor (snd r) = diffuseColor glass1
  /\ specularColor (snd r) = specularColor glass1
  /\ shininess (snd r) = shininess glass1
  /\ diffuseColor (snd r) <> diffuseColor Sample.glass2.
Proof.
  intros glass1 local r.
  destruct (FindMaterial_first_definition_wins
              (define_all (take 2 (m_objectMaterials (DefineObjectMaterials (Sample.scene 4))))
                 (Sample.scene 4))
              "glass" glass1
              (drop 3 (m_objectMaterials (DefineObjectMaterials (Sample.scene 4))))
              Sample.glass2 [] local)
    as (H1 & H2 & H3 & H4 & H5 & _).
  - not_in_list.
  - reflexivity.
  - reflexivity.
  - repeat split; try assumption. apply H5.
    intros H. apply (f_equal v3x) in H. discriminate H.
Defined.

(** C3. The four materials of DefineObjectMaterials are defined and "glass"
    has been sent to the shader.  SetShaderMaterial with the undefined tag
    "wood" completes, and the three material uniforms now hold what its
    uninitialised local held, not the values of "glass". *)
Theorem SetShaderMaterial_unknown_tag_overwrites :
  material_tags Sample.glass_set = ["stone"; "water"; "glass"; "metal"]
  /\ material_uniforms Sample.glass_set =
       Some (Some (UVec3 (Literal.vec Literal.f0_7 Literal.f0_7 Literal.f0_7)),
             Some (UVec3 (Literal.vec Literal.f0_9 Literal.f0_9 Literal.f0_9)),
             Some (UFloat (Literal.f80 : @num binary32)))
  /\ (s' ← SetShaderMaterial "wood" Sample.stale Sample.glass_set;
      Ok (material_uniforms s')) =
       Ok (Some (Some (UVec3 (diffuseColor Sample.stale)),
                 Some (UVec3 (specularColor Sample.stale)),
                 Some (UFloat (shininess Sample.stale))))
  /\ diffuseColor Sample.stale
       <> Literal.vec Literal.f0_7 Literal.f0_7 Literal.f0_7.
Proof.
  repeat split; try reflexivity.
  intros H. apply (f_equal v3x) in H. discriminate H.
Qed.

(** ** DestroyGLTextures *)

Section LoopFacts.
Context {St : Type}.

Lemma for_loop_invariant (P : St -> Prop) (body : Z -> St -> outcome St) :
  (forall i s s', P s -> body i s = Ok s' -> P s') ->
  forall n i s s', P s -> for_loop n i body s = Ok s' -> P s'.
Proof.
  intros Hbody. induction n as [| n IH]; intros i s s' HP H; simpl in H.
  - now injection H as <-.
  - destruct (body i s) as [s1|] eqn:E; simpl in H; [| discriminate].
    eapply IH; [eapply Hbody |]; eassumption.
Qed.
End LoopFacts.

Section DestroyFacts.
Context {F : Scalar}.
Variable gl_fresh : list Z -> Z.
Implicit Types s : @SceneManager F.

(* every name that was live before DestroyGLTextures is live after it *)
Lemma DestroyGLTextures_releases_nothing s s' id :
  DestroyGLTextures gl_fresh s = Ok s' ->
  gl_live (gl s) id -> gl_live (gl s') id.
Proof.
  unfold DestroyGLTextures. intros H Hlive.
  eapply (for_loop_invariant (fun s => gl_live (gl s) id)); [| exact Hlive | exact H].
  clear. intros i s s' Hlive H. simpl in H.
  destruct (array_modify _ _ _) as [a|]; simpl in H; [| discriminate].
  injection H as <-. simpl. unfold gl_live in *. simpl.
  apply elem_of_app. now left.
Qed.

(* only the IDs are overwritten: the count and the tags stay *)
Lemma DestroyGLTextures_keeps_tags s s' :
  DestroyGLTextures gl_fresh s = Ok s' ->
  m_loadedTextures s' = m_loadedTextures s
  /\ tag <$> m_textureIDs s' = tag <$> m_textureIDs s.
Proof.
  unfold DestroyGLTextures. intros H.
  eapply (for_loop_invariant
            (fun s1 => m_loadedTextures s1 = m_loadedTextures s
                       /\ tag <$> m_textureIDs s1 = tag <$> m_textureIDs s));
    [| split; reflexivity | exact H].
  clear. intros i s1 s2 [Hn Ht] H. simpl in H.
  destruct (array_modify _ _ _) as [a|] eqn:E; simpl in H; [| discriminate].
  injection H as <-. simpl. split; [exact Hn |].
  apply array_modify_Ok in E as (e & _ & He & ->).
  rewrite list_fmap_insert. simpl. rewrite <- Ht.
  apply list_insert_id. now rewrite list_lookup_fmap, He.
Qed.
End DestroyFacts.

(** C7. One texture is registered, with handle 1.  After DestroyGLTextures
    the name 1 is still live in the GL context: a second name was generated
    and stored over the entry's ID, and nothing was released. *)
Theorem DestroyGLTextures_generates_instead :
  ID <$> loaded_entries Sample.one = [1]
  /\ gl_names (gl Sample.one) = [1]
  /\ (s' ← DestroyGLTextures Sample.fresh Sample.one;
      Ok (gl_names (gl s'), ID <$> loaded_entries s')) = Ok ([1; 2], [2]).
Proof. repeat split; reflexivity. Qed.

(** ** The transform composer *)

Section CompositionOrder.
Context {F : Scalar} {T : Trig F}.


(* without a shader manager SetTransformations does nothing *)
Lemma SetTransformations_null_shader (k : vec3) (dx dy dz : num) (p : vec3)
    (s : SceneManager) :
  m_pShaderManager s = None -> SetTransformations k dx dy dz p s = s.
Proof. intros Hsh. unfold SetTransformations. now rewrite Hsh. Qed.
End CompositionOrder.

Section IdentityTransform.
Context {F : Scalar} {T : Trig F} {U : UnitExact F T}.

Ltac units :=
  repeat first
    [ rewrite cos_zero | rewrite sin_zero | rewrite radians_zero
    | rewrite sqrt_one | rewrite div_one_one
    | rewrite mul_zero_zero | rewrite mul_zero_one
    | rewrite mul_one_zero | rewrite mul_one_one
    | rewrite add_zero_zero | rewrite add_zero_one | rewrite add_one_zero
    | rewrite sub_zero_zero | rewrite sub_one_one ].

Lemma glm_scale_ones : glm_scale (Vec3 num1 num1 num1) = mat4_diag num1.
Proof.
  unfold glm_scale, glm_scale_m, mat4_diag, vec4_scale. simpl. now units.
Qed.

Lemma glm_translate_zeros : glm_translate (Vec3 num0 num0 num0) = mat4_diag num1.
Proof.
  unfold glm_translate, glm_translate_m, mat4_diag, vec4_scale, vec4_add.
  simpl. now units.
Qed.

Lemma glm_rotate_zero_x :
  glm_rotate (glm_radians num0) (Vec3 num1 num0 num0) = mat4_diag num1.
Proof.
  unfold glm_rotate, glm_rotate_m, glm_radians, glm_normalize, glm_inversesqrt,
    glm_dot, mat4_diag, vec4_scale, vec4_add. simpl. now units.
Qed.

Lemma glm_rotate_zero_y :
  glm_rotate (glm_radians num0) (Vec3 num0 num1 num0) = mat4_diag num1.
Proof.
  unfold glm_rotate, glm_rotate_m, glm_radians, glm_normalize, glm_inversesqrt,
    glm_dot, mat4_diag, vec4_scale, vec4_add. simpl. now units.
Qed.

Lemma glm_rotate_zero_z :
  glm_rotate (glm_radians num0) (Vec3 num0 num0 num1) = mat4_diag num1.
Proof.
  unfold glm_rotate, glm_rotate_m, glm_radians, glm_normalize, glm_inversesqrt,
    glm_dot, mat4_diag, vec4_scale, vec4_add. simpl. now units.
Qed.

Lemma mat4_mul_diag_one : mat4_mul (mat4_diag num1) (mat4_diag num1) = mat4_diag num1.
Proof.
  unfold mat4_mul, mat4_col_mul, mat4_diag, vec4_scale, vec4_add. simpl. now units.
Qed.

(** C9. In any arithmetic in which the listed operations on 0 and 1 are
    exact, the matrix SetTransformations computes from scale (1,1,1),
    rotation (0,0,0) degrees and position (0,0,0) is the identity: 1 on the
    diagonal and 0 elsewhere. *)
Theorem modelView_identity :
  modelView (Vec3 num1 num1 num1) num0 num0 num0 (Vec3 num0 num0 num0)
  = mat4_diag num1.
Proof.
  unfold modelView.
  rewrite glm_scale_ones, glm_translate_zeros,
    glm_rotate_zero_x, glm_rotate_zero_y, glm_rotate_zero_z.
  now rewrite !mat4_mul_diag_one.
Qed.
End IdentityTransform.

(* exact arithmetic satisfies the identities *)
Lemma real_unit_exact : UnitExact real_scalar real_trig.
Proof.
  split; simpl; try lra.
  - apply cos_0.
  - apply sin_0.
  - apply sqrt_1.
Qed.

(* and so does single precision, for any libm with cosf(0) = 1, sinf(0) = 0 *)
Lemma binary32_unit_exact (T : Trig binary32) :
  @ncos binary32 T Binary32.zero = Binary32.one ->
  @nsin binary32 T Binary32.zero = Binary32.zero ->
  UnitExact binary32 T.
Proof. intros Hcos Hsin. split; try reflexivity; assumption. Qed.

(** C9, in exact arithmetic. *)
Lemma modelView_identity_witness :
  @modelView real_scalar real_trig
    (Textbook.vector 1 1 1) 0%R 0%R 0%R (Textbook.vector 0 0 0)
  = Textbook.identity.
Proof.
  exact (@modelView_identity real_scalar real_trig real_unit_exact).
Defined.

Section RealTransform.
Local Open Scope R_scope.
Local Abbreviation V3 := (@Vec3 real_scalar).
Implicit Types (v p k : @vec3 real_scalar) (a b : Textbook.matrix).

Lemma real_normalize_x : @glm_normalize real_scalar (V3 1 0 0) = V3 1 0 0.
Proof.
  unfold glm_normalize, glm_inversesqrt, glm_dot. simpl.
  replace (1 * 1 + 0 * 0 + 0 * 0) with 1 by ring.
  rewrite sqrt_1. f_equal; cbv [num real_scalar]; field.
Qed.

Lemma real_normalize_y : @glm_normalize real_scalar (V3 0 1 0) = V3 0 1 0.
Proof.
  unfold glm_normalize, glm_inversesqrt, glm_dot. simpl.
  replace (0 * 0 + 1 * 1 + 0 * 0) with 1 by ring.
  rewrite sqrt_1. f_equal; cbv [num real_scalar]; field.
Qed.

Lemma real_normalize_z : @glm_normalize real_scalar (V3 0 0 1) = V3 0 0 1.
Proof.
  unfold glm_normalize, glm_inversesqrt, glm_dot. simpl.
  replace (0 * 0 + 0 * 0 + 1 * 1) with 1 by ring.
  rewrite sqrt_1. f_equal; cbv [num real_scalar]; field.
Qed.

Ltac entries :=
  unfold Textbook.rows; f_equal; f_equal; simpl; cbv [num real_scalar]; ring.

Lemma glm_translate_textbook p :
  @glm_translate real_scalar p = Textbook.Translate p.
Proof.
  unfold glm_translate, glm_translate_m, Textbook.Translate, mat4_diag,
    vec4_add, vec4_scale. entries.
Qed.

Lemma glm_scale_textbook k : @glm_scale real_scalar k = Textbook.Scale k.
Proof.
  unfold glm_scale, glm_scale_m, Textbook.Scale, mat4_diag, vec4_scale. entries.
Qed.

Lemma glm_rotate_x_textbook (angle : R) :
  @glm_rotate real_scalar real_trig angle (V3 1 0 0) = Textbook.RotateX angle.
Proof.
  unfold glm_rotate, glm_rotate_m. rewrite real_normalize_x.
  unfold Textbook.RotateX, mat4_diag, vec4_add, vec4_scale. entries.
Qed.

Lemma glm_rotate_y_textbook (angle : R) :
  @glm_rotate real_scalar real_trig angle (V3 0 1 0) = Textbook.RotateY angle.
Proof.
  unfold glm_rotate, glm_rotate_m. rewrite real_normalize_y.
  unfold Textbook.RotateY, mat4_diag, vec4_add, vec4_scale. entries.
Qed.

Lemma glm_rotate_z_textbook (angle : R) :
  @glm_rotate real_scalar real_trig angle (V3 0 0 1) = Textbook.RotateZ angle.
Proof.
  unfold glm_rotate, glm_rotate_m. rewrite real_normalize_z.
  unfold Textbook.RotateZ, mat4_diag, vec4_add, vec4_scale. entries.
Qed.

Lemma glm_radians_textbook (d : R) :
  @glm_radians real_scalar d = Textbook.degrees_to_radians d.
Proof.
  unfold glm_radians, Textbook.degrees_to_radians. simpl.
  cbv [num real_scalar]. field.
Qed.

Lemma mat4_mul_textbook a b : @mat4_mul real_scalar a b = Textbook.product a b.
Proof.
  destruct a as [[] [] [] []], b as [[] [] [] []].
  unfold mat4_mul, mat4_col_mul, vec4_add, vec4_scale, Textbook.product,
    Textbook.row_by_column, Textbook.entry. entries.
Qed.

Lemma modelView_textbook k (dx dy dz : R) p :
  @modelView real_scalar real_trig k dx dy dz p
  = Textbook.model_matrix k dx dy dz p.
Proof.
  unfold modelView, Textbook.model_matrix.
  rewrite glm_scale_textbook, glm_translate_textbook,
    glm_rotate_x_textbook, glm_rotate_y_textbook, glm_rotate_z_textbook,
    !glm_radians_textbook.
  now rewrite !mat4_mul_textbook.
Qed.

End RealTransform.

(** ** The transform composer and the formula *)

Section ProductForm.
Context {F : Scalar} {T : Trig F}.

End ProductForm.

Section ExactComposition.
Context {F : Scalar} {T : Trig F} {E : Exact F}.

Lemma exact_ring_theory :
  ring_theory num0 num1 nadd nmul nsub Formula.minus (@eq num).
Proof.
  constructor.
  - exact exact_add_0_l.
  - exact exact_add_comm.
  - exact exact_add_assoc.
  - exact exact_mul_1_l.
  - exact exact_mul_comm.
  - exact exact_mul_assoc.
  - exact exact_distr_l.
  - exact exact_sub_def.
  - exact exact_opp_def.
Qed.

Add Ring exact_ring : exact_ring_theory.

Ltac entries := unfold Formula.rows; f_equal; f_equal; simpl; ring.









End ExactComposition.

Section ModelMatrix.
Context {F : Scalar} {T : Trig F}.
Implicit Types (s : @SceneManager F).

End ModelMatrix.

(* the reals are an exact arithmetic *)
Lemma real_exact : Exact real_scalar.
Proof.
  split; intros; cbv [num num0 num1 nadd nsub nmul ndiv nsqrt real_scalar];
    try ring; [apply sqrt_1 | field].
Qed.


(** ** The composed matrix on points *)

Section TextbookChecks.
Local Open Scope R_scope.

Ltac expand :=
  cbv beta iota delta
    [Textbook.model_matrix Textbook.product Textbook.row_by_column
     Textbook.entry Textbook.column Textbook.coordinate Textbook.Translate
     Textbook.Scale Textbook.RotateX Textbook.RotateY Textbook.RotateZ
     Textbook.transform Textbook.vector Textbook.rows
     v3x v3y v3z v4x v4y v4z v4w col0 col1 col2 col3].

(* scale, then translate: the vertex (1/2, 0, 0) of the unit cube, scaled by
   (2,1,1) and moved by (3,0,0), lands on (4,0,0) *)
Lemma modelView_scale_then_translate :
  Textbook.transform
    (@modelView real_scalar real_trig
       (Textbook.vector 2 1 1) 0 0 0 (Textbook.vector 3 0 0))
    (Textbook.vector (1 / 2) 0 0)
  = Textbook.vector 4 0 0.
Proof.
  rewrite modelView_textbook.
  unfold Textbook.model_matrix, Textbook.degrees_to_radians.
  replace (0 * PI / 180) with 0 by field.
  expand. rewrite cos_0, sin_0.
  f_equal; cbv [num real_scalar]; field.
Qed.

(* a quarter turn about Y sends (1, 0, 0) to (0, 0, -1) *)
Lemma modelView_quarter_turn_y :
  Textbook.transform
    (@modelView real_scalar real_trig
       (Textbook.vector 1 1 1) 0 90 0 (Textbook.vector 0 0 0))
    (Textbook.vector 1 0 0)
  = Textbook.vector 0 0 (-1).
Proof.
  rewrite modelView_textbook.
  unfold Textbook.model_matrix, Textbook.degrees_to_radians.
  replace (0 * PI / 180) with 0 by field.
  replace (90 * PI / 180) with (PI / 2) by field.
  expand. rewrite cos_0, sin_0, cos_PI2, sin_PI2.
  f_equal; cbv [num real_scalar]; field.
Qed.
End TextbookChecks.

(** ** Further properties of the texture registry *)

Lemma first_match_Some l tag0 i j e :
  first_match l tag0 i = Some (j, e) ->
  i <= j < i + Z.of_nat (length l)
  /\ l !! Z.to_nat (j - i) = Some e
  /\ tag e = tag0
  /\ tag0 ∉ tag <$> take (Z.to_nat (j - i)) l.
Proof.
  revert i. induction l as [| x l IH]; intros i H; simpl in H; [discriminate |].
  destruct (String.eqb (tag x) tag0) eqn:E.
  - injection H as <- <-. apply String.eqb_eq in E.
    replace (i - i) with 0 by lia. simpl.
    repeat split; try lia; try assumption. apply not_elem_of_nil.
  - apply String.eqb_neq in E. apply IH in H as (Hr & Hl & Ht & Hn).
    replace (Z.to_nat (j - i)) with (S (Z.to_nat (j - (i + 1)))) by lia.
    simpl. repeat split; try lia; try assumption.
    apply not_elem_of_cons. split; [congruence | assumption].
Qed.

Lemma first_match_app_l l1 l2 tag0 i r :
  first_match l1 tag0 i = Some r -> first_match (l1 ++ l2) tag0 i = Some r.
Proof.
  revert i. induction l1 as [| x l1 IH]; intros i H; simpl in *; [discriminate |].
  destruct (String.eqb (tag x) tag0); [assumption | now apply IH].
Qed.

Lemma first_match_is_Some l tag0 i :
  tag0 ∈ tag <$> l -> exists r, first_match l tag0 i = Some r.
Proof.
  intros Hin. destruct (first_match l tag0 i) as [r|] eqn:E; [eauto |].
  apply first_match_None in E. contradiction.
Qed.

Section LookupFacts.
Context {F : Scalar}.
Variable stbi_load : string -> option stb_image.
Variable gl_fresh : list Z -> Z.
Implicit Types s : @SceneManager F.

Lemma loaded_entries_lookup s (k : nat) e :
  loaded_entries s !! k = Some e -> m_textureIDs s !! k = Some e.
Proof.
  unfold loaded_entries. intros H.
  apply lookup_take_Some in H. tauto.
Qed.

Lemma loaded_entries_length s :
  registry_fits s -> Z.of_nat (length (loaded_entries s)) = m_loadedTextures s.
Proof. intros [H0 Hn]. unfold loaded_entries. rewrite length_take. lia. Qed.

(** X1. In a registry whose count fits its table FindTextureSlot always
    returns: either -1, exactly when the tag is not registered, or the index
    of an entry in use. *)
Theorem FindTextureSlot_range s tag0 :
  registry_fits s ->
  exists k, FindTextureSlot s tag0 = Ok k
            /\ -1 <= k < m_loadedTextures s
            /\ (k = -1 <-> tag0 ∉ texture_tags s).
Proof.
  intros Hfit. rewrite FindTextureSlot_scan by assumption.
  pose proof (loaded_entries_length s Hfit) as Hlen.
  destruct (first_match (loaded_entries s) tag0 0) as [[j e]|] eqn:E.
  - exists j. pose proof (first_match_Some _ _ _ _ _ E) as (Hr & _ & _ & _).
    split; [reflexivity |]. split; [lia |].
    split; [lia |]. intros Hnot.
    apply (first_match_None _ _ 0) in Hnot. unfold texture_tags in Hnot.
    congruence.
  - exists (-1). destruct Hfit as [H0 Hn]. split; [reflexivity |].
    split; [lia |]. split; [| reflexivity].
    intros _. now apply (first_match_None _ _ 0).
Qed.
End LookupFacts.

Section ShadowFacts.
Context {F : Scalar}.
Variable stbi_load : string -> option stb_image.
Variable gl_fresh : list Z -> Z.
Implicit Types s : @SceneManager F.

(** X2. When FindTextureSlot returns a slot, that slot is the first entry
    carrying the tag, and FindTextureID returns the handle stored in that
    same entry. *)
Theorem FindTextureSlot_and_ID_agree s tag0 k :
  registry_fits s -> FindTextureSlot s tag0 = Ok k -> k <> -1 ->
  exists e,
    m_textureIDs s !! Z.to_nat k = Some e
    /\ 0 <= k < m_loadedTextures s
    /\ tag e = tag0
    /\ FindTextureID s tag0 = Ok (int_of_GLuint (ID e))
    /\ (forall j e', 0 <= j < k -> m_textureIDs s !! Z.to_nat j = Some e' ->
                     tag e' <> tag0).
Proof.
  intros Hfit Hslot Hk.
  rewrite FindTextureSlot_scan in Hslot by assumption.
  rewrite FindTextureID_scan by assumption.
  pose proof (loaded_entries_length s Hfit) as Hlen.
  destruct (first_match (loaded_entries s) tag0 0) as [[j e]|] eqn:E;
    [| congruence].
  injection Hslot as ->.
  apply first_match_Some in E as (Hr & Hl & Ht & Hn).
  replace (k - 0) with k in * by lia.
  exists e. repeat split; try lia; try assumption.
  - now apply loaded_entries_lookup.
  - intros j e' Hj He' Heq. apply Hn.
    apply list_elem_of_fmap. exists e'. split; [now symmetry |].
    apply list_elem_of_lookup. exists (Z.to_nat j).
    apply lookup_take_Some. split; [| lia].
    unfold loaded_entries. apply lookup_take_Some. split; [assumption | lia].
Qed.

(** X3. A call of CreateGLTexture, whatever it returns, never changes what
    the lookups answer for a tag that is already registered; in particular a
    second registration under a registered tag is shadowed by the first. *)
Theorem registered_lookups_stable filename tag0 s b s' t :
  registry_fits s ->
  CreateGLTexture stbi_load gl_fresh filename tag0 s = Ok (b, s') ->
  t ∈ texture_tags s ->
  FindTextureID s' t = FindTextureID s t
  /\ FindTextureSlot s' t = FindTextureSlot s t.
Proof.
  intros Hfit Hreg Hin.
  apply CreateGLTexture_cases in Hreg
    as [(_ & _ & Hr & Hn & Ha) | (_ & Hn & Ha)].
  - assert (Hfit' : registry_fits s')
      by (unfold registry_fits; rewrite Hn, Ha, length_insert; lia).
    rewrite !FindTextureID_scan, !FindTextureSlot_scan by assumption.
    rewrite (loaded_entries_register s _ s' Hr Hn Ha).
    destruct (first_match_is_Some _ _ 0 Hin) as [r Hr'].
    now rewrite (first_match_app_l _ _ _ _ _ Hr'), Hr'.
  - unfold FindTextureID, FindTextureSlot. now rewrite Hn, Ha.
Qed.
End ShadowFacts.

(** X2, at a sample: "b" sits in slot 1 with handle 2. *)
Lemma FindTextureSlot_and_ID_agree_witness :
  exists e,
    m_textureIDs Sample.two !! Z.to_nat 1 = Some e
    /\ 0 <= 1 < m_loadedTextures Sample.two
    /\ tag e = "b"%string
    /\ FindTextureID Sample.two "b" = Ok (int_of_GLuint (ID e))
    /\ (forall j e', 0 <= j < 1 -> m_textureIDs Sample.two !! Z.to_nat j = Some e' ->
                     tag e' <> "b"%string).
Proof.
  apply (FindTextureSlot_and_ID_agree Sample.two "b" 1).
  - fits.
  - reflexivity.
  - discriminate.
Defined.

(** X1, at a sample. *)
Lemma FindTextureSlot_range_witness :
  exists k, FindTextureSlot Sample.two "b" = Ok k
            /\ -1 <= k < m_loadedTextures Sample.two
            /\ (k = -1 <-> "b"%string ∉ texture_tags Sample.two).
Proof. apply (FindTextureSlot_range Sample.two "b"). fits. Defined.

(** X3, at a sample: a second file registered under the tag "a". *)
Lemma registered_lookups_stable_witness :
  FindTextureID (Sample.after [("rgba.png", "a")]%string Sample.two) "a"
    = FindTextureID Sample.two "a"
  /\ FindTextureSlot (Sample.after [("rgba.png", "a")]%string Sample.two) "a"
    = FindTextureSlot Sample.two "a".
Proof.
  apply (registered_lookups_stable Sample.loader Sample.fresh "rgba.png" "a"
           Sample.two true).
  - fits.
  - reflexivity.
  - vm_compute. apply list_elem_of_here.
Defined.

(** ** The sentinel and the int return type *)

Section SentinelFacts.
Context {F : Scalar}.
Implicit Types s : @SceneManager F.

(* the conversion to int sends exactly one GLuint to -1 *)
Lemma int_of_GLuint_sentinel (u : Z) :
  0 <= u < 2 ^ 32 -> (int_of_GLuint u = -1 <-> u = 2 ^ 32 - 1).
Proof.
  intros Hu. unfold int_of_GLuint.
  destruct (u <? 2 ^ 31) eqn:E; [apply Z.ltb_lt in E | apply Z.ltb_ge in E]; lia.
Qed.

(* where the handles are GLuint values: a tag that is not registered is
   answered with -1 by both lookups; FindTextureSlot answers no registered
   tag with -1; FindTextureID answers a registered tag with -1 exactly when
   the handle of the first entry carrying it is 0xFFFFFFFF *)
Lemma sentinel_aliases_only_top_handle s tag0 :
  registry_fits s ->
  (forall e, e ∈ loaded_entries s -> 0 <= ID e < 2 ^ 32) ->
  tag0 ∉ texture_tags s ->
  FindTextureID s tag0 = Ok (-1)
  /\ FindTextureSlot s tag0 = Ok (-1)
  /\ (forall t, t ∈ texture_tags s -> FindTextureSlot s t <> Ok (-1))
  /\ (forall t pre e post,
        loaded_entries s = pre ++ e :: post -> t ∉ tag <$> pre -> tag e = t ->
        (FindTextureID s t = Ok (-1) <-> ID e = 2 ^ 32 - 1)).
Proof.
  intros Hfit Hids Hnot. destruct (find_miss s tag0 Hfit Hnot) as [Hid Hslot].
  split; [exact Hid |]. split; [exact Hslot |]. split.
  - intros t Ht. rewrite FindTextureSlot_scan by assumption.
    destruct (first_match_is_Some (loaded_entries s) t 0 Ht) as [[j e] Hm].
    rewrite Hm. apply first_match_Some in Hm as (Hj & _).
    intros H. injection H as H. lia.
  - intros t pre e post Hsplit Hpre He.
    rewrite FindTextureID_scan by assumption.
    rewrite Hsplit, first_match_app_hit by assumption.
    assert (Hin : e ∈ loaded_entries s).
    { rewrite Hsplit. apply elem_of_app. right. apply list_elem_of_here. }
    rewrite <- (int_of_GLuint_sentinel (ID e) (Hids e Hin)).
    split; [intros H; now injection H | intros ->; reflexivity].
Qed.
End SentinelFacts.

(** C5. One texture registered under the tag "a" by CreateGLTexture, with a
    driver whose glGenTextures hands out the name 0xFFFFFFFF.  FindTextureID
    returns the handle through its int return type: it answers the
    registered tag "a" with -1, the very value it answers the unregistered
    tag "fog" with, so the not-found sentinel aliases a resource id.
    FindTextureSlot tells the two apart. *)
Theorem FindTextureID_sentinel_aliases_handle :
  registry_fits Fixture.top_handle
  /\ loaded_entries Fixture.top_handle = [{| ID := 4294967295; tag := "a" |}]
  /\ ("fog"%string ∉ texture_tags Fixture.top_handle)
  /\ FindTextureID Fixture.top_handle "fog" = Ok (-1)
  /\ FindTextureID Fixture.top_handle "a" = Ok (-1)
  /\ FindTextureSlot Fixture.top_handle "fog" = Ok (-1)
  /\ FindTextureSlot Fixture.top_handle "a" = Ok 0.
Proof.
  split; [fits |]. split; [reflexivity |]. split; [not_in_list |].
  repeat split; reflexivity.
Qed.

(** ** BindGLTextures *)

Section BindFacts.
Context {F : Scalar}.
Implicit Types s : @SceneManager F.

(* the loop of BindGLTextures, from index i for n more entries *)
Lemma bind_loop_spec (n : nat) : forall (i : Z) s,
  0 <= i -> (Z.to_nat i + n <= length (m_textureIDs s))%nat ->
  exists s',
    for_loop n i
      (fun i s =>
         e ← array_read (m_textureIDs s) i;
         Ok (with_gl (glBindTexture (ID e) (glActiveTexture i (gl s))) s)) s
      = Ok s'
    /\ m_textureIDs s' = m_textureIDs s
    /\ m_loadedTextures s' = m_loadedTextures s
    /\ m_objectMaterials s' = m_objectMaterials s
    /\ m_pShaderManager s' = m_pShaderManager s
    /\ gl_names (gl s') = gl_names (gl s)
    /\ gl_objects (gl s') = gl_objects (gl s)
    /\ gl_active (gl s') = (if n is O then gl_active (gl s) else i + Z.of_nat n - 1)
    /\ (forall u, gl_units (gl s') !! u =
                  if decide (i <= u < i + Z.of_nat n)
                  then ID <$> (m_textureIDs s !! Z.to_nat u)
                  else gl_units (gl s) !! u).
Proof.
  induction n as [| n IH]; intros i s Hi Hlen.
  - exists s. simpl. repeat split. intros u. case_decide; [lia | reflexivity].
  - destruct (lookup_lt_is_Some_2 (m_textureIDs s) (Z.to_nat i)) as [e He]; [lia |].
    simpl. rewrite (array_read_Some _ _ _ Hi He). simpl.
    set (s1 := with_gl _ s).
    destruct (IH (i + 1) s1) as (s' & Hrun & Ha & Hn & Hm & Hsh & Hnames & Hobj & Hact & Hu);
      [lia | simpl; lia |].
    exists s'. split; [exact Hrun |].
    repeat split; try assumption.
    + rewrite Hact. destruct n; simpl; lia.
    + intros u. rewrite Hu. simpl.
      repeat case_decide; try lia; try reflexivity.
      * assert (u = i) by lia. subst u.
        rewrite lookup_insert_eq. now rewrite He.
      * rewrite lookup_insert_ne by lia. reflexivity.
Qed.

(** X4. On a registry whose count fits its table BindGLTextures completes; it
    binds to texture unit i the handle stored in entry i, for every entry in
    use, leaves every other unit as it was, and changes neither the registry
    nor the set of GL texture names. *)
Theorem BindGLTextures_binds_each_slot s :
  registry_fits s ->
  exists s',
    BindGLTextures s = Ok s'
    /\ m_textureIDs s' = m_textureIDs s
    /\ m_loadedTextures s' = m_loadedTextures s
    /\ gl_names (gl s') = gl_names (gl s)
    /\ (forall i e, 0 <= i < m_loadedTextures s ->
                    m_textureIDs s !! Z.to_nat i = Some e ->
                    gl_units (gl s') !! i = Some (ID e))
    /\ (forall u, ~ 0 <= u < m_loadedTextures s ->
                  gl_units (gl s') !! u = gl_units (gl s) !! u).
Proof.
  intros [H0 Hn]. unfold BindGLTextures.
  destruct (bind_loop_spec (Z.to_nat (m_loadedTextures s)) 0 s)
    as (s' & Hrun & Ha & Hl & _ & _ & Hnames & _ & _ & Hu); [lia | simpl; lia |].
  exists s'. repeat split; try assumption.
  - intros i e Hi He. rewrite Hu. case_decide; [| lia]. now rewrite He.
  - intros u Hout. rewrite Hu. case_decide; [lia | reflexivity].
Qed.

(** X5. The unit a texture is sampled from holds that texture: after
    BindGLTextures, the slot FindTextureSlot returns for a registered tag is
    a texture unit bound to the very handle FindTextureID returns for it. *)
Theorem bound_unit_holds_found_texture s s' tag0 k :
  registry_fits s -> BindGLTextures s = Ok s' ->
  FindTextureSlot s' tag0 = Ok k -> k <> -1 ->
  exists id, gl_units (gl s') !! k = Some id
             /\ FindTextureID s' tag0 = Ok (int_of_GLuint id).
Proof.
  intros Hfit Hbind Hslot Hk. pose proof Hfit as [H0 Hn].
  unfold BindGLTextures in Hbind.
  destruct (bind_loop_spec (Z.to_nat (m_loadedTextures s)) 0 s)
    as (s1 & Hrun & Ha & Hl & _ & _ & _ & _ & _ & Hu); [lia | simpl; lia |].
  rewrite Hbind in Hrun. injection Hrun as <-.
  assert (Hfit' : registry_fits s') by (unfold registry_fits; now rewrite Ha, Hl).
  rewrite FindTextureSlot_scan in Hslot by assumption.
  rewrite FindTextureID_scan by assumption.
  pose proof (loaded_entries_length s' Hfit') as Hlen.
  destruct (first_match (loaded_entries s') tag0 0) as [[j e]|] eqn:E;
    [| congruence].
  injection Hslot as ->.
  apply first_match_Some in E as (Hr & He & _ & _).
  replace (k - 0) with k in * by lia.
  apply loaded_entries_lookup in He.
  exists (ID e). split; [| reflexivity].
  rewrite Hu. case_decide; [| lia]. now rewrite <- Ha, He.
Qed.
End BindFacts.

Section BindIdempotent.
Context {F : Scalar}.
Implicit Types s : @SceneManager F.

(** X6. BindGLTextures is idempotent: run on its own result, it returns that
    result unchanged. *)
Theorem BindGLTextures_idempotent s s' :
  registry_fits s -> BindGLTextures s = Ok s' -> BindGLTextures s' = Ok s'.
Proof.
  intros [H0 Hn] Hbind. unfold BindGLTextures in *.
  destruct (bind_loop_spec (Z.to_nat (m_loadedTextures s)) 0 s)
    as (s1 & Hrun & Ha & Hl & Hm & Hsh & Hnames & Hobj & Hact & Hu);
    [lia | simpl; lia |].
  rewrite Hbind in Hrun. injection Hrun as <-.
  destruct (bind_loop_spec (Z.to_nat (m_loadedTextures s')) 0 s')
    as (s2 & Hrun2 & Ha2 & Hl2 & Hm2 & Hsh2 & Hnames2 & Hobj2 & Hact2 & Hu2);
    [lia | rewrite Ha, Hl; simpl; lia |].
  rewrite Hrun2. f_equal.
  assert (Hunits : gl_units (gl s2) = gl_units (gl s')).
  { apply map_eq. intros u. rewrite Hu2, Hu, Hl, Ha.
    repeat case_decide; try lia; reflexivity. }
  assert (Hactive : gl_active (gl s2) = gl_active (gl s')).
  { rewrite Hact2, Hact, Hl. destruct (Z.to_nat (m_loadedTextures s)); reflexivity. }
  destruct s2 as [sh2 n2 a2 m2 [names2 obj2 act2 units2]],
           s' as [sh1 n1 a1 m1 [names1 obj1 act1 units1]].
  simpl in *. congruence.
Qed.
End BindIdempotent.

(** X4, at a sample: the two registered textures. *)
Lemma BindGLTextures_binds_each_slot_witness :
  exists s',
    BindGLTextures Sample.two = Ok s'
    /\ m_textureIDs s' = m_textureIDs Sample.two
    /\ m_loadedTextures s' = m_loadedTextures Sample.two
    /\ gl_names (gl s') = gl_names (gl Sample.two)
    /\ (forall i e, 0 <= i < m_loadedTextures Sample.two ->
                    m_textureIDs Sample.two !! Z.to_nat i = Some e ->
                    gl_units (gl s') !! i = Some (ID e))
    /\ (forall u, ~ 0 <= u < m_loadedTextures Sample.two ->
                  gl_units (gl s') !! u = gl_units (gl Sample.two) !! u).
Proof. apply (BindGLTextures_binds_each_slot Sample.two). fits. Defined.

(** X5, at a sample: "b" is sampled from unit 1, which holds handle 2. *)
Lemma bound_unit_holds_found_texture_witness :
  exists id, gl_units (gl Fixture.two_bound) !! 1 = Some id
             /\ FindTextureID Fixture.two_bound "b" = Ok (int_of_GLuint id).
Proof.
  apply (bound_unit_holds_found_texture Sample.two Fixture.two_bound "b" 1).
  - fits.
  - reflexivity.
  - reflexivity.
  - discriminate.
Defined.

(** X6, at a sample. *)
Lemma BindGLTextures_idempotent_witness :
  BindGLTextures Fixture.two_bound = Ok Fixture.two_bound.
Proof.
  apply (BindGLTextures_idempotent Sample.two Fixture.two_bound).
  - fits.
  - reflexivity.
Defined.

(** ** DestroyGLTextures, in full *)

Section DestroyLoop.
Context {F : Scalar}.
Variable gl_fresh : list Z -> Z.
Implicit Types s : @SceneManager F.

(* the loop of DestroyGLTextures, from index i for n more entries *)
Lemma destroy_loop_spec (n : nat) : forall (i : Z) s,
  0 <= i -> (Z.to_nat i + n <= length (m_textureIDs s))%nat ->
  exists s' more,
    for_loop n i
      (fun i s =>
         let '(id, g) := glGenTextures gl_fresh (gl s) in
         a ← array_modify (m_textureIDs s) i (fun e => {| ID := id; tag := tag e |});
         Ok (with_gl g (with_textures (m_loadedTextures s) a s))) s
      = Ok s'
    /\ m_loadedTextures s' = m_loadedTextures s
    /\ length (m_textureIDs s') = length (m_textureIDs s)
    /\ gl_names (gl s') = gl_names (gl s) ++ more
    /\ length more = n
    /\ (forall k : nat, (k < n)%nat ->
          exists e', m_textureIDs s' !! (Z.to_nat i + k)%nat = Some e'
                     /\ more !! k = Some (ID e'))
    /\ (forall j : nat, ~ (Z.to_nat i <= j < Z.to_nat i + n)%nat ->
          m_textureIDs s' !! j = m_textureIDs s !! j)
    /\ (fresh_for gl_fresh (gl_names (gl s)) n ->
        NoDup more /\ forall id, id ∈ more -> id ∉ gl_names (gl s)).
Proof.
  induction n as [| n IH]; intros i s Hi Hlen.
  - exists s, []. simpl. rewrite app_nil_r.
    split; [reflexivity |]. split; [reflexivity |]. split; [reflexivity |].
    split; [reflexivity |]. split; [reflexivity |].
    split; [intros k Hk; lia |]. split; [reflexivity |].
    intros _. split; [constructor | intros id Hid; now apply elem_of_nil in Hid].
  - destruct (lookup_lt_is_Some_2 (m_textureIDs s) (Z.to_nat i)) as [e He]; [lia |].
    simpl. unfold array_modify. rewrite (array_read_Some _ _ _ Hi He). simpl.
    set (id := GLuint_wrap _). set (s1 := with_gl _ _).
    destruct (IH (i + 1) s1)
      as (s' & more & Hrun & Hl & Hlen' & Hnames & Hmore & Hin & Hout & Hfresh);
      [lia | simpl; rewrite length_insert; lia |].
    exists s', (id :: more). split; [exact Hrun |].
    simpl in Hl, Hlen', Hnames, Hout, Hfresh. rewrite length_insert in Hlen'.
    replace (Z.to_nat (i + 1)) with (S (Z.to_nat i)) in * by lia.
    split; [exact Hl |]. split; [exact Hlen' |].
    split; [rewrite Hnames, <- app_assoc; reflexivity |].
    split; [simpl; now rewrite Hmore |].
    split; [| split].
    + intros [| k] Hk.
      * rewrite Nat.add_0_r, Hout by lia.
        rewrite list_lookup_insert_eq by lia.
        eexists. split; reflexivity.
      * destruct (Hin k) as (e' & He' & Hid); [lia |].
        exists e'. split; [| exact Hid].
        replace (Z.to_nat i + S k)%nat with (S (Z.to_nat i) + k)%nat by lia.
        exact He'.
    + intros j Hj. rewrite Hout by lia. apply list_lookup_insert_ne. lia.
    + intros Hf.
      assert (Hid : id ∉ gl_names (gl s)).
      { specialize (Hf [] ltac:(simpl; lia)). now rewrite !app_nil_r in Hf. }
      destruct Hfresh as [Hnd Hnew].
      { intros more' Hlt. specialize (Hf (id :: more') ltac:(simpl; lia)).
        now rewrite <- !app_assoc. }
      split.
      * constructor; [| exact Hnd].
        intros Hin'. apply (Hnew id Hin'). apply elem_of_app. right.
        apply list_elem_of_here.
      * intros x Hx. apply elem_of_cons in Hx as [-> | Hx]; [exact Hid |].
        intros Hold. apply (Hnew x Hx). apply elem_of_app. now left.
Qed.

(* the slot lookup reads nothing but the tags *)
Lemma FindTextureSlot_from_tags (a a' : list TEXTURE_INFO) tag0 (r : nat) :
  tag <$> a = tag <$> a' ->
  forall i, FindTextureSlot_from a tag0 r i = FindTextureSlot_from a' tag0 r i.
Proof.
  intros Htags. assert (Hlen : length a = length a').
  { rewrite <- (length_fmap tag a), Htags. apply length_fmap. }
  induction r as [| r IH]; intros i; simpl; [reflexivity |].
  unfold array_read, array_in_range. rewrite Hlen.
  destruct ((0 <=? i) && (i <? Z.of_nat (length a'))); [| reflexivity].
  pose proof (f_equal (fun l => l !! Z.to_nat i) Htags) as Hi.
  simpl in Hi. rewrite !list_lookup_fmap in Hi.
  destruct (a !! Z.to_nat i) as [e|], (a' !! Z.to_nat i) as [e'|];
    simpl in *; try discriminate; [| reflexivity].
  injection Hi as ->. destruct (String.eqb (tag e') tag0); [reflexivity | apply IH].
Qed.

(** X7. With a driver that hands out only names not in use, as glGenTextures
    promises, DestroyGLTextures on a registry whose count fits its table
    completes and frees nothing: the GL context keeps every texture name it
    had and gains one name per registered texture, each different from every
    name it had and from the others, and the entries in use now store exactly
    these new names, in order.  So every name that was in use before the call
    is still allocated, and no entry refers to it. *)
Theorem DestroyGLTextures_orphans_handles s :
  registry_fits s ->
  fresh_for gl_fresh (gl_names (gl s)) (Z.to_nat (m_loadedTextures s)) ->
  exists s' more,
    DestroyGLTextures gl_fresh s = Ok s'
    /\ gl_names (gl s') = gl_names (gl s) ++ more
    /\ ID <$> loaded_entries s' = more
    /\ NoDup more
    /\ (forall id, id ∈ more -> id ∉ gl_names (gl s)).
Proof.
  intros [H0 Hn] Hf. unfold DestroyGLTextures.
  destruct (destroy_loop_spec (Z.to_nat (m_loadedTextures s)) 0 s)
    as (s' & more & Hrun & Hl & Hlen & Hnames & Hmore & Hin & _ & Hfresh);
    [lia | simpl; lia |].
  destruct (Hfresh Hf) as [Hnd Hnew].
  exists s', more. split; [exact Hrun |]. split; [exact Hnames |].
  split; [| split; assumption].
  apply list_eq. intros k. rewrite list_lookup_fmap.
  unfold loaded_entries. rewrite Hl.
  destruct (decide (k < Z.to_nat (m_loadedTextures s))%nat) as [Hk | Hk].
  - destruct (Hin k Hk) as (e' & He' & Hid). simpl in He'.
    rewrite lookup_take_lt by exact Hk. rewrite He'. simpl. now rewrite Hid.
  - rewrite lookup_take_ge by lia. simpl. symmetry.
    apply lookup_ge_None. lia.
Qed.

(** X8. DestroyGLTextures leaves the registry usable by tag: the count and
    the tags stay, so FindTextureSlot answers every tag as before. *)
Theorem DestroyGLTextures_slots_survive s s' tag0 :
  DestroyGLTextures gl_fresh s = Ok s' ->
  m_loadedTextures s' = m_loadedTextures s
  /\ texture_tags s' = texture_tags s
  /\ FindTextureSlot s' tag0 = FindTextureSlot s tag0.
Proof.
  intros H. apply DestroyGLTextures_keeps_tags in H as [Hn Ht].
  repeat split; [exact Hn | |].
  - unfold texture_tags, loaded_entries. rewrite Hn, !fmap_take. now rewrite Ht.
  - unfold FindTextureSlot. rewrite Hn. now apply FindTextureSlot_from_tags.
Qed.
End DestroyLoop.

(** ** Further properties of the material registry *)

Section MaterialMore.
Context {F : Scalar}.
Implicit Types (s : @SceneManager F) (m local : @OBJECT_MATERIAL F).

Lemma FindMaterial_scan_app_hit (l l' : list OBJECT_MATERIAL) tag0 local :
  tag0 ∈ material_tag <$> l ->
  FindMaterial_scan (l ++ l') tag0 local = FindMaterial_scan l tag0 local.
Proof.
  induction l as [| m l IH]; simpl; intros Hin.
  - now apply elem_of_nil in Hin.
  - destruct (String.eqb (material_tag m) tag0) eqn:E; [reflexivity |].
    apply String.eqb_neq in E. apply elem_of_cons in Hin as [Heq | Hin];
      [congruence | now apply IH].
Qed.

Lemma FindMaterial_scan_app_miss (l l' : list OBJECT_MATERIAL) tag0 local :
  tag0 ∉ material_tag <$> l ->
  FindMaterial_scan (l ++ l') tag0 local = FindMaterial_scan l' tag0 local.
Proof.
  induction l as [| m l IH]; simpl; intros Hnot; [reflexivity |].
  apply not_elem_of_cons in Hnot as [Hm Hl].
  destruct (String.eqb (material_tag m) tag0) eqn:E.
  { apply String.eqb_eq in E. congruence. }
  now apply IH.
Qed.

(** X9. A miss is not reported: for a tag that no defined material carries,
    FindMaterial returns true whenever the registry is not empty, and hands
    the caller's object back untouched. *)
Theorem FindMaterial_miss_returns_true s tag0 local :
  m_objectMaterials s <> [] -> tag0 ∉ material_tags s ->
  FindMaterial s tag0 local = (true, local).
Proof.
  intros Hne Hnot. unfold FindMaterial.
  destruct (m_objectMaterials s) as [| m l] eqn:E; [congruence |].
  simpl length. simpl Nat.eqb. cbv iota.
  rewrite <- E. now rewrite FindMaterial_scan_miss.
Qed.

(** X10. Materials defined later never change what an already defined tag
    resolves to: after any further push_backs FindMaterial answers that tag
    exactly as before. *)
Theorem later_definitions_do_not_shadow s (ms : list OBJECT_MATERIAL) tag0 local :
  tag0 ∈ material_tags s ->
  FindMaterial (define_all ms s) tag0 local = FindMaterial s tag0 local.
Proof.
  intros Hin. unfold FindMaterial. rewrite define_all_materials.
  destruct (m_objectMaterials s) as [| m l] eqn:E.
  { unfold material_tags in Hin. rewrite E in Hin. now apply elem_of_nil in Hin. }
  rewrite <- E. rewrite FindMaterial_scan_app_hit by exact Hin.
  rewrite E. simpl. reflexivity.
Qed.
End MaterialMore.

Lemma DefineObjectMaterials_appends (s : @SceneManager binary32) :
  m_objectMaterials (DefineObjectMaterials s)
  = m_objectMaterials s ++ defined_materials.
Proof.
  unfold DefineObjectMaterials, push_back_material. simpl.
  now rewrite <- !app_assoc.
Qed.

(** X11. Running DefineObjectMaterials a second time changes no lookup: the
    four appended copies are shadowed by the first four. *)
Theorem DefineObjectMaterials_twice (s : @SceneManager binary32) tag0 local :
  FindMaterial (DefineObjectMaterials (DefineObjectMaterials s)) tag0 local
  = FindMaterial (DefineObjectMaterials s) tag0 local.
Proof.
  unfold FindMaterial. rewrite !DefineObjectMaterials_appends.
  set (l := m_objectMaterials s ++ defined_materials).
  assert (Hl : length l <> 0%nat) by (unfold l; rewrite length_app; simpl; lia).
  assert (Hl2 : length (l ++ defined_materials) <> 0%nat)
    by (rewrite length_app; lia).
  destruct (length l) eqn:E1; [congruence |].
  destruct (length (l ++ defined_materials)) eqn:E2; [congruence |].
  simpl. f_equal.
  destruct (decide (tag0 ∈ material_tag <$> l)) as [Hin | Hnot].
  - now apply FindMaterial_scan_app_hit.
  - rewrite FindMaterial_scan_app_miss by exact Hnot.
    rewrite (FindMaterial_scan_miss l) by exact Hnot.
    apply FindMaterial_scan_miss. intros Hin. apply Hnot.
    unfold l. rewrite fmap_app. apply elem_of_app. now right.
Qed.

(** ** The shader setters together *)

Section SetterFacts.
Context {F : Scalar} {T : Trig F}.
Implicit Types (s : @SceneManager F) (name : string).

(* reads a uniform back through a stack of stores *)
Ltac stored :=
  unfold current_uniform, setBoolValue, setIntValue, setSampler2DValue,
    setFloatValue, setVec2Value, setVec3Value, setVec4Value, setMat4Value,
    set_uniform; simpl;
  repeat first [ rewrite lookup_insert_eq
               | rewrite lookup_insert_ne by discriminate ];
  try reflexivity.

Lemma current_uniform_with_shader s (sh : ShaderManager) name :
  current_uniform (with_shader sh s) name = uniforms sh !! name.
Proof. reflexivity. Qed.

Lemma SetTransformations_frame k dx dy dz p s name :
  name <> g_ModelName ->
  current_uniform (SetTransformations k dx dy dz p s) name = current_uniform s name.
Proof.
  intros Hne. unfold SetTransformations, current_uniform.
  destruct (m_pShaderManager s) as [sh|] eqn:E; [| now rewrite E].
  simpl. now rewrite lookup_insert_ne.
Qed.

Lemma SetShaderColor_frame r g b a s name :
  name <> g_UseTextureName -> name <> g_ColorValueName ->
  current_uniform (SetShaderColor r g b a s) name = current_uniform s name.
Proof.
  intros H1 H2. unfold SetShaderColor, current_uniform.
  destruct (m_pShaderManager s) as [sh|] eqn:E; [| now rewrite E].
  simpl. now rewrite !lookup_insert_ne.
Qed.

Lemma SetTextureUVScale_frame u v s name :
  name <> "UVscale"%string ->
  current_uniform (SetTextureUVScale u v s) name = current_uniform s name.
Proof.
  intros Hne. unfold SetTextureUVScale, current_uniform.
  destruct (m_pShaderManager s) as [sh|] eqn:E; [| now rewrite E].
  simpl. now rewrite lookup_insert_ne.
Qed.

Lemma SetShaderTexture_frame tag0 s s' name :
  SetShaderTexture tag0 s = Ok s' ->
  name <> g_UseTextureName -> name <> g_TextureValueName ->
  current_uniform s' name = current_uniform s name.
Proof.
  unfold SetShaderTexture, current_uniform. intros H H1 H2.
  destruct (m_pShaderManager s) as [sh|] eqn:Hsh.
  - destruct (FindTextureSlot s tag0) as [k|]; simpl in H; [| discriminate].
    injection H as <-. simpl. now rewrite !lookup_insert_ne.
  - injection H as <-. now rewrite Hsh.
Qed.

Lemma SetShaderMaterial_frame tag0 local s s' name :
  SetShaderMaterial tag0 local s = Ok s' ->
  name <> "material.diffuseColor"%string ->
  name <> "material.specularColor"%string ->
  name <> "material.shininess"%string ->
  current_uniform s' name = current_uniform s name.
Proof.
  unfold SetShaderMaterial, current_uniform. intros H H1 H2 H3.
  destruct (0 <? length (m_objectMaterials s))%nat; [| now injection H as <-].
  destruct (FindMaterial s tag0 local) as [[] material]; [| now injection H as <-].
  destruct (m_pShaderManager s) as [sh|]; [| discriminate].
  injection H as <-. simpl. now rewrite !lookup_insert_ne.
Qed.

(* what the setters leave alone in the object *)
Lemma SetShaderTexture_registry tag0 s s' :
  SetShaderTexture tag0 s = Ok s' ->
  m_textureIDs s' = m_textureIDs s /\ m_loadedTextures s' = m_loadedTextures s
  /\ m_objectMaterials s' = m_objectMaterials s /\ gl s' = gl s
  /\ (is_Some (m_pShaderManager s') <-> is_Some (m_pShaderManager s)).
Proof.
  unfold SetShaderTexture. intros H.
  destruct (m_pShaderManager s) as [sh|] eqn:Hsh.
  - destruct (FindTextureSlot s tag0) as [k|]; simpl in H; [| discriminate].
    injection H as <-. simpl. repeat split; eauto.
  - injection H as <-. rewrite Hsh. repeat split; auto.
Qed.

Lemma SetShaderMaterial_registry tag0 local s s' :
  SetShaderMaterial tag0 local s = Ok s' ->
  m_textureIDs s' = m_textureIDs s /\ m_loadedTextures s' = m_loadedTextures s
  /\ m_objectMaterials s' = m_objectMaterials s /\ gl s' = gl s
  /\ (is_Some (m_pShaderManager s') <-> is_Some (m_pShaderManager s)).
Proof.
  unfold SetShaderMaterial. intros H.
  destruct (0 <? length (m_objectMaterials s))%nat;
    [| injection H as <-; repeat split; auto].
  destruct (FindMaterial s tag0 local) as [[] material];
    [| injection H as <-; repeat split; auto].
  destruct (m_pShaderManager s) as [sh|] eqn:Hsh; [| discriminate].
  injection H as <-. simpl. repeat split; eauto.
Qed.

(** X12. For a registered tag, with a shader manager attached,
    SetShaderTexture completes; afterwards the attached shader manager holds
    1 in bUseTexture and, in the sampler uniform objectTexture, the position
    of the first entry carrying the tag; every other uniform is as before,
    and so is the rest of the scene manager. *)
Theorem SetShaderTexture_registered s sh tag0 (pre post : list string) :
  m_pShaderManager s = Some sh -> registry_fits s ->
  texture_tags s = pre ++ tag0 :: post -> tag0 ∉ pre ->
  exists s' sh',
    SetShaderTexture tag0 s = Ok s'
    /\ m_pShaderManager s' = Some sh'
    /\ uniforms sh' !! g_UseTextureName = Some (UInt 1)
    /\ uniforms sh' !! g_TextureValueName
       = Some (USampler2D (Z.of_nat (length pre)))
    /\ (forall name, name <> g_UseTextureName -> name <> g_TextureValueName ->
          uniforms sh' !! name = uniforms sh !! name)
    /\ m_loadedTextures s' = m_loadedTextures s
    /\ m_textureIDs s' = m_textureIDs s
    /\ m_objectMaterials s' = m_objectMaterials s
    /\ gl s' = gl s.
Proof.
  intros Hsh Hfit Htags Hnot. unfold SetShaderTexture. rewrite Hsh.
  rewrite FindTextureSlot_scan by assumption.
  unfold texture_tags in Htags.
  apply fmap_app_inv in Htags as (l1 & l2 & Hpre & Hrest & ->).
  symmetry in Hrest. apply fmap_cons_inv in Hrest as (e & l3 & He & Hl3 & ->).
  subst pre. rewrite first_match_app_hit by auto.
  cbn [mbind outcome_bind]. eexists _, _. split; [reflexivity |].
  cbn [m_pShaderManager with_shader m_loadedTextures m_textureIDs
       m_objectMaterials gl].
  split; [reflexivity |].
  unfold setSampler2DValue, setIntValue, set_uniform. cbn [uniforms int_of_bool].
  split; [now rewrite lookup_insert_ne, lookup_insert_eq by discriminate |].
  split; [rewrite lookup_insert_eq, length_fmap; do 2 f_equal; lia |].
  split; [| repeat split].
  intros name Hf Ht. now rewrite !lookup_insert_ne by congruence.
Qed.

(** X13. Flat colour and texture exclude each other through the one flag
    bUseTexture, and the last call decides: SetShaderTexture after
    SetShaderColor leaves the flag at 1 with the colour still stored, and
    SetShaderColor after SetShaderTexture leaves it at 0 with the sampler
    slot still stored. *)
Theorem color_and_texture_last_call_wins s sh tag0 r g b a k :
  m_pShaderManager s = Some sh -> FindTextureSlot s tag0 = Ok k ->
  (exists s1, SetShaderTexture tag0 (SetShaderColor r g b a s) = Ok s1
              /\ current_uniform s1 g_UseTextureName = Some (UInt 1)
              /\ current_uniform s1 g_ColorValueName = Some (UVec4 (Vec4 r g b a)))
  /\ (exists s1, SetShaderTexture tag0 s = Ok s1
                 /\ current_uniform (SetShaderColor r g b a s1) g_UseTextureName
                    = Some (UInt 0)
                 /\ current_uniform (SetShaderColor r g b a s1) g_TextureValueName
                    = Some (USampler2D k)).
Proof.
  intros Hsh Hk. split.
  - unfold SetShaderTexture, SetShaderColor. rewrite Hsh. simpl.
    change (FindTextureSlot (with_shader _ s) tag0) with (FindTextureSlot s tag0).
    rewrite Hk. simpl. eexists. split; [reflexivity |].
    split; stored.
  - unfold SetShaderTexture, SetShaderColor. rewrite Hsh, Hk. simpl.
    eexists. split; [reflexivity |]. split; stored.
Qed.

(** X14. The UV scale is sticky: once SetTextureUVScale has stored it, the
    other four setters, in the order a scene object applies them, leave it
    in force. *)
Theorem uv_scale_persists s sh u v k dx dy dz p tag0 r g b a tag1 local s2 s3 :
  m_pShaderManager s = Some sh ->
  SetShaderTexture tag0 (SetTransformations k dx dy dz p (SetTextureUVScale u v s))
    = Ok s2 ->
  SetShaderMaterial tag1 local (SetShaderColor r g b a s2) = Ok s3 ->
  current_uniform s3 "UVscale" = Some (UVec2 (Vec2 u v)).
Proof.
  intros Hsh H2 H3.
  rewrite (SetShaderMaterial_frame _ _ _ _ _ H3) by discriminate.
  rewrite SetShaderColor_frame by discriminate.
  rewrite (SetShaderTexture_frame _ _ _ _ H2) by discriminate.
  rewrite SetTransformations_frame by discriminate.
  unfold SetTextureUVScale, current_uniform. rewrite Hsh. simpl.
  apply lookup_insert_eq.
Qed.

(** X27. A tag that is found sends the members of the first material
    carrying it: with a shader manager attached SetShaderMaterial completes;
    afterwards the attached shader manager holds that material's diffuse
    colour, specular colour and shininess in the three material uniforms,
    nothing of the caller's local; every other uniform is as before, and so
    is the rest of the scene manager. *)
Theorem SetShaderMaterial_sends_first_match s sh pre m rest tag0 local :
  m_objectMaterials s = pre ++ m :: rest ->
  tag0 ∉ material_tag <$> pre -> material_tag m = tag0 ->
  m_pShaderManager s = Some sh ->
  exists s' sh',
    SetShaderMaterial tag0 local s = Ok s'
    /\ m_pShaderManager s' = Some sh'
    /\ uniforms sh' !! "material.diffuseColor" = Some (UVec3 (diffuseColor m))
    /\ uniforms sh' !! "material.specularColor" = Some (UVec3 (specularColor m))
    /\ uniforms sh' !! "material.shininess" = Some (UFloat (shininess m))
    /\ (forall name, name <> "material.diffuseColor"%string ->
          name <> "material.specularColor"%string ->
          name <> "material.shininess"%string ->
          uniforms sh' !! name = uniforms sh !! name)
    /\ m_loadedTextures s' = m_loadedTextures s
    /\ m_textureIDs s' = m_textureIDs s
    /\ m_objectMaterials s' = m_objectMaterials s
    /\ gl s' = gl s.
Proof.
  intros E Hnot Hm Hsh.
  rewrite (SetShaderMaterial_hit s sh pre m rest tag0 local E Hnot Hm Hsh).
  eexists _, _. split; [reflexivity |].
  cbn [m_pShaderManager with_shader m_loadedTextures m_textureIDs
       m_objectMaterials gl].
  split; [reflexivity |].
  unfold setFloatValue, setVec3Value, set_uniform. cbn [uniforms].
  split; [now rewrite !lookup_insert_ne, lookup_insert_eq by discriminate |].
  split; [now rewrite lookup_insert_ne, lookup_insert_eq by discriminate |].
  split; [apply lookup_insert_eq |].
  split; [| repeat split].
  intros name H1 H2 H3. now rewrite !lookup_insert_ne by congruence.
Qed.
End SetterFacts.

(** ** Straight-line rendering *)

Section RunFacts.
Context {F : Scalar} {T : Trig F}.
Implicit Types (f : @Frame F) (body : list (@statement F)).

Lemma only_uniforms_differ_refl (s : @SceneManager F) : only_uniforms_differ s s.
Proof. unfold only_uniforms_differ. tauto. Qed.

Lemma only_uniforms_differ_trans (s1 s2 s3 : @SceneManager F) :
  only_uniforms_differ s1 s2 -> only_uniforms_differ s2 s3 ->
  only_uniforms_differ s1 s3.
Proof.
  unfold only_uniforms_differ. intros (A1 & B1 & C1 & D1 & E1) (A2 & B2 & C2 & D2 & E2).
  repeat split; try congruence; tauto.
Qed.

Lemma only_uniforms_differ_with_shader (s : @SceneManager F) sh sh' :
  m_pShaderManager s = Some sh -> only_uniforms_differ s (with_shader sh' s).
Proof.
  intros H. unfold only_uniforms_differ. simpl. rewrite H.
  repeat split; eauto.
Qed.

Lemma only_uniforms_differ_fits (s s' : @SceneManager F) :
  only_uniforms_differ s s' -> registry_fits s -> registry_fits s'.
Proof.
  unfold only_uniforms_differ, registry_fits. intros (A & B & _) H.
  now rewrite A, B.
Qed.

(* one statement, with a shader manager attached and a registry that fits *)
Lemma execute_attached st f :
  is_Some (m_pShaderManager (scene (engine f))) ->
  registry_fits (scene (engine f)) ->
  exists f',
    execute st f = Ok f'
    /\ only_uniforms_differ (scene (engine f)) (scene (engine f'))
    /\ loaded_meshes (m_basicMeshes (engine f'))
       = loaded_meshes (m_basicMeshes (engine f))
    /\ calls_drawn (engine f') = calls_drawn (engine f) ++ calls_of [st]
    /\ lighting_drawn (engine f')
       = lighting_drawn (engine f)
         ++ lighting_trace [st] (lighting (scene (engine f)))
    /\ lighting (scene (engine f'))
       = lighting_after [st] (lighting (scene (engine f))).
Proof.
  intros [sh Hsh] Hfit.
  destruct st; simpl;
    try (eexists; split; [reflexivity |]; simpl;
         split; [apply only_uniforms_differ_refl |];
         rewrite ?app_nil_r; repeat split; fail).
  - (* SetTransformations with the locals *)
    eexists. split; [reflexivity |]. unfold on_scene; simpl.
    unfold SetTransformations. rewrite Hsh.
    simpl. split; [apply (only_uniforms_differ_with_shader _ sh); exact Hsh |].
    rewrite ?app_nil_r. repeat split.
    unfold lighting, current_uniform. rewrite Hsh. simpl.
    now rewrite lookup_insert_ne.
  - eexists. split; [reflexivity |]. unfold on_scene; simpl.
    unfold SetTransformations. rewrite Hsh.
    simpl. split; [apply (only_uniforms_differ_with_shader _ sh); exact Hsh |].
    rewrite ?app_nil_r. repeat split.
    unfold lighting, current_uniform. rewrite Hsh. simpl.
    now rewrite lookup_insert_ne.
  - (* SetShaderColor *)
    eexists. split; [reflexivity |]. unfold on_scene; simpl.
    unfold SetShaderColor. rewrite Hsh.
    simpl. split; [apply (only_uniforms_differ_with_shader _ sh); exact Hsh |].
    rewrite ?app_nil_r. repeat split.
    unfold lighting, current_uniform. rewrite Hsh. simpl.
    now rewrite !lookup_insert_ne.
  - (* SetShaderTexture *)
    unfold SetShaderTexture. rewrite Hsh.
    rewrite FindTextureSlot_scan by assumption. simpl.
    eexists. split; [reflexivity |]. simpl.
    split; [apply (only_uniforms_differ_with_shader _ sh); exact Hsh |].
    rewrite ?app_nil_r. repeat split.
    unfold lighting, current_uniform. rewrite Hsh. simpl.
    now rewrite !lookup_insert_ne.
  - (* SetTextureUVScale *)
    eexists. split; [reflexivity |]. unfold on_scene; simpl.
    unfold SetTextureUVScale. rewrite Hsh.
    simpl. split; [apply (only_uniforms_differ_with_shader _ sh); exact Hsh |].
    rewrite ?app_nil_r. repeat split.
    unfold lighting, current_uniform. rewrite Hsh. simpl.
    now rewrite lookup_insert_ne.
  - (* SetShaderMaterial *)
    unfold SetShaderMaterial.
    destruct (0 <? length (m_objectMaterials (scene (engine f))))%nat;
      [destruct (FindMaterial _ _ _) as [[] material] |];
      try (simpl; eexists; split; [reflexivity |]; simpl;
           split; [apply only_uniforms_differ_refl |];
           rewrite ?app_nil_r; repeat split; fail).
    rewrite Hsh. simpl. eexists. split; [reflexivity |]. simpl.
    split; [apply (only_uniforms_differ_with_shader _ sh); exact Hsh |].
    rewrite ?app_nil_r. repeat split.
    unfold lighting, current_uniform. rewrite Hsh. simpl.
    now rewrite !lookup_insert_ne.
  - (* a draw *)
    eexists. split; [reflexivity |]. simpl.
    split; [apply only_uniforms_differ_refl |].
    unfold calls_drawn, lighting_drawn. simpl. rewrite !fmap_app. simpl.
    repeat split.
  - (* a lighting write *)
    rewrite Hsh. eexists. split; [reflexivity |]. simpl.
    split; [apply (only_uniforms_differ_with_shader _ sh); exact Hsh |].
    rewrite ?app_nil_r. repeat split.
    unfold lighting, current_uniform. simpl. apply lookup_insert_eq.
Qed.

(* a body, with a shader manager attached and a registry that fits *)
Lemma run_attached body : forall f,
  is_Some (m_pShaderManager (scene (engine f))) ->
  registry_fits (scene (engine f)) ->
  exists f',
    run body f = Ok f'
    /\ only_uniforms_differ (scene (engine f)) (scene (engine f'))
    /\ loaded_meshes (m_basicMeshes (engine f'))
       = loaded_meshes (m_basicMeshes (engine f))
    /\ calls_drawn (engine f') = calls_drawn (engine f) ++ calls_of body
    /\ lighting_drawn (engine f')
       = lighting_drawn (engine f)
         ++ lighting_trace body (lighting (scene (engine f)))
    /\ lighting (scene (engine f'))
       = lighting_after body (lighting (scene (engine f))).
Proof.
  induction body as [| st rest IH]; intros f Hsh Hfit.
  - exists f. simpl. rewrite !app_nil_r.
    split; [reflexivity |]. split; [apply only_uniforms_differ_refl |].
    repeat split.
  - destruct (execute_attached st f Hsh Hfit)
      as (f1 & Hex & Hu1 & Hm1 & Hc1 & Hl1 & Ha1).
    destruct (IH f1) as (f' & Hrun & Hu & Hm & Hc & Hl & Ha).
    { destruct Hu1 as (_ & _ & _ & _ & Hs). now apply Hs. }
    { now apply (only_uniforms_differ_fits _ _ Hu1). }
    exists f'. simpl. rewrite Hex. simpl.
    split; [exact Hrun |].
    split; [now apply (only_uniforms_differ_trans _ _ _ Hu1) |].
    split; [congruence |].
    split; [| split].
    + rewrite Hc, Hc1, <- app_assoc. f_equal.
      unfold calls_of. simpl. now destruct st.
    + rewrite Hl, Hl1, Ha1, <- app_assoc. f_equal.
      destruct st; simpl; rewrite ?app_nil_r; reflexivity.
    + rewrite Ha, Ha1. destruct st; reflexivity.
Qed.

(* without a shader manager: the first unguarded call faults *)
Lemma execute_detached st f :
  m_pShaderManager (scene (engine f)) = None ->
  if unguarded (negb (length (m_objectMaterials (scene (engine f))) =? 0)%nat) st
  then execute st f = Fault NullDereference
  else exists f', execute st f = Ok f'
                  /\ scene (engine f') = scene (engine f).
Proof.
  intros Hsh. destruct st; simpl;
    try (eexists; split; [reflexivity |]; reflexivity).
  - eexists. split; [reflexivity |]. unfold on_scene; simpl.
    unfold SetTransformations. now rewrite Hsh.
  - eexists. split; [reflexivity |]. unfold on_scene; simpl.
    unfold SetTransformations. now rewrite Hsh.
  - eexists. split; [reflexivity |]. unfold on_scene; simpl.
    unfold SetShaderColor. now rewrite Hsh.
  - unfold SetShaderTexture. rewrite Hsh. simpl.
    eexists. split; [reflexivity |]. reflexivity.
  - eexists. split; [reflexivity |]. unfold on_scene; simpl.
    unfold SetTextureUVScale. now rewrite Hsh.
  - unfold SetShaderMaterial, FindMaterial.
    destruct (m_objectMaterials (scene (engine f))) as [| m l]; simpl.
    + eexists. split; reflexivity.
    + now rewrite Hsh.
  - now rewrite Hsh.
Qed.

Lemma run_detached body : forall f,
  m_pShaderManager (scene (engine f)) = None ->
  existsb (unguarded (negb (length (m_objectMaterials (scene (engine f))) =? 0)%nat))
    body = true ->
  run body f = Fault NullDereference.
Proof.
  induction body as [| st rest IH]; intros f Hsh Hex; simpl in *; [discriminate |].
  pose proof (execute_detached st f Hsh) as Hst.
  destruct (unguarded _ st) eqn:E.
  - now rewrite Hst.
  - destruct Hst as (f1 & -> & Hscene). simpl in *.
    apply IH; rewrite Hscene; assumption.
Qed.
End RunFacts.

(** ** RenderScene *)

Section RenderFacts.
Variable T : Trig binary32.
Variable stack : nat -> @OBJECT_MATERIAL binary32.
Variables scale0 position0 : @vec3 binary32.
Implicit Types e : @Renderer binary32.

Lemma RenderScene_body_calls : calls_of (RenderScene_body stack) = scene_draws.
Proof. reflexivity. Qed.

Lemma RenderScene_body_trace (l : option uniform) :
  lighting_trace (RenderScene_body stack) l
  = repeat l 13 ++ repeat (Some (UBool false)) 5.
Proof. reflexivity. Qed.

Lemma RenderScene_body_after (l : option uniform) :
  lighting_after (RenderScene_body stack) l = Some (UBool false).
Proof. reflexivity. Qed.

Lemma RenderScene_body_unguarded (b : bool) :
  existsb (unguarded b) (RenderScene_body stack) = true.
Proof. destruct b; reflexivity. Qed.

(** X17. With a shader manager attached and a registry whose count fits its
    table, RenderScene completes whatever textures and materials are or are
    not registered; it issues its eighteen draw calls, each once and in the
    order of the source, and changes nothing of the scene manager but the
    shader manager's uniforms. *)
Theorem RenderScene_draws_every_object e :
  is_Some (m_pShaderManager (scene e)) -> registry_fits (scene e) ->
  exists e',
    RenderScene T stack scale0 position0 e = Ok e'
    /\ calls_drawn e' = calls_drawn e ++ scene_draws
    /\ only_uniforms_differ (scene e) (scene e')
    /\ loaded_meshes (m_basicMeshes e') = loaded_meshes (m_basicMeshes e).
Proof.
  intros Hsh Hfit. unfold RenderScene.
  destruct (run_attached (T := T) (RenderScene_body stack)
              {| engine := e; scaleXYZ := scale0;
                 XrotationDegrees := Decimal.q 0 1;
                 YrotationDegrees := Decimal.q 0 1;
                 ZrotationDegrees := Decimal.q 0 1;
                 positionXYZ := position0 |} Hsh Hfit)
    as (f' & Hrun & Hu & Hm & Hc & _).
  rewrite Hrun. exists (engine f'). cbn [engine mbind outcome_bind] in *.
  rewrite RenderScene_body_calls in Hc. auto.
Qed.

(** X18. RenderScene switches lighting off before the light bulb and never
    on again: the first thirteen objects are drawn under the lighting flag
    the frame started with, the last five with the flag false, and the flag
    is false when RenderScene returns. *)
Theorem RenderScene_leaves_lighting_off e :
  is_Some (m_pShaderManager (scene e)) -> registry_fits (scene e) ->
  exists e',
    RenderScene T stack scale0 position0 e = Ok e'
    /\ lighting_drawn e'
       = lighting_drawn e ++ repeat (lighting (scene e)) 13
                          ++ repeat (Some (UBool false)) 5
    /\ lighting (scene e') = Some (UBool false).
Proof.
  intros Hsh Hfit. unfold RenderScene.
  destruct (run_attached (T := T) (RenderScene_body stack)
              {| engine := e; scaleXYZ := scale0;
                 XrotationDegrees := Decimal.q 0 1;
                 YrotationDegrees := Decimal.q 0 1;
                 ZrotationDegrees := Decimal.q 0 1;
                 positionXYZ := position0 |} Hsh Hfit)
    as (f' & Hrun & _ & _ & _ & Hl & Ha).
  rewrite Hrun. exists (engine f'). cbn [engine mbind outcome_bind] in *.
  rewrite RenderScene_body_trace in Hl. rewrite RenderScene_body_after in Ha.
  auto.
Qed.

(** X19. Without a shader manager RenderScene never completes: whatever the
    registry and the materials hold, it ends in a call through the null
    m_pShaderManager (SetShaderMaterial and the direct lighting writes have
    no NULL test). *)
Theorem RenderScene_without_shader_faults e :
  m_pShaderManager (scene e) = None ->
  RenderScene T stack scale0 position0 e = Fault NullDereference.
Proof.
  intros Hsh. unfold RenderScene.
  rewrite (run_detached (T := T)); [reflexivity | exact Hsh |].
  apply RenderScene_body_unguarded.
Qed.
End RenderFacts.

Section TwoFrames.
Variable T : Trig binary32.
Variables stack1 stack2 : nat -> @OBJECT_MATERIAL binary32.
Variables scale1 position1 scale2 position2 : @vec3 binary32.

(** X20. Nothing restores the lighting flag between frames: when RenderScene
    runs a second time, all eighteen objects are drawn with lighting off. *)
Theorem second_frame_is_unlit (e : @Renderer binary32) :
  is_Some (m_pShaderManager (scene e)) -> registry_fits (scene e) ->
  exists e1 e2,
    RenderScene T stack1 scale1 position1 e = Ok e1
    /\ RenderScene T stack2 scale2 position2 e1 = Ok e2
    /\ lighting_drawn e2 = lighting_drawn e1 ++ repeat (Some (UBool false)) 18.
Proof.
  intros Hsh Hfit. unfold RenderScene.
  destruct (run_attached (T := T) (RenderScene_body stack1)
              {| engine := e; scaleXYZ := scale1;
                 XrotationDegrees := Decimal.q 0 1;
                 YrotationDegrees := Decimal.q 0 1;
                 ZrotationDegrees := Decimal.q 0 1;
                 positionXYZ := position1 |} Hsh Hfit)
    as (f1 & Hrun1 & Hu1 & _ & _ & _ & Ha1).
  rewrite Hrun1. cbn [engine mbind outcome_bind] in *.
  assert (Hsh1 : is_Some (m_pShaderManager (scene (engine f1))))
    by (destruct Hu1 as (_ & _ & _ & _ & Hs); now apply Hs).
  assert (Hfit1 : registry_fits (scene (engine f1)))
    by now apply (only_uniforms_differ_fits _ _ Hu1).
  destruct (run_attached (T := T) (RenderScene_body stack2)
              {| engine := engine f1; scaleXYZ := scale2;
                 XrotationDegrees := Decimal.q 0 1;
                 YrotationDegrees := Decimal.q 0 1;
                 ZrotationDegrees := Decimal.q 0 1;
                 positionXYZ := position2 |} Hsh1 Hfit1)
    as (f2 & Hrun2 & _ & _ & _ & Hl2 & _).
  exists (engine f1), (engine f2). rewrite Hrun2. cbn [engine mbind outcome_bind] in *.
  split; [reflexivity |]. split; [reflexivity |].
  rewrite Hl2, RenderScene_body_trace, Ha1, RenderScene_body_after.
  reflexivity.
Qed.
End TwoFrames.

(** ** LoadTextures and PrepareScene *)

Section BatchFacts.
Context {F : Scalar}.
Variable stbi_load : string -> option stb_image.
Variable gl_fresh : list Z -> Z.
Implicit Types s : @SceneManager F.

(* CreateGLTexture touches neither the shader manager nor the materials *)
Lemma CreateGLTexture_rest filename tag0 s b s' :
  CreateGLTexture stbi_load gl_fresh filename tag0 s = Ok (b, s') ->
  m_pShaderManager s' = m_pShaderManager s
  /\ m_objectMaterials s' = m_objectMaterials s.
Proof.
  unfold CreateGLTexture. intros H.
  destruct (stbi_load filename) as [image|]; [| injection H as <- <-; auto].
  simpl in H.
  destruct (colorChannels image =? 3);
    [| destruct (colorChannels image =? 4)];
    try (injection H as <- <-; auto);
    match type of H with (?m ≫= _) = _ => destruct m as [r|] eqn:Er end;
    simpl in H; try discriminate; injection H as <- <-;
    apply register_texture_Ok in Er as [_ ->]; auto.
Qed.

Lemma register_all_rest reqs : forall s results s',
  register_all stbi_load gl_fresh reqs s = Ok (results, s') ->
  m_pShaderManager s' = m_pShaderManager s
  /\ m_objectMaterials s' = m_objectMaterials s
  /\ length results = length reqs.
Proof.
  induction reqs as [| [filename tag0] rest IH]; intros s results s' H; simpl in H.
  - injection H as <- <-. auto.
  - destruct (CreateGLTexture _ _ _ _ _) as [[b s1]|] eqn:E1; simpl in H;
      [| discriminate].
    destruct (register_all _ _ _ _) as [[bs s2]|] eqn:E2; simpl in H;
      [| discriminate].
    injection H as <- <-.
    apply CreateGLTexture_rest in E1 as [Hsh1 Hm1].
    apply IH in E2 as (Hsh2 & Hm2 & Hlen).
    simpl. repeat split; congruence.
Qed.

(* with room in the table every call returns, true exactly for a file that
   decodes to an RGB or RGBA image *)
Lemma CreateGLTexture_completes filename tag0 s :
  0 <= m_loadedTextures s < Z.of_nat (length (m_textureIDs s)) ->
  exists b s',
    CreateGLTexture stbi_load gl_fresh filename tag0 s = Ok (b, s')
    /\ length (m_textureIDs s') = length (m_textureIDs s)
    /\ m_loadedTextures s <= m_loadedTextures s' <= m_loadedTextures s + 1
    /\ (b = true <-> all_decodable stbi_load [(filename, tag0)]).
Proof.
  intros Hroom.
  assert (Hone : forall image, stbi_load filename = Some image ->
            all_decodable stbi_load [(filename, tag0)] ->
            colorChannels image = 3 \/ colorChannels image = 4).
  { intros image Hload Hdec.
    destruct (Hdec filename tag0) as (image' & Hload' & Hch);
      [apply list_elem_of_here |]. congruence. }
  destruct (stbi_load filename) as [image|] eqn:Hload.
  - destruct (decide (colorChannels image = 3 \/ colorChannels image = 4))
      as [Hch | Hch].
    + destruct (CreateGLTexture_succeeds stbi_load gl_fresh filename tag0 image s
                  Hload Hch Hroom) as [s' Hs'].
      exists true, s'. split; [exact Hs' |].
      apply CreateGLTexture_cases in Hs'
        as [(_ & _ & _ & Hn & Ha) | (Hb & _)]; [| discriminate].
      rewrite Ha, length_insert, Hn.
      split; [reflexivity |]. split; [lia |]. split; [| reflexivity].
      intros _ f t Hin. apply list_elem_of_singleton in Hin. injection Hin as -> ->.
      eauto.
    + exists false. unfold CreateGLTexture. rewrite Hload.
      cbn [glGenTextures].
      destruct (colorChannels image =? 3) eqn:E3; [apply Z.eqb_eq in E3; tauto |].
      destruct (colorChannels image =? 4) eqn:E4; [apply Z.eqb_eq in E4; tauto |].
      eexists. split; [reflexivity |]. cbn [with_gl m_textureIDs m_loadedTextures].
      split; [reflexivity |]. split; [lia |]. split; [discriminate |].
      intros Hdec. exfalso. apply Hch. now apply (Hone image).
  - exists false, s. rewrite CreateGLTexture_unreadable by assumption.
    split; [reflexivity |]. split; [reflexivity |]. split; [lia |].
    split; [discriminate |].
    intros Hdec. destruct (Hdec filename tag0) as (image & Hload' & _);
      [apply list_elem_of_here |]. congruence.
Qed.

(* with room for a whole batch every call of it returns, and the last result
   is true exactly when the last file decodes to an RGB or RGBA image *)
Lemma register_all_last reqs : forall s filename tag0,
  0 <= m_loadedTextures s ->
  m_loadedTextures s + Z.of_nat (length reqs) <= Z.of_nat (length (m_textureIDs s)) ->
  last reqs = Some (filename, tag0) ->
  exists results s' b,
    register_all stbi_load gl_fresh reqs s = Ok (results, s')
    /\ last results = Some b
    /\ (b = true <-> all_decodable stbi_load [(filename, tag0)]).
Proof.
  induction reqs as [| [f t] rest IH]; intros s filename tag0 H0 Hroom Hlast;
    [discriminate |].
  simpl in Hroom.
  destruct (CreateGLTexture_completes f t s) as (b1 & s1 & Hs1 & Hlen & Hn & Hb1);
    [lia |].
  simpl. rewrite Hs1. cbn [mbind outcome_bind snd fst].
  destruct rest as [| r2 rest'].
  - injection Hlast as -> ->. exists [b1], s1, b1. simpl. auto.
  - rewrite last_cons_cons in Hlast.
    destruct (IH s1 filename tag0) as (rs & s' & b & Hrs & Hl & Hb);
      [lia | rewrite Hlen; simpl in *; lia | exact Hlast |].
    rewrite Hrs. cbn [mbind outcome_bind snd fst].
    exists (b1 :: rs), s', b. split; [reflexivity |]. split; [| exact Hb].
    destruct rs as [| r rs']; [discriminate |]. now rewrite last_cons_cons.
Qed.

Lemma register_all_succeeds reqs : forall s,
  all_decodable stbi_load reqs ->
  0 <= m_loadedTextures s ->
  m_loadedTextures s + Z.of_nat (length reqs) <= Z.of_nat (length (m_textureIDs s)) ->
  exists s', register_all stbi_load gl_fresh reqs s
             = Ok (repeat true (length reqs), s').
Proof.
  induction reqs as [| [filename tag0] rest IH]; intros s Hdec H0 Hroom; simpl.
  - eauto.
  - destruct (Hdec filename tag0) as (image & Hload & Hch); [apply list_elem_of_here |].
    destruct (CreateGLTexture_succeeds stbi_load gl_fresh filename tag0 image s
                Hload Hch) as [s1 Hs1]; [simpl in Hroom; lia |].
    rewrite Hs1. simpl.
    pose proof Hs1 as Hc. apply CreateGLTexture_cases in Hc
      as [(_ & _ & _ & Hn & Ha) | (Hb & _)]; [| discriminate].
    destruct (IH s1) as [s' Hs'].
    + intros f t Hin. apply (Hdec f t). now apply list_elem_of_further.
    + lia.
    + rewrite Hn, Ha, length_insert. simpl in Hroom. lia.
    + rewrite Hs'. simpl. eauto.
Qed.

Lemma successful_tags_all reqs :
  successful_tags reqs (repeat true (length reqs)) = reqs.*2.
Proof. induction reqs as [| [f t] rest IH]; simpl; [| rewrite IH]; reflexivity. Qed.

(* a tag found by its position among the registered tags *)
Lemma find_by_position s (k : nat) tag0 :
  registry_fits s -> texture_tags s !! k = Some tag0 ->
  tag0 ∉ take k (texture_tags s) ->
  exists e, m_textureIDs s !! k = Some e
            /\ FindTextureSlot s tag0 = Ok (Z.of_nat k)
            /\ FindTextureID s tag0 = Ok (int_of_GLuint (ID e)).
Proof.
  intros Hfit Hk Hnot.
  rewrite FindTextureSlot_scan, FindTextureID_scan by assumption.
  unfold texture_tags in *. rewrite list_lookup_fmap in Hk.
  destruct (loaded_entries s !! k) as [e|] eqn:He; [| discriminate].
  injection Hk as Ht.
  rewrite <- (take_drop_middle _ _ _ He).
  rewrite <- fmap_take in Hnot.
  rewrite first_match_app_hit by assumption.
  exists e. split; [now apply loaded_entries_lookup |].
  rewrite length_take_le by (apply lookup_lt_Some in He; lia).
  split; reflexivity.
Qed.
End BatchFacts.

Section LoadFacts.
Context {F : Scalar}.
Variable stbi_load : string -> option stb_image.
Variable gl_fresh : list Z -> Z.
Implicit Types s : @SceneManager F.

(** X21. LoadTextures reports only its last file: with room in the table for
    six more textures it completes, and the value it leaves in bReturn is
    true exactly when textures/stone.jpg decodes to an RGB or RGBA image,
    whatever happens to the five files before it. *)
Theorem LoadTextures_reports_last_only s :
  0 <= m_loadedTextures s ->
  m_loadedTextures s + 6 <= Z.of_nat (length (m_textureIDs s)) ->
  exists b s',
    LoadTextures stbi_load gl_fresh s = Ok (b, s')
    /\ (b = true <->
        exists image, stbi_load "textures/stone.jpg" = Some image
                      /\ (colorChannels image = 3 \/ colorChannels image = 4)).
Proof.
  intros H0 Hroom. unfold LoadTextures.
  change (register_all stbi_load gl_fresh _ s)
    with (register_all stbi_load gl_fresh texture_files s).
  destruct (register_all_last stbi_load gl_fresh texture_files s
              "textures/stone.jpg" "stone" H0)
    as (results & s' & b & -> & Hl & Hb);
    [change (length texture_files) with 6%nat; lia | reflexivity |].
  cbn [mbind outcome_bind fst snd]. rewrite Hl. cbn [default from_option].
  exists b, s'. split; [reflexivity |]. rewrite Hb. split.
  - intros Hdec. apply (Hdec "textures/stone.jpg"%string "stone"%string).
    apply list_elem_of_here.
  - intros Himg f t Hin. apply list_elem_of_singleton in Hin.
    injection Hin as -> ->. exact Himg.
Qed.
End LoadFacts.

Section PrepareFacts.
Variable stbi_load : string -> option stb_image.
Variable gl_fresh : list Z -> Z.
Implicit Types e : @Renderer binary32.

Lemma SetupSceneLights_attached (s : @SceneManager binary32) sh :
  m_pShaderManager s = Some sh ->
  exists sh', SetupSceneLights s = Ok (with_shader sh' s)
              /\ uniforms sh' !! g_UseLightingName = Some (UBool true).
Proof.
  intros Hsh. unfold SetupSceneLights. rewrite Hsh.
  eexists. split; [reflexivity |].
  unfold setBoolValue, setVec3Value, set_uniform. cbn [uniforms].
  rewrite !lookup_insert_ne by discriminate. apply lookup_insert_eq.
Qed.

(** X22. PrepareScene needs a shader manager: without one it ends in a call
    through the null pointer (SetupSceneLights has no NULL test), whatever
    the decoder, the registry and the meshes. *)
Theorem PrepareScene_without_shader_faults e :
  m_pShaderManager (scene e) = None ->
  PrepareScene stbi_load gl_fresh e = Fault NullDereference.
Proof.
  intros Hsh. unfold PrepareScene, SetupSceneLights.
  change (m_pShaderManager (DefineObjectMaterials (scene e)))
    with (m_pShaderManager (scene e)).
  now rewrite Hsh.
Qed.

(* no tag of LoadTextures occurs twice *)
Lemma texture_files_distinct (k : nat) tag0 :
  texture_files.*2 !! k = Some tag0 -> tag0 ∉ take k texture_files.*2.
Proof.
  intros Hk.
  do 6 (destruct k as [| k]; [simpl in Hk; injection Hk as <-;
                              vm_compute; intros H;
                              repeat (apply elem_of_cons in H as [H | H];
                                      [discriminate |]);
                              now apply elem_of_nil in H |]).
  discriminate.
Qed.

(* the run of PrepareScene on a scene manager with a shader manager, an empty
   registry, room for six textures and six decodable files *)
Lemma PrepareScene_run e sh :
  m_pShaderManager (scene e) = Some sh ->
  m_loadedTextures (scene e) = 0 ->
  (6 <= length (m_textureIDs (scene e)))%nat ->
  all_decodable stbi_load texture_files ->
  exists e' sh',
    PrepareScene stbi_load gl_fresh e = Ok e'
    /\ m_pShaderManager (scene e') = Some sh'
    /\ uniforms sh' !! g_UseLightingName = Some (UBool true)
    /\ registry_fits (scene e')
    /\ texture_tags (scene e') = texture_files.*2
    /\ (forall u, 0 <= u < m_loadedTextures (scene e') ->
          gl_units (gl (scene e')) !! u = ID <$> (m_textureIDs (scene e') !! Z.to_nat u))
    /\ m_objectMaterials (scene e') = m_objectMaterials (scene e) ++ defined_materials
    /\ loaded_meshes (m_basicMeshes e')
       = loaded_meshes (m_basicMeshes e)
         ++ [PlaneMesh; CylinderMesh; ConeMesh; BoxMesh; SphereMesh]
    /\ draw_calls (m_basicMeshes e') = draw_calls (m_basicMeshes e).
Proof.
  intros Hsh H0 Hcap Hdec. unfold PrepareScene.
  set (s0 := DefineObjectMaterials (scene e)).
  assert (Hsh0 : m_pShaderManager s0 = Some sh) by exact Hsh.
  destruct (SetupSceneLights_attached s0 sh Hsh0) as (sh' & -> & Hlight).
  cbn [mbind outcome_bind]. set (s1 := with_shader sh' s0).
  cbn [scene LoadMesh with_scene].
  unfold LoadTextures.
  destruct (register_all_succeeds stbi_load gl_fresh texture_files s1 Hdec)
    as [s2 Hs2].
  { change (m_loadedTextures s1) with (m_loadedTextures (scene e)). lia. }
  { change (m_loadedTextures s1) with (m_loadedTextures (scene e)).
    change (m_textureIDs s1) with (m_textureIDs (scene e)).
    change (length texture_files) with 6%nat. lia. }
  change (register_all stbi_load gl_fresh _ s1)
    with (register_all stbi_load gl_fresh texture_files s1).
  rewrite Hs2. cbn [mbind outcome_bind snd fst].
  assert (Hfit1 : registry_fits s1).
  { unfold registry_fits.
    change (m_loadedTextures s1) with (m_loadedTextures (scene e)). lia. }
  destruct (register_all_tags _ _ _ _ _ _ Hfit1 Hs2) as [Hfit2 Htags].
  rewrite successful_tags_all in Htags.
  assert (Hempty : texture_tags s1 = []).
  { unfold texture_tags, loaded_entries.
    change (m_loadedTextures s1) with (m_loadedTextures (scene e)).
    now rewrite H0. }
  rewrite Hempty in Htags. simpl app in Htags.
  pose proof (register_all_rest _ _ _ _ _ _ Hs2) as (Hsh2 & Hm2 & _).
  pose proof Hfit2 as [Hlo Hhi].
  unfold BindGLTextures.
  destruct (bind_loop_spec (Z.to_nat (m_loadedTextures s2)) 0 s2)
    as (s3 & Hrun & Ha & Hl & Hm & Hs & _ & _ & _ & Hu); [lia | simpl; lia |].
  rewrite Hrun. cbn [mbind outcome_bind].
  eexists _, sh'. split; [reflexivity |].
  cbn [scene with_scene m_basicMeshes loaded_meshes draw_calls].
  split; [now rewrite Hs, Hsh2 |]. split; [exact Hlight |].
  split; [unfold registry_fits; now rewrite Ha, Hl |].
  split; [unfold texture_tags, loaded_entries in *; now rewrite Ha, Hl |].
  split; [| split; [| split]].
  - intros u Hr. rewrite Hu, Ha. rewrite Hl in Hr. case_decide; [reflexivity | lia].
  - rewrite Hm, Hm2. apply DefineObjectMaterials_appends.
  - cbn [with_scene LoadMesh m_basicMeshes loaded_meshes scene].
    now rewrite <- !app_assoc.
  - reflexivity.
Qed.

(** X23. On a scene manager with a shader manager, an empty registry and a
    table of at least six entries, and with the six texture files decodable
    as RGB or RGBA, PrepareScene completes and leaves the scene ready: the
    six tags are registered in the order of LoadTextures, each is found at
    its position, the texture unit of that position is bound to the handle
    FindTextureID returns, lighting is on, the four materials are defined
    and the five meshes are loaded. *)
Theorem PrepareScene_ready e sh :
  m_pShaderManager (scene e) = Some sh ->
  m_loadedTextures (scene e) = 0 ->
  (6 <= length (m_textureIDs (scene e)))%nat ->
  all_decodable stbi_load texture_files ->
  exists e',
    PrepareScene stbi_load gl_fresh e = Ok e'
    /\ registry_fits (scene e')
    /\ texture_tags (scene e') = texture_files.*2
    /\ (forall (k : nat) tag0, texture_files.*2 !! k = Some tag0 ->
          FindTextureSlot (scene e') tag0 = Ok (Z.of_nat k)
          /\ exists id, gl_units (gl (scene e')) !! Z.of_nat k = Some id
                        /\ FindTextureID (scene e') tag0 = Ok (int_of_GLuint id))
    /\ lighting (scene e') = Some (UBool true)
    /\ m_objectMaterials (scene e') = m_objectMaterials (scene e) ++ defined_materials
    /\ loaded_meshes (m_basicMeshes e')
       = loaded_meshes (m_basicMeshes e)
         ++ [PlaneMesh; CylinderMesh; ConeMesh; BoxMesh; SphereMesh].
Proof.
  intros Hsh H0 Hcap Hdec.
  destruct (PrepareScene_run e sh Hsh H0 Hcap Hdec)
    as (e' & sh' & Hrun & Hsh' & Hlight & Hfit & Htags & Hunits & Hmat & Hmesh & _).
  exists e'. split; [exact Hrun |]. split; [exact Hfit |]. split; [exact Htags |].
  split; [| split; [| split; assumption]].
  - intros k tag0 Hk.
    destruct (find_by_position (scene e') k tag0 Hfit) as (e0 & He0 & Hslot & Hid).
    { now rewrite Htags. }
    { rewrite Htags. now apply texture_files_distinct. }
    split; [exact Hslot |]. exists (ID e0). split; [| exact Hid].
    rewrite Hunits, Nat2Z.id, He0; [reflexivity |].
    apply lookup_lt_Some in Hk.
    assert (Hlen : Z.of_nat (length (loaded_entries (scene e')))
                   = m_loadedTextures (scene e'))
      by now apply loaded_entries_length.
    pose proof (f_equal length Htags) as Hl6. unfold texture_tags in Hl6.
    rewrite length_fmap in Hl6. rewrite <- Hlen, Hl6. lia.
  - unfold lighting, current_uniform. rewrite Hsh'. exact Hlight.
Qed.
End PrepareFacts.

(** ** The uninitialised local of SetShaderMaterial in RenderScene *)

Section LocalFacts.
Context {F : Scalar} {T : Trig F}.
Implicit Types (s : @SceneManager F) (f : @Frame F).

Lemma FindMaterial_scan_hit_any_local (l : list OBJECT_MATERIAL) tag0
    (local local' : @OBJECT_MATERIAL F) :
  tag0 ∈ material_tag <$> l ->
  diffuseColor (FindMaterial_scan l tag0 local)
    = diffuseColor (FindMaterial_scan l tag0 local')
  /\ specularColor (FindMaterial_scan l tag0 local)
    = specularColor (FindMaterial_scan l tag0 local')
  /\ shininess (FindMaterial_scan l tag0 local)
    = shininess (FindMaterial_scan l tag0 local').
Proof.
  induction l as [| m l IH]; simpl; intros Hin.
  - now apply elem_of_nil in Hin.
  - destruct (String.eqb (material_tag m) tag0) eqn:E; [auto |].
    apply String.eqb_neq in E. apply elem_of_cons in Hin as [Heq | Hin];
      [congruence | now apply IH].
Qed.

Lemma SetShaderMaterial_any_local tag0 (local local' : @OBJECT_MATERIAL F) s :
  tag0 ∈ material_tags s ->
  SetShaderMaterial tag0 local s = SetShaderMaterial tag0 local' s.
Proof.
  intros Hin. unfold SetShaderMaterial, FindMaterial.
  destruct (0 <? length (m_objectMaterials s))%nat; [| reflexivity].
  destruct (length (m_objectMaterials s) =? 0)%nat; [reflexivity |].
  destruct (m_pShaderManager s) as [sh|]; [| reflexivity].
  destruct (FindMaterial_scan_hit_any_local _ _ local local' Hin) as (-> & -> & ->).
  reflexivity.
Qed.

(* every statement that completes keeps the materials *)
Lemma execute_materials st f f' :
  execute st f = Ok f' ->
  m_objectMaterials (scene (engine f')) = m_objectMaterials (scene (engine f)).
Proof.
  destruct st; simpl; intros H; try (injection H as <-; reflexivity).
  - injection H as <-. unfold on_scene; simpl. unfold SetTransformations.
    now destruct (m_pShaderManager _).
  - injection H as <-. unfold on_scene; simpl. unfold SetTransformations.
    now destruct (m_pShaderManager _).
  - injection H as <-. unfold on_scene; simpl. unfold SetShaderColor.
    now destruct (m_pShaderManager _).
  - destruct (SetShaderTexture _ _) as [s1|] eqn:E; simpl in H; [| discriminate].
    injection H as <-. simpl. now apply SetShaderTexture_registry in E.
  - injection H as <-. unfold on_scene; simpl. unfold SetTextureUVScale.
    now destruct (m_pShaderManager _).
  - destruct (SetShaderMaterial _ _ _) as [s1|] eqn:E; simpl in H; [| discriminate].
    injection H as <-. simpl. now apply SetShaderMaterial_registry in E.
  - destruct (m_pShaderManager _); [| discriminate]. now injection H as <-.
Qed.

Lemma run_any_local (defined : list string) (body body' : list (@statement F)) :
  Forall2 (same_but_local defined) body body' ->
  forall f, (forall t, t ∈ defined -> t ∈ material_tags (scene (engine f))) ->
            run body f = run body' f.
Proof.
  induction 1 as [| st st' body body' Hst _ IH]; intros f Hdef; [reflexivity |].
  simpl.
  assert (Hex : execute st f = execute st' f).
  { destruct st, st'; simpl in Hst; try discriminate; try (now inversion Hst).
    destruct Hst as [<- Hin]. simpl.
    now rewrite (SetShaderMaterial_any_local _ local local0) by auto. }
  rewrite <- Hex. destruct (execute st f) as [f1|] eqn:E; [| reflexivity].
  simpl. apply IH. intros t Ht. unfold material_tags.
  rewrite (execute_materials _ _ _ E). now apply Hdef.
Qed.
End LocalFacts.

Section RenderLocals.
Variable T : Trig binary32.
Variables stack stack' : nat -> @OBJECT_MATERIAL binary32.
Variables scale0 position0 : @vec3 binary32.

Lemma RenderScene_body_same_but_local :
  Forall2 (same_but_local scene_materials)
    (RenderScene_body stack) (RenderScene_body stack').
Proof.
  unfold RenderScene_body.
  repeat (refine (List.Forall2_cons _ _ _ _);
          [first [ reflexivity
                 | split; [reflexivity |];
                   repeat first [apply list_elem_of_here | apply list_elem_of_further] ] |]).
  exact (List.Forall2_nil _).
Qed.

(** X24. When the four materials RenderScene asks for are defined, what the
    uninitialised local of SetShaderMaterial holds has no effect: RenderScene
    returns the same result for any two contents of those locals. *)
Theorem RenderScene_ignores_uninitialised_locals (e : @Renderer binary32) :
  (forall t, t ∈ scene_materials -> t ∈ material_tags (scene e)) ->
  RenderScene T stack scale0 position0 e = RenderScene T stack' scale0 position0 e.
Proof.
  intros Hdef. unfold RenderScene.
  rewrite (run_any_local (T := T) scene_materials _ _
             RenderScene_body_same_but_local); [reflexivity |].
  exact Hdef.
Qed.
End RenderLocals.

(** ** The GL side of CreateGLTexture *)

Section BoundTexture.
Implicit Types (g : GLContext) (f : gl_texture -> gl_texture).

Lemma gl_bound_after_bind id g : gl_bound (glBindTexture id g) = id.
Proof.
  unfold gl_bound, glBindTexture. cbn [gl_units gl_active].
  now rewrite lookup_insert_eq.
Qed.

(* an update through the binding point touches the bound object only *)
Lemma gl_update_bound_spec f g id :
  gl_bound g = id ->
  gl_bound (gl_update_bound f g) = id
  /\ gl_objects (gl_update_bound f g) !! id
     = Some (f (default gl_texture_default (gl_objects g !! id)))
  /\ (forall id', id' <> id ->
        gl_objects (gl_update_bound f g) !! id' = gl_objects g !! id')
  /\ gl_units (gl_update_bound f g) = gl_units g
  /\ gl_active (gl_update_bound f g) = gl_active g
  /\ gl_names (gl_update_bound f g) = gl_names g.
Proof.
  intros Hb. unfold gl_update_bound. rewrite Hb.
  repeat split; cbn [gl_objects]; [exact Hb | apply lookup_insert_eq |].
  intros id' Hid. now apply lookup_insert_ne.
Qed.

(* the calls between glGenTextures and the registration, on a context in
   which [id] has just been bound *)
Lemma upload_sequence fmt image id g :
  gl_bound g = id ->
  exists t rest,
    gl_objects
      (glBindTexture 0
         (glGenerateMipmap
            (glTexImage2D fmt image
               (glTexParameteri GL_TEXTURE_MAG_FILTER GL_LINEAR
                  (glTexParameteri GL_TEXTURE_MIN_FILTER GL_LINEAR
                     (glTexParameteri GL_TEXTURE_WRAP_T GL_REPEAT
                        (glTexParameteri GL_TEXTURE_WRAP_S GL_REPEAT g)))))))
      !! id = Some t
    /\ tex_level0 t = Some (fmt, image)
    /\ tex_mipmaps t = true
    /\ tex_params t
       = (GL_TEXTURE_MAG_FILTER, GL_LINEAR) :: (GL_TEXTURE_MIN_FILTER, GL_LINEAR)
         :: (GL_TEXTURE_WRAP_T, GL_REPEAT) :: (GL_TEXTURE_WRAP_S, GL_REPEAT) :: rest
    /\ (forall id', id' <> id ->
          gl_objects
            (glBindTexture 0
               (glGenerateMipmap
                  (glTexImage2D fmt image
                     (glTexParameteri GL_TEXTURE_MAG_FILTER GL_LINEAR
                        (glTexParameteri GL_TEXTURE_MIN_FILTER GL_LINEAR
                           (glTexParameteri GL_TEXTURE_WRAP_T GL_REPEAT
                              (glTexParameteri GL_TEXTURE_WRAP_S GL_REPEAT g)))))))
            !! id' = gl_objects g !! id')
    /\ gl_units
         (glBindTexture 0
            (glGenerateMipmap
               (glTexImage2D fmt image
                  (glTexParameteri GL_TEXTURE_MAG_FILTER GL_LINEAR
                     (glTexParameteri GL_TEXTURE_MIN_FILTER GL_LINEAR
                        (glTexParameteri GL_TEXTURE_WRAP_T GL_REPEAT
                           (glTexParameteri GL_TEXTURE_WRAP_S GL_REPEAT g)))))))
       = <[gl_active g := 0]> (gl_units g)
    /\ gl_active
         (glBindTexture 0
            (glGenerateMipmap
               (glTexImage2D fmt image
                  (glTexParameteri GL_TEXTURE_MAG_FILTER GL_LINEAR
                     (glTexParameteri GL_TEXTURE_MIN_FILTER GL_LINEAR
                        (glTexParameteri GL_TEXTURE_WRAP_T GL_REPEAT
                           (glTexParameteri GL_TEXTURE_WRAP_S GL_REPEAT g)))))))
       = gl_active g.
Proof.
  intros Hb. unfold glGenerateMipmap, glTexImage2D, glTexParameteri.
  destruct (gl_update_bound_spec
              (fun t => {| tex_params := (GL_TEXTURE_WRAP_S, GL_REPEAT) :: tex_params t;
                           tex_level0 := tex_level0 t; tex_mipmaps := tex_mipmaps t |})
              g id Hb) as (Hb1 & Ho1 & Hx1 & Hu1 & Ha1 & _).
  set (g1 := gl_update_bound _ g) in *.
  destruct (gl_update_bound_spec
              (fun t => {| tex_params := (GL_TEXTURE_WRAP_T, GL_REPEAT) :: tex_params t;
                           tex_level0 := tex_level0 t; tex_mipmaps := tex_mipmaps t |})
              g1 id Hb1) as (Hb2 & Ho2 & Hx2 & Hu2 & Ha2 & _).
  set (g2 := gl_update_bound _ g1) in *.
  destruct (gl_update_bound_spec
              (fun t => {| tex_params := (GL_TEXTURE_MIN_FILTER, GL_LINEAR) :: tex_params t;
                           tex_level0 := tex_level0 t; tex_mipmaps := tex_mipmaps t |})
              g2 id Hb2) as (Hb3 & Ho3 & Hx3 & Hu3 & Ha3 & _).
  set (g3 := gl_update_bound _ g2) in *.
  destruct (gl_update_bound_spec
              (fun t => {| tex_params := (GL_TEXTURE_MAG_FILTER, GL_LINEAR) :: tex_params t;
                           tex_level0 := tex_level0 t; tex_mipmaps := tex_mipmaps t |})
              g3 id Hb3) as (Hb4 & Ho4 & Hx4 & Hu4 & Ha4 & _).
  set (g4 := gl_update_bound _ g3) in *.
  destruct (gl_update_bound_spec
              (fun t => {| tex_params := tex_params t; tex_level0 := Some (fmt, image);
                           tex_mipmaps := tex_mipmaps t |})
              g4 id Hb4) as (Hb5 & Ho5 & Hx5 & Hu5 & Ha5 & _).
  set (g5 := gl_update_bound _ g4) in *.
  destruct (gl_update_bound_spec
              (fun t => {| tex_params := tex_params t; tex_level0 := tex_level0 t;
                           tex_mipmaps := true |})
              g5 id Hb5) as (Hb6 & Ho6 & Hx6 & Hu6 & Ha6 & _).
  set (g6 := gl_update_bound _ g5) in *.
  rewrite Ho5 in Ho6. rewrite Ho4 in Ho6. rewrite Ho3 in Ho6. rewrite Ho2 in Ho6.
  rewrite Ho1 in Ho6. cbn [default from_option tex_params tex_level0 tex_mipmaps] in Ho6.
  unfold glBindTexture. cbn [gl_objects gl_units gl_active].
  eexists _, _. split; [exact Ho6 |]. cbn [tex_params tex_level0 tex_mipmaps].
  split; [reflexivity |]. split; [reflexivity |]. split; [reflexivity |].
  split; [| split].
  - intros id' Hid. now rewrite Hx6, Hx5, Hx4, Hx3, Hx2, Hx1.
  - now rewrite Ha6, Ha5, Ha4, Ha3, Ha2, Ha1, Hu6, Hu5, Hu4, Hu3, Hu2, Hu1.
  - now rewrite Ha6, Ha5, Ha4, Ha3, Ha2, Ha1.
Qed.
End BoundTexture.

Section UploadFacts.
Context {F : Scalar}.
Variable stbi_load : string -> option stb_image.
Variable gl_fresh : list Z -> Z.
Implicit Types s : @SceneManager F.

(** X25. A registration that returns true leaves, under the generated name,
    a texture object that holds the decoded image in the internal format the
    channel count selects, has mipmaps, and carries the four wrap and filter
    parameters; the texture is unbound again from the active unit, and no
    other texture object, no other unit and not the active unit index is
    changed. *)
Theorem CreateGLTexture_uploads filename tag0 image s s' :
  stbi_load filename = Some image ->
  CreateGLTexture stbi_load gl_fresh filename tag0 s = Ok (true, s') ->
  exists t rest,
    gl_objects (gl s') !! fst (glGenTextures gl_fresh (gl s)) = Some t
    /\ tex_level0 t
       = Some (if colorChannels image =? 3 then GL_RGB8 else GL_RGBA8, image)
    /\ tex_mipmaps t = true
    /\ tex_params t
       = (GL_TEXTURE_MAG_FILTER, GL_LINEAR) :: (GL_TEXTURE_MIN_FILTER, GL_LINEAR)
         :: (GL_TEXTURE_WRAP_T, GL_REPEAT) :: (GL_TEXTURE_WRAP_S, GL_REPEAT) :: rest
    /\ (forall id, id <> fst (glGenTextures gl_fresh (gl s)) ->
                   gl_objects (gl s') !! id = gl_objects (gl s) !! id)
    /\ gl_units (gl s') = <[gl_active (gl s) := 0]> (gl_units (gl s))
    /\ gl_active (gl s') = gl_active (gl s).
Proof.
  intros Hload H. unfold CreateGLTexture in H. rewrite Hload in H.
  cbn [glGenTextures fst] in *.
  set (id := GLuint_wrap (gl_fresh (gl_names (gl s)))) in *.
  set (g := glBindTexture id _) in H.
  assert (Hb : gl_bound g = id) by apply gl_bound_after_bind.
  assert (Hg : gl_objects g = gl_objects (gl s)
               /\ <[gl_active g := 0]> (gl_units g)
                  = <[gl_active (gl s) := 0]> (gl_units (gl s))
               /\ gl_active g = gl_active (gl s)).
  { subst g. unfold glBindTexture. cbn [gl_objects gl_units gl_active].
    repeat split. apply insert_insert_eq. }
  destruct Hg as (Hgo & Hgu & Hga).
  destruct (colorChannels image =? 3) eqn:E3;
    [| destruct (colorChannels image =? 4) eqn:E4; [| discriminate]];
    (match type of H with (?m ≫= _) = _ => destruct m as [r|] eqn:Er end;
     cbn [mbind outcome_bind] in H; [| discriminate]; injection H as <-;
     apply register_texture_Ok in Er as [_ ->];
     cbn [gl with_textures with_gl];
     match goal with
     | |- context [glTexImage2D ?fmt image] =>
         destruct (upload_sequence fmt image id g Hb)
           as (t & rest & Ht & Hl & Hm & Hp & Hx & Hu & Ha)
     end;
     exists t, rest; rewrite <- Hgo, <- Hgu, <- Hga; auto 10).
Qed.

(** X26. The unsupported-format return comes before the unbinding and the
    registration: the call returns false, the generated name stays
    allocated and stays bound to the active texture unit, and the registry
    is as it was. *)
Theorem unsupported_channels_leaves_texture_bound filename tag0 image s :
  stbi_load filename = Some image ->
  colorChannels image <> 3 -> colorChannels image <> 4 ->
  exists s',
    CreateGLTexture stbi_load gl_fresh filename tag0 s = Ok (false, s')
    /\ gl_names (gl s') = gl_names (gl s) ++ [fst (glGenTextures gl_fresh (gl s))]
    /\ gl_bound (gl s') = fst (glGenTextures gl_fresh (gl s))
    /\ m_loadedTextures s' = m_loadedTextures s
    /\ m_textureIDs s' = m_textureIDs s.
Proof.
  intros Hload H3 H4. unfold CreateGLTexture. rewrite Hload.
  cbn [glGenTextures fst].
  apply Z.eqb_neq in H3, H4. rewrite H3, H4.
  eexists. split; [reflexivity |]. cbn [gl with_gl m_loadedTextures m_textureIDs].
  set (id := GLuint_wrap (gl_fresh (gl_names (gl s)))).
  set (g := glBindTexture id _).
  assert (Hb : gl_bound g = id) by apply gl_bound_after_bind.
  unfold glTexParameteri.
  destruct (gl_update_bound_spec
              (fun t => {| tex_params := (GL_TEXTURE_WRAP_S, GL_REPEAT) :: tex_params t;
                           tex_level0 := tex_level0 t; tex_mipmaps := tex_mipmaps t |})
              g id Hb) as (Hb1 & _ & _ & _ & _ & Hn1).
  set (g1 := gl_update_bound _ g) in *.
  destruct (gl_update_bound_spec
              (fun t => {| tex_params := (GL_TEXTURE_WRAP_T, GL_REPEAT) :: tex_params t;
                           tex_level0 := tex_level0 t; tex_mipmaps := tex_mipmaps t |})
              g1 id Hb1) as (Hb2 & _ & _ & _ & _ & Hn2).
  set (g2 := gl_update_bound _ g1) in *.
  destruct (gl_update_bound_spec
              (fun t => {| tex_params := (GL_TEXTURE_MIN_FILTER, GL_LINEAR) :: tex_params t;
                           tex_level0 := tex_level0 t; tex_mipmaps := tex_mipmaps t |})
              g2 id Hb2) as (Hb3 & _ & _ & _ & _ & Hn3).
  set (g3 := gl_update_bound _ g2) in *.
  destruct (gl_update_bound_spec
              (fun t => {| tex_params := (GL_TEXTURE_MAG_FILTER, GL_LINEAR) :: tex_params t;
                           tex_level0 := tex_level0 t; tex_mipmaps := tex_mipmaps t |})
              g3 id Hb3) as (Hb4 & _ & _ & _ & _ & Hn4).
  split; [| split; [exact Hb4 | split; reflexivity]].
  rewrite Hn4, Hn3, Hn2, Hn1. reflexivity.
Qed.
End UploadFacts.

(** ** A registration after BindGLTextures *)

Section LateRegistration.
Context {F : Scalar}.
Variable stbi_load : string -> option stb_image.
Variable gl_fresh : list Z -> Z.
Implicit Types s : @SceneManager F.

(* a successful registration binds 0 to the unit that was active *)
Lemma CreateGLTexture_units filename tag0 s s' :
  CreateGLTexture stbi_load gl_fresh filename tag0 s = Ok (true, s') ->
  gl_units (gl s') = <[gl_active (gl s) := 0]> (gl_units (gl s)).
Proof.
  intros H. unfold CreateGLTexture in H.
  destruct (stbi_load filename) as [image|]; [| discriminate].
  cbn [glGenTextures fst] in *.
  set (id := GLuint_wrap (gl_fresh (gl_names (gl s)))) in *.
  set (g := glBindTexture id _) in H.
  assert (Hb : gl_bound g = id) by apply gl_bound_after_bind.
  assert (Hg : <[gl_active g := 0]> (gl_units g)
               = <[gl_active (gl s) := 0]> (gl_units (gl s))).
  { subst g. unfold glBindTexture. cbn [gl_units gl_active]. apply insert_insert_eq. }
  destruct (colorChannels image =? 3) eqn:E3;
    [| destruct (colorChannels image =? 4) eqn:E4; [| discriminate]];
    (match type of H with (?m ≫= _) = _ => destruct m as [r|] eqn:Er end;
     cbn [mbind outcome_bind] in H; [| discriminate]; injection H as <-;
     apply register_texture_Ok in Er as [_ ->];
     cbn [gl with_textures with_gl];
     match goal with
     | |- context [glTexImage2D ?fmt image] =>
         destruct (upload_sequence fmt image id g Hb)
           as (_ & _ & _ & _ & _ & _ & _ & Hu & _)
     end;
     now rewrite Hu).
Qed.

(* BindGLTextures leaves the unit of the last entry active *)
Lemma BindGLTextures_active s s' :
  registry_fits s -> 0 < m_loadedTextures s -> BindGLTextures s = Ok s' ->
  gl_active (gl s') = m_loadedTextures s - 1.
Proof.
  intros [H0 Hn] Hpos H. unfold BindGLTextures in H.
  destruct (bind_loop_spec (Z.to_nat (m_loadedTextures s)) 0 s)
    as (s1 & Hrun & _ & _ & _ & _ & _ & _ & Hact & _); [lia | simpl; lia |].
  rewrite Hrun in H. injection H as <-. rewrite Hact.
  destruct (Z.to_nat (m_loadedTextures s)) eqn:E; lia.
Qed.

(** X29. BindGLTextures leaves the unit of the last entry active, and
    CreateGLTexture binds and unbinds on the active unit: a registration
    that succeeds after BindGLTextures leaves that last unit bound to 0, so
    the texture registered last before it is no longer bound to the unit of
    its slot; every other unit is as BindGLTextures left it. *)
Theorem registration_after_binding_unbinds_last_unit s s1 filename tag0 s2 :
  registry_fits s -> 0 < m_loadedTextures s ->
  BindGLTextures s = Ok s1 ->
  CreateGLTexture stbi_load gl_fresh filename tag0 s1 = Ok (true, s2) ->
  gl_units (gl s2) !! (m_loadedTextures s - 1) = Some 0
  /\ (forall u, u <> m_loadedTextures s - 1 ->
                gl_units (gl s2) !! u = gl_units (gl s1) !! u).
Proof.
  intros Hfit Hpos Hbind Hreg.
  rewrite (CreateGLTexture_units _ _ _ _ Hreg),
    (BindGLTextures_active _ _ Hfit Hpos Hbind).
  split; [apply lookup_insert_eq |].
  intros u Hu. now apply lookup_insert_ne.
Qed.
End LateRegistration.

(** ** The texture each draw samples *)

Section TexturingFacts.
Context {F : Scalar} {T : Trig F}.
Implicit Types (s : @SceneManager F) (f : @Frame F).

Lemma slot_of_only_uniforms s s' t :
  only_uniforms_differ s s' -> slot_of s' t = slot_of s t.
Proof.
  intros (Ha & Hn & _). unfold slot_of, FindTextureSlot. now rewrite Ha, Hn.
Qed.

Lemma FindTextureSlot_slot_of s t :
  registry_fits s -> FindTextureSlot s t = Ok (slot_of s t).
Proof.
  intros Hfit. unfold slot_of. now rewrite (FindTextureSlot_scan s t Hfit).
Qed.

Ltac kept :=
  repeat first [ rewrite lookup_insert_eq
               | rewrite lookup_insert_ne by discriminate ];
  reflexivity.

(* one statement, with a shader manager attached and a registry that fits *)
Lemma execute_texturing st f :
  is_Some (m_pShaderManager (scene (engine f))) ->
  registry_fits (scene (engine f)) ->
  exists f',
    execute st f = Ok f'
    /\ only_uniforms_differ (scene (engine f)) (scene (engine f'))
    /\ texturing_drawn (engine f')
       = texturing_drawn (engine f)
         ++ texturing_trace (slot_of (scene (engine f))) [st]
              (texturing (scene (engine f)))
    /\ texturing (scene (engine f'))
       = texturing_step (slot_of (scene (engine f))) st
           (texturing (scene (engine f))).
Proof.
  intros [sh Hsh] Hfit.
  destruct st; simpl;
    try (eexists; split; [reflexivity |]; simpl;
         split; [apply only_uniforms_differ_refl |];
         rewrite ?app_nil_r; split; reflexivity).
  - (* SetTransformations with the locals *)
    eexists. split; [reflexivity |]. unfold on_scene; simpl.
    unfold SetTransformations. rewrite Hsh.
    split; [apply (only_uniforms_differ_with_shader _ sh); exact Hsh |].
    rewrite ?app_nil_r. split; [reflexivity |].
    unfold texturing, current_uniform. rewrite Hsh. simpl.
    kept.
  - eexists. split; [reflexivity |]. unfold on_scene; simpl.
    unfold SetTransformations. rewrite Hsh.
    split; [apply (only_uniforms_differ_with_shader _ sh); exact Hsh |].
    rewrite ?app_nil_r. split; [reflexivity |].
    unfold texturing, current_uniform. rewrite Hsh. simpl.
    kept.
  - (* SetShaderColor *)
    eexists. split; [reflexivity |]. unfold on_scene; simpl.
    unfold SetShaderColor. rewrite Hsh.
    split; [apply (only_uniforms_differ_with_shader _ sh); exact Hsh |].
    rewrite ?app_nil_r. split; [reflexivity |].
    unfold texturing, current_uniform. rewrite Hsh. simpl.
    kept.
  - (* SetShaderTexture *)
    unfold SetShaderTexture. rewrite Hsh.
    rewrite (FindTextureSlot_slot_of _ _ Hfit). simpl.
    eexists. split; [reflexivity |]. simpl.
    split; [apply (only_uniforms_differ_with_shader _ sh); exact Hsh |].
    rewrite ?app_nil_r. split; [reflexivity |].
    unfold texturing, current_uniform. simpl.
    kept.
  - (* SetTextureUVScale *)
    eexists. split; [reflexivity |]. unfold on_scene; simpl.
    unfold SetTextureUVScale. rewrite Hsh.
    split; [apply (only_uniforms_differ_with_shader _ sh); exact Hsh |].
    rewrite ?app_nil_r. split; [reflexivity |].
    unfold texturing, current_uniform. rewrite Hsh. simpl.
    kept.
  - (* SetShaderMaterial *)
    unfold SetShaderMaterial.
    destruct (0 <? length (m_objectMaterials (scene (engine f))))%nat;
      [destruct (FindMaterial _ _ _) as [[] material] |];
      try (simpl; eexists; split; [reflexivity |]; simpl;
           split; [apply only_uniforms_differ_refl |];
           rewrite ?app_nil_r; split; reflexivity).
    rewrite Hsh. simpl. eexists. split; [reflexivity |]. simpl.
    split; [apply (only_uniforms_differ_with_shader _ sh); exact Hsh |].
    rewrite ?app_nil_r. split; [reflexivity |].
    unfold texturing, current_uniform. rewrite Hsh. simpl.
    kept.
  - (* a draw *)
    eexists. split; [reflexivity |]. simpl.
    split; [apply only_uniforms_differ_refl |].
    unfold texturing_drawn. simpl. rewrite !fmap_app. simpl.
    split; reflexivity.
  - (* a lighting write *)
    rewrite Hsh. eexists. split; [reflexivity |]. simpl.
    split; [apply (only_uniforms_differ_with_shader _ sh); exact Hsh |].
    rewrite ?app_nil_r. split; [reflexivity |].
    unfold texturing, current_uniform. rewrite Hsh. simpl.
    kept.
Qed.

Lemma texturing_trace_slots (slot slot' : string -> Z) body :
  (forall t, slot' t = slot t) ->
  forall u, texturing_trace slot' body u = texturing_trace slot body u.
Proof.
  intros Hs. induction body as [| st rest IH]; intros u; [reflexivity |].
  destruct st; simpl; rewrite ?Hs, ?IH; reflexivity.
Qed.

(* a body, with a shader manager attached and a registry that fits *)
Lemma run_texturing body : forall f,
  is_Some (m_pShaderManager (scene (engine f))) ->
  registry_fits (scene (engine f)) ->
  exists f',
    run body f = Ok f'
    /\ only_uniforms_differ (scene (engine f)) (scene (engine f'))
    /\ texturing_drawn (engine f')
       = texturing_drawn (engine f)
         ++ texturing_trace (slot_of (scene (engine f))) body
              (texturing (scene (engine f))).
Proof.
  induction body as [| st rest IH]; intros f Hsh Hfit.
  - exists f. simpl. rewrite app_nil_r.
    split; [reflexivity |]. split; [apply only_uniforms_differ_refl | reflexivity].
  - destruct (execute_texturing st f Hsh Hfit) as (f1 & Hex & Hu1 & Hd1 & Ht1).
    destruct (IH f1) as (f' & Hrun & Hu & Hd).
    { destruct Hu1 as (_ & _ & _ & _ & Hs). now apply Hs. }
    { now apply (only_uniforms_differ_fits _ _ Hu1). }
    exists f'. simpl. rewrite Hex. simpl.
    split; [exact Hrun |].
    split; [now apply (only_uniforms_differ_trans _ _ _ Hu1) |].
    rewrite Hd, Hd1, Ht1, <- app_assoc. f_equal.
    rewrite (texturing_trace_slots (slot_of (scene (engine f)))
               (slot_of (scene (engine f1))))
      by (intros t; now apply slot_of_only_uniforms).
    destruct st; simpl; rewrite ?app_nil_r; reflexivity.
Qed.
End TexturingFacts.

(** ** A frame of the prepared scene *)

Section PreparedFrame.
Variable T : Trig binary32.
Variable stack : nat -> @OBJECT_MATERIAL binary32.
Variables scale0 position0 : @vec3 binary32.
Variable stbi_load : string -> option stb_image.
Variable gl_fresh : list Z -> Z.
Implicit Types e : @Renderer binary32.

Lemma RenderScene_body_texturing (slot : string -> Z) u :
  texturing_trace slot (RenderScene_body stack) u = scene_sampling slot.
Proof. reflexivity. Qed.

(** X30. Every tag RenderScene samples is one PrepareScene registers and
    binds: on a scene manager with a shader manager, an empty registry and a
    table of at least six entries, and with the six texture files decodable,
    PrepareScene and then RenderScene complete, and each of the eighteen
    draws of the frame is either flat-coloured (bUseTexture 0) or issued
    with bUseTexture 1 and a sampler slot that is an entry in use whose
    texture unit is bound to the handle the entry stores. *)
Theorem prepared_scene_samples_bound_units e sh :
  m_pShaderManager (scene e) = Some sh ->
  m_loadedTextures (scene e) = 0 ->
  (6 <= length (m_textureIDs (scene e)))%nat ->
  all_decodable stbi_load texture_files ->
  exists e1 e2 news,
    PrepareScene stbi_load gl_fresh e = Ok e1
    /\ RenderScene T stack scale0 position0 e1 = Ok e2
    /\ texturing_drawn e2 = texturing_drawn e ++ news
    /\ length news = 18%nat
    /\ Forall (samples_bound_unit (scene e2)) news.
Proof.
  intros Hsh H0 Hcap Hdec.
  destruct (PrepareScene_run stbi_load gl_fresh e sh Hsh H0 Hcap Hdec)
    as (e1 & sh' & Hrun & Hsh' & _ & Hfit & Htags & Hunits & _ & _ & Hdraws).
  destruct (run_texturing (T := T) (RenderScene_body stack)
              {| engine := e1; scaleXYZ := scale0;
                 XrotationDegrees := Decimal.q 0 1;
                 YrotationDegrees := Decimal.q 0 1;
                 ZrotationDegrees := Decimal.q 0 1;
                 positionXYZ := position0 |})
    as (f' & Hr & Hu & Hd); [cbn [engine]; eauto | exact Hfit |].
  cbn [engine] in *.
  exists e1, (engine f'), (scene_sampling (slot_of (scene e1))).
  split; [exact Hrun |].
  split; [unfold RenderScene; rewrite Hr; reflexivity |].
  split; [| split; [reflexivity |]].
  { rewrite Hd, RenderScene_body_texturing. f_equal.
    unfold texturing_drawn. now rewrite Hdraws. }
  assert (Hsix : m_loadedTextures (scene e1) = 6).
  { rewrite <- (loaded_entries_length (scene e1) Hfit).
    pose proof (f_equal length Htags) as Hl6. unfold texture_tags in Hl6.
    rewrite length_fmap in Hl6. now rewrite Hl6. }
  assert (Hslot : forall (k : nat) tag0, texture_files.*2 !! k = Some tag0 ->
            samples_bound_unit (scene (engine f'))
              (Some (UInt 1), Some (USampler2D (slot_of (scene e1) tag0)))).
  { intros k tag0 Hk. right.
    destruct (find_by_position (scene e1) k tag0 Hfit) as (e0 & He0 & Hs & _).
    { now rewrite Htags. }
    { rewrite Htags. now apply texture_files_distinct. }
    exists (Z.of_nat k), e0. unfold slot_of. rewrite Hs.
    split; [reflexivity |].
    destruct Hu as (Ha & Hn & _ & Hg & _). rewrite Ha, Hn, Hg.
    apply lookup_lt_Some in Hk. change (length texture_files.*2) with 6%nat in Hk.
    split; [lia |]. rewrite Nat2Z.id. split; [exact He0 |].
    rewrite Hunits by lia. now rewrite Nat2Z.id, He0. }
  unfold scene_sampling. cbn [fmap list_fmap repeat app].
  repeat (apply List.Forall_cons;
          [ first [ apply (Hslot 1%nat); reflexivity
                  | apply (Hslot 4%nat); reflexivity
                  | apply (Hslot 5%nat); reflexivity
                  | apply (Hslot 2%nat); reflexivity
                  | left; reflexivity ] |]).
  exact (List.Forall_nil _).
Qed.
End PreparedFrame.

(** ** Instances *)

(** X7, at a sample: one texture in a table of four, and a driver that hands
    out 1, 2, 3, ... *)
Lemma DestroyGLTextures_orphans_handles_witness :
  exists s' more,
    DestroyGLTextures Sample.fresh Sample.one = Ok s'
    /\ gl_names (gl s') = gl_names (gl Sample.one) ++ more
    /\ ID <$> loaded_entries s' = more
    /\ NoDup more
    /\ (forall id, id ∈ more -> id ∉ gl_names (gl Sample.one)).
Proof.
  apply (DestroyGLTextures_orphans_handles Sample.fresh Sample.one).
  - fits.
  - intros more Hlt.
    destruct more as [| x more]; [| simpl in Hlt; vm_compute in Hlt; lia].
    not_in_list.
Defined.

(** X8, at a sample: the tag "a" after DestroyGLTextures. *)
Lemma DestroyGLTextures_slots_survive_witness :
  m_loadedTextures Fixture.one_destroyed = m_loadedTextures Sample.one
  /\ texture_tags Fixture.one_destroyed = texture_tags Sample.one
  /\ FindTextureSlot Fixture.one_destroyed "a" = FindTextureSlot Sample.one "a".
Proof.
  apply (DestroyGLTextures_slots_survive Sample.fresh Sample.one
           Fixture.one_destroyed "a").
  reflexivity.
Defined.

(** X9, at a sample: "wood" among the four defined materials. *)
Lemma FindMaterial_miss_returns_true_witness :
  FindMaterial Fixture.furnished "wood" Sample.stale = (true, Sample.stale).
Proof.
  apply (FindMaterial_miss_returns_true Fixture.furnished "wood" Sample.stale).
  - discriminate.
  - not_in_list.
Defined.

(** X10, at a sample: "glass" defined once more after the four materials. *)
Lemma later_definitions_do_not_shadow_witness :
  FindMaterial (define_all [Sample.glass2] Fixture.furnished) "glass" Sample.stale
  = FindMaterial Fixture.furnished "glass" Sample.stale.
Proof.
  apply (later_definitions_do_not_shadow Fixture.furnished [Sample.glass2]
           "glass" Sample.stale).
  vm_compute. apply list_elem_of_further, list_elem_of_further, list_elem_of_here.
Defined.

(** X12, at a sample: "b" is the second of the two registered tags. *)
Lemma SetShaderTexture_registered_witness :
  exists s' sh',
    SetShaderTexture "b" Sample.two = Ok s'
    /\ m_pShaderManager s' = Some sh'
    /\ uniforms sh' !! g_UseTextureName = Some (UInt 1)
    /\ uniforms sh' !! g_TextureValueName
       = Some (USampler2D (Z.of_nat (length ["a"%string])))
    /\ (forall name, name <> g_UseTextureName -> name <> g_TextureValueName ->
          uniforms sh' !! name = (∅ : gmap string uniform) !! name)
    /\ m_loadedTextures s' = m_loadedTextures Sample.two
    /\ m_textureIDs s' = m_textureIDs Sample.two
    /\ m_objectMaterials s' = m_objectMaterials Sample.two
    /\ gl s' = gl Sample.two.
Proof.
  apply (SetShaderTexture_registered Sample.two {| uniforms := ∅ |} "b"
           ["a"%string] []).
  - reflexivity.
  - fits.
  - reflexivity.
  - not_in_list.
Defined.

(** X13, at a sample: the tag "b" and the colour (1, 1, 0, 1). *)
Lemma color_and_texture_last_call_wins_witness :
  (exists s1,
     SetShaderTexture "b"
       (SetShaderColor (Decimal.q 1 1) (Decimal.q 1 1) (Decimal.q 0 1)
          (Decimal.q 1 1) Sample.two) = Ok s1
     /\ current_uniform s1 g_UseTextureName = Some (UInt 1)
     /\ current_uniform s1 g_ColorValueName
        = Some (UVec4 (Vec4 (Decimal.q 1 1) (Decimal.q 1 1) (Decimal.q 0 1)
                            (Decimal.q 1 1))))
  /\ (exists s1,
        SetShaderTexture "b" Sample.two = Ok s1
        /\ current_uniform
             (SetShaderColor (Decimal.q 1 1) (Decimal.q 1 1) (Decimal.q 0 1)
                (Decimal.q 1 1) s1) g_UseTextureName = Some (UInt 0)
        /\ current_uniform
             (SetShaderColor (Decimal.q 1 1) (Decimal.q 1 1) (Decimal.q 0 1)
                (Decimal.q 1 1) s1) g_TextureValueName = Some (USampler2D 1)).
Proof.
  apply (color_and_texture_last_call_wins Sample.two {| uniforms := ∅ |} "b"
           (Decimal.q 1 1) (Decimal.q 1 1) (Decimal.q 0 1) (Decimal.q 1 1) 1);
    reflexivity.
Defined.

(** X14, at a sample: the setters of one object after the UV scale (2, 4). *)
Lemma uv_scale_persists_witness :
  current_uniform Fixture.shaded "UVscale"
  = Some (UVec2 (Vec2 (Decimal.q 2 1) (Decimal.q 4 1))).
Proof.
  apply (uv_scale_persists (T := Fixture.flat) Fixture.furnished {| uniforms := ∅ |}
           (Decimal.q 2 1) (Decimal.q 4 1) Fixture.ones (Decimal.q 0 1)
           (Decimal.q 0 1) (Decimal.q 0 1) Fixture.origin "b"
           (Decimal.q 1 1) (Decimal.q 1 1) (Decimal.q 0 1) (Decimal.q 1 1)
           "glass" Sample.stale Fixture.textured Fixture.shaded);
    reflexivity.
Defined.

(** X17, at a sample: a frame on the two sample textures. *)
Lemma RenderScene_draws_every_object_witness :
  exists e',
    RenderScene Fixture.flat Fixture.locals Fixture.ones Fixture.origin
      (Fixture.stage Sample.two) = Ok e'
    /\ calls_drawn e' = calls_drawn (Fixture.stage Sample.two) ++ scene_draws
    /\ only_uniforms_differ (scene (Fixture.stage Sample.two)) (scene e')
    /\ loaded_meshes (m_basicMeshes e')
       = loaded_meshes (m_basicMeshes (Fixture.stage Sample.two)).
Proof.
  apply (RenderScene_draws_every_object Fixture.flat Fixture.locals Fixture.ones
           Fixture.origin (Fixture.stage Sample.two)).
  - eexists. reflexivity.
  - fits.
Defined.

(** X18, at a sample: a frame on the two sample textures. *)
Lemma RenderScene_leaves_lighting_off_witness :
  exists e',
    RenderScene Fixture.flat Fixture.locals Fixture.ones Fixture.origin
      (Fixture.stage Sample.two) = Ok e'
    /\ lighting_drawn e'
       = lighting_drawn (Fixture.stage Sample.two)
         ++ repeat (lighting (scene (Fixture.stage Sample.two))) 13
         ++ repeat (Some (UBool false)) 5
    /\ lighting (scene e') = Some (UBool false).
Proof.
  apply (RenderScene_leaves_lighting_off Fixture.flat Fixture.locals Fixture.ones
           Fixture.origin (Fixture.stage Sample.two)).
  - eexists. reflexivity.
  - fits.
Defined.

(** X19, at a sample: the four materials defined and no shader manager. *)
Lemma RenderScene_without_shader_faults_witness :
  RenderScene Fixture.flat Fixture.locals Fixture.ones Fixture.origin
    (Fixture.stage Fixture.headless) = Fault NullDereference.
Proof.
  apply (RenderScene_without_shader_faults Fixture.flat Fixture.locals
           Fixture.ones Fixture.origin (Fixture.stage Fixture.headless)).
  reflexivity.
Defined.

(** X20, at a sample: two frames on the two sample textures. *)
Lemma second_frame_is_unlit_witness :
  exists e1 e2,
    RenderScene Fixture.flat Fixture.locals Fixture.ones Fixture.origin
      (Fixture.stage Sample.two) = Ok e1
    /\ RenderScene Fixture.flat Fixture.other_locals Fixture.ones Fixture.origin e1
       = Ok e2
    /\ lighting_drawn e2 = lighting_drawn e1 ++ repeat (Some (UBool false)) 18.
Proof.
  apply (second_frame_is_unlit Fixture.flat Fixture.locals Fixture.other_locals
           Fixture.ones Fixture.origin Fixture.ones Fixture.origin
           (Fixture.stage Sample.two)).
  - eexists. reflexivity.
  - fits.
Defined.

(** X21, at a sample: a table of eight, and only textures/stone.jpg can be
    read. *)
Lemma LoadTextures_reports_last_only_witness :
  exists b s',
    LoadTextures Fixture.stone_only Sample.fresh (@Sample.scene binary32 8)
      = Ok (b, s')
    /\ (b = true <->
        exists image, Fixture.stone_only "textures/stone.jpg" = Some image
                      /\ (colorChannels image = 3 \/ colorChannels image = 4)).
Proof.
  apply (LoadTextures_reports_last_only Fixture.stone_only Sample.fresh
           (@Sample.scene binary32 8)).
  - apply Z.leb_le. reflexivity.
  - apply Z.leb_le. reflexivity.
Defined.

(** X22, at a sample: no shader manager. *)
Lemma PrepareScene_without_shader_faults_witness :
  PrepareScene Fixture.any_rgb Sample.fresh (Fixture.stage Fixture.headless)
  = Fault NullDereference.
Proof.
  apply (PrepareScene_without_shader_faults Fixture.any_rgb Sample.fresh
           (Fixture.stage Fixture.headless)).
  reflexivity.
Defined.

(** X23, at a sample: a table of eight and a decoder that reads every file. *)
Lemma PrepareScene_ready_witness :
  exists e',
    PrepareScene Fixture.any_rgb Sample.fresh (Fixture.stage (Sample.scene 8)) = Ok e'
    /\ registry_fits (scene e')
    /\ texture_tags (scene e') = texture_files.*2
    /\ lighting (scene e') = Some (UBool true).
Proof.
  destruct (PrepareScene_ready Fixture.any_rgb Sample.fresh
              (Fixture.stage (Sample.scene 8)) {| uniforms := ∅ |})
    as (e' & H1 & H2 & H3 & _ & H5 & _).
  - reflexivity.
  - reflexivity.
  - apply Nat.leb_le. reflexivity.
  - intros filename tag0 _. exists (Sample.image 3).
    split; [reflexivity | left; reflexivity].
  - exists e'. auto.
Defined.

(** X24, at a sample: two contents of the locals, the four materials
    defined. *)
Lemma RenderScene_ignores_uninitialised_locals_witness :
  RenderScene Fixture.flat Fixture.locals Fixture.ones Fixture.origin
    (Fixture.stage Fixture.furnished)
  = RenderScene Fixture.flat Fixture.other_locals Fixture.ones Fixture.origin
      (Fixture.stage Fixture.furnished).
Proof.
  apply (RenderScene_ignores_uninitialised_locals Fixture.flat Fixture.locals
           Fixture.other_locals Fixture.ones Fixture.origin
           (Fixture.stage Fixture.furnished)).
  intros t Ht.
  assert (E : material_tags (scene (Fixture.stage Fixture.furnished))
              = scene_materials) by reflexivity.
  rewrite E. exact Ht.
Defined.

(** X25, at a sample: a third texture, with four channels. *)
Lemma CreateGLTexture_uploads_witness :
  exists t rest,
    gl_objects (gl Sample.three) !! fst (glGenTextures Sample.fresh (gl Sample.two))
      = Some t
    /\ tex_level0 t
       = Some (if colorChannels (Sample.image 4) =? 3 then GL_RGB8 else GL_RGBA8,
               Sample.image 4)
    /\ tex_mipmaps t = true
    /\ tex_params t
       = (GL_TEXTURE_MAG_FILTER, GL_LINEAR) :: (GL_TEXTURE_MIN_FILTER, GL_LINEAR)
         :: (GL_TEXTURE_WRAP_T, GL_REPEAT) :: (GL_TEXTURE_WRAP_S, GL_REPEAT) :: rest
    /\ (forall id, id <> fst (glGenTextures Sample.fresh (gl Sample.two)) ->
                   gl_objects (gl Sample.three) !! id
                   = gl_objects (gl Sample.two) !! id)
    /\ gl_units (gl Sample.three)
       = <[gl_active (gl Sample.two) := 0]> (gl_units (gl Sample.two))
    /\ gl_active (gl Sample.three) = gl_active (gl Sample.two).
Proof.
  apply (CreateGLTexture_uploads Sample.loader Sample.fresh "rgba.png" "sky"
           (Sample.image 4) Sample.two Sample.three); reflexivity.
Defined.

(** X26, at a sample: an image with one channel. *)
Lemma unsupported_channels_leaves_texture_bound_witness :
  exists s',
    CreateGLTexture Sample.loader Sample.fresh "gray.png" "fog" Sample.two
      = Ok (false, s')
    /\ gl_names (gl s')
       = gl_names (gl Sample.two) ++ [fst (glGenTextures Sample.fresh (gl Sample.two))]
    /\ gl_bound (gl s') = fst (glGenTextures Sample.fresh (gl Sample.two))
    /\ m_loadedTextures s' = m_loadedTextures Sample.two
    /\ m_textureIDs s' = m_textureIDs Sample.two.
Proof.
  apply (unsupported_channels_leaves_texture_bound Sample.loader Sample.fresh
           "gray.png" "fog" (Sample.image 1) Sample.two);
    [reflexivity | discriminate | discriminate].
Defined.

(** X27, at a sample: "stone" is the first of the four defined materials. *)
Lemma SetShaderMaterial_sends_first_match_witness :
  exists s' sh',
    SetShaderMaterial "stone" Sample.stale Fixture.furnished = Ok s'
    /\ m_pShaderManager s' = Some sh'
    /\ uniforms sh' !! "material.diffuseColor"
       = Some (UVec3 (diffuseColor (hd Sample.stale defined_materials)))
    /\ uniforms sh' !! "material.specularColor"
       = Some (UVec3 (specularColor (hd Sample.stale defined_materials)))
    /\ uniforms sh' !! "material.shininess"
       = Some (UFloat (shininess (hd Sample.stale defined_materials)))
    /\ (forall name, name <> "material.diffuseColor"%string ->
          name <> "material.specularColor"%string ->
          name <> "material.shininess"%string ->
          uniforms sh' !! name = (∅ : gmap string uniform) !! name)
    /\ m_loadedTextures s' = m_loadedTextures Fixture.furnished
    /\ m_textureIDs s' = m_textureIDs Fixture.furnished
    /\ m_objectMaterials s' = m_objectMaterials Fixture.furnished
    /\ gl s' = gl Fixture.furnished.
Proof.
  apply (SetShaderMaterial_sends_first_match Fixture.furnished {| uniforms := ∅ |}
           [] (hd Sample.stale defined_materials) (tl defined_materials)
           "stone" Sample.stale).
  - reflexivity.
  - apply not_elem_of_nil.
  - reflexivity.
  - reflexivity.
Defined.

(** X28, at a sample: the four materials defined and no shader manager. *)
Lemma SetShaderMaterial_null_shader_witness :
  SetShaderMaterial "glass" Sample.stale Fixture.headless = Fault NullDereference.
Proof.
  apply (SetShaderMaterial_null_shader Fixture.headless "glass" Sample.stale).
  - discriminate.
  - reflexivity.
Defined.

(** X29, at a sample: a third texture registered after the two sample
    textures were bound. *)
Lemma registration_after_binding_unbinds_last_unit_witness :
  gl_units (gl Fixture.late) !! (m_loadedTextures Sample.two - 1) = Some 0
  /\ (forall u, u <> m_loadedTextures Sample.two - 1 ->
                gl_units (gl Fixture.late) !! u
                = gl_units (gl Fixture.two_bound) !! u).
Proof.
  apply (registration_after_binding_unbinds_last_unit Sample.loader Sample.fresh
           Sample.two Fixture.two_bound "rgba.png" "sky" Fixture.late).
  - fits.
  - reflexivity.
  - reflexivity.
  - reflexivity.
Defined.

(** X30, at a sample: a table of eight and a decoder that reads every file. *)
Lemma prepared_scene_samples_bound_units_witness :
  exists e1 e2 news,
    PrepareScene Fixture.any_rgb Sample.fresh (Fixture.stage (Sample.scene 8)) = Ok e1
    /\ RenderScene Fixture.flat Fixture.locals Fixture.ones Fixture.origin e1 = Ok e2
    /\ texturing_drawn e2 = texturing_drawn (Fixture.stage (Sample.scene 8)) ++ news
    /\ length news = 18%nat
    /\ Forall (samples_bound_unit (scene e2)) news.
Proof.
  apply (prepared_scene_samples_bound_units Fixture.flat Fixture.locals
           Fixture.ones Fixture.origin Fixture.any_rgb Sample.fresh
           (Fixture.stage (Sample.scene 8)) {| uniforms := ∅ |}).
  - reflexivity.
  - reflexivity.
  - apply Nat.leb_le. reflexivity.
  - intros filename tag0 _. exists (Sample.image 3).
    split; [reflexivity | left; reflexivity].
Defined.
